(** * Smithery server scraper: URL reconciliation, parameter parser, records

    A shallow embedding of the pure core of the repository:
    - [missing_servers_checker.py]: [normalize_server_url],
      [find_missing_servers], [build_audit_report],
      [fetch_current_server_urls];
    - [smithery_scraper.py]: [normalize_server],
      [parse_parameters_from_text], the outcome classification of
      [scrape_single_server_with_browser], [save_to_json];
    - [rescrape_missing_servers.py]: [classify].

    Python [str] values are modelled as [string], one [ascii] per code
    point, so the development covers the strings whose code points are
    below 256.  A raised exception is modelled by [None].

    The functions of the Python standard library that the code calls
    ([str] methods, [urllib.parse.urlsplit], [urlunsplit] and the
    [ipaddress] check behind bracketed hosts) are embedded from CPython
    3.11 (3.11.4 and later, which validate bracketed hosts) in the
    modules [Py], [Ipaddress] and [Urllib].  The browser and
    [json.loads] are parameters: [_fetch_page_urls] is the listing
    source of the discovery, and [json_loads] decodes a line of the
    log. *)

From Stdlib Require Import ZArith NArith Lia Bool List Ascii.
From Stdlib Require String DecimalString.
From stdpp Require Import base option list strings gmap sorting.

(** ** Python [str] primitives *)

Module Py.

Definition ord (c : ascii) : N := N_of_ascii c.

Definition in_range (lo hi : N) (c : ascii) : bool :=
  ((lo <=? ord c) && (ord c <=? hi))%N.

(** [c.isspace()] *)
Definition isspace (c : ascii) : bool :=
  in_range 9 13 c || in_range 28 32 c
  || (ord c =? 133)%N || (ord c =? 160)%N.

(** [c.isascii()] *)
Definition isascii (c : ascii) : bool := (ord c <? 128)%N.

(** [c.isupper()] and [c.islower()] for a single character *)
Definition isupper_char (c : ascii) : bool :=
  in_range 65 90 c || (in_range 192 222 c && negb (ord c =? 215)%N).

Definition islower_char (c : ascii) : bool :=
  in_range 97 122 c
  || (ord c =? 170)%N || (ord c =? 181)%N || (ord c =? 186)%N
  || (in_range 223 255 c && negb (ord c =? 247)%N).

(** [c.isascii() and c.isalpha()] *)
Definition isascii_alpha (c : ascii) : bool :=
  in_range 65 90 c || in_range 97 122 c.

(** [c.isascii() and c.isdigit()] *)
Definition isascii_digit (c : ascii) : bool := in_range 48 57 c.

(** [c.lower()] *)
Definition lower_char (c : ascii) : ascii :=
  if isupper_char c then ascii_of_N (ord c + 32) else c.

Fixpoint str_all (p : ascii → bool) (s : string) : bool :=
  match s with
  | EmptyString => true
  | String c s' => p c && str_all p s'
  end.

Fixpoint str_any (p : ascii → bool) (s : string) : bool :=
  match s with
  | EmptyString => false
  | String c s' => p c || str_any p s'
  end.

Fixpoint str_map (f : ascii → ascii) (s : string) : string :=
  match s with
  | EmptyString => EmptyString
  | String c s' => String (f c) (str_map f s')
  end.

(** [s.lower()] *)
Definition lower : string → string := str_map lower_char.

(** [bool(s)]: a string is true when it is not empty *)
Definition truthy (s : string) : bool :=
  match s with EmptyString => false | String _ _ => true end.

(** [c in s] for a one-character [c] *)
Definition contains_char (c : ascii) (s : string) : bool :=
  str_any (Ascii.eqb c) s.

(** [s.startswith(pre)] *)
Fixpoint startswith (pre s : string) : bool :=
  match pre, s with
  | EmptyString, _ => true
  | String a pre', String b s' => Ascii.eqb a b && startswith pre' s'
  | String _ _, EmptyString => false
  end.

(** [sub in s] *)
Fixpoint contains (sub s : string) : bool :=
  startswith sub s
  || match s with
     | EmptyString => false
     | String _ s' => contains sub s'
     end.

(** [s.lstrip(chars)] and [s.rstrip(chars)], the character set given as
    a predicate *)
Fixpoint lstrip_by (p : ascii → bool) (s : string) : string :=
  match s with
  | EmptyString => EmptyString
  | String c s' => if p c then lstrip_by p s' else s
  end.

Fixpoint rstrip_by (p : ascii → bool) (s : string) : string :=
  match s with
  | EmptyString => EmptyString
  | String c s' =>
      match rstrip_by p s' with
      | EmptyString => if p c then EmptyString else String c EmptyString
      | r => String c r
      end
  end.

(** [s.strip()] *)
Definition strip (s : string) : string :=
  rstrip_by isspace (lstrip_by isspace s).

Fixpoint take (n : nat) (s : string) : string :=
  match n, s with
  | S n', String c s' => String c (take n' s')
  | _, _ => EmptyString
  end.

Fixpoint drop (n : nat) (s : string) : string :=
  match n, s with
  | S n', String _ s' => drop n' s'
  | _, _ => s
  end.

Definition len (s : string) : Z := Z.of_nat (String.length s).

(** A slice bound [i] of [s[lo:hi]], clamped the way Python does *)
Definition clamp (s : string) (i : Z) : nat :=
  Z.to_nat (if (i <? 0)%Z then Z.max (i + len s) 0 else Z.min i (len s)).

(** [s[lo:hi]], [None] standing for an omitted bound *)
Definition slice (lo hi : option Z) (s : string) : string :=
  let a := match lo with Some i => clamp s i | None => 0 end in
  let b := match hi with Some i => clamp s i | None => String.length s end in
  take (b - a) (drop a s).

Fixpoint index_of (c : ascii) (s : string) : option nat :=
  match s with
  | EmptyString => None
  | String d s' =>
      if Ascii.eqb c d then Some 0 else S <$> index_of c s'
  end.

(** [s.find(c, start)] for a one-character [c]; [-1] when absent *)
Definition find_from (c : ascii) (start : Z) (s : string) : Z :=
  let a := clamp s start in
  match index_of c (drop a s) with
  | Some k => Z.of_nat (a + k)
  | None => (-1)%Z
  end.

(** [s.find(c)] *)
Definition find (c : ascii) (s : string) : Z := find_from c 0 s.

(** [s.replace(c, "")] for a one-character [c] *)
Fixpoint remove_char (c : ascii) (s : string) : string :=
  match s with
  | EmptyString => EmptyString
  | String d s' =>
      if Ascii.eqb c d then remove_char c s' else String d (remove_char c s')
  end.

(** [s.replace(sub, "")] for a non-empty [sub]: occurrences are removed
    from left to right without overlap; [skip] counts the characters of
    the current occurrence still to be dropped *)
Fixpoint remove_sub_from (sub : string) (skip : nat) (s : string) : string :=
  match s with
  | EmptyString => EmptyString
  | String c s' =>
      match skip with
      | S k => remove_sub_from sub k s'
      | O =>
          if startswith sub s
          then remove_sub_from sub (String.length sub - 1) s'
          else String c (remove_sub_from sub 0 s')
      end
  end.

Definition remove_sub (sub s : string) : string := remove_sub_from sub 0 s.

(** [s.partition(c)]: the text before the first [c], whether [c] was
    found, and the text after it *)
Fixpoint partition (c : ascii) (s : string) : string * bool * string :=
  match s with
  | EmptyString => (EmptyString, false, EmptyString)
  | String d s' =>
      if Ascii.eqb c d then (EmptyString, true, s')
      else let '(a, f, b) := partition c s' in (String d a, f, b)
  end.

(** [s.rpartition(c)[2]]: the text after the last [c], all of [s] when
    there is none *)
Fixpoint after_last (c : ascii) (s : string) : string :=
  match s with
  | EmptyString => EmptyString
  | String d s' =>
      if contains_char c s' then after_last c s'
      else if Ascii.eqb c d then s' else s
  end.

(** [s.split(c)] for a one-character separator *)
Fixpoint split_on (c : ascii) (s : string) : list string :=
  match s with
  | EmptyString => [EmptyString]
  | String d s' =>
      if Ascii.eqb c d then EmptyString :: split_on c s'
      else match split_on c s' with
           | w :: ws => String d w :: ws
           | [] => [String d EmptyString]
           end
  end.

(** [s.split()]: the maximal runs of characters that are not white space *)
Fixpoint split_ws_go (cur : option string) (s : string) : list string :=
  match s with
  | EmptyString => option_list (String.rev <$> cur)
  | String c s' =>
      if isspace c
      then option_list (String.rev <$> cur) ++ split_ws_go None s'
      else split_ws_go
             (Some (String c (default EmptyString cur))) s'
  end.

Definition split_ws : string → list string := split_ws_go None.

(** [s.count(c)] for a one-character [c] *)
Fixpoint count_char (c : ascii) (s : string) : nat :=
  match s with
  | EmptyString => 0
  | String d s' => (if Ascii.eqb c d then 1 else 0) + count_char c s'
  end.

(** [sep.join(parts)] *)
Fixpoint join (sep : string) (parts : list string) : string :=
  match parts with
  | [] => EmptyString
  | [p] => p
  | p :: rest => p +:+ sep +:+ join sep rest
  end.

(** [s.isupper()]: no lowercase character and at least one uppercase *)
Definition isupper (s : string) : bool :=
  negb (str_any islower_char s) && str_any isupper_char s.

(** [int(s)] for a string of ASCII digits in the given base *)
Definition digit_value (c : ascii) : N :=
  if isascii_digit c then ord c - 48
  else if in_range 97 102 c then ord c - 87
  else ord c - 55.

Definition int_of (base : N) (s : string) : N :=
  (fix go (acc : N) (s : string) : N :=
     match s with
     | EmptyString => acc
     | String c s' => go (acc * base + digit_value c)%N s'
     end) 0%N s.

(** [c.isdigit()] for a single character: the ASCII digits and the
    superscripts 1, 2 and 3 *)
Definition isdigit_char (c : ascii) : bool :=
  isascii_digit c || (ord c =? 178)%N || (ord c =? 179)%N || (ord c =? 185)%N.

(** [s.isdigit()] *)
Definition isdigit (s : string) : bool := truthy s && str_all isdigit_char s.

(** The longest prefix of [s] whose characters satisfy [p] *)
Fixpoint take_while (p : ascii → bool) (s : string) : string :=
  match s with
  | EmptyString => EmptyString
  | String c s' => if p c then String c (take_while p s') else EmptyString
  end.

(** [str(n)] for a natural number *)
Definition str_of_nat (n : nat) : string :=
  DecimalString.NilZero.string_of_uint (Nat.to_uint n).

(** [s.find(sub)]; [-1] when absent *)
Fixpoint find_sub_from (sub s : string) (i : nat) : Z :=
  if startswith sub s then Z.of_nat i
  else match s with
       | EmptyString => (-1)%Z
       | String _ s' => find_sub_from sub s' (S i)
       end.

Definition find_sub (sub s : string) : Z := find_sub_from sub s 0.

End Py.

(** ** [ipaddress]: the validity of an address literal

    [urlsplit] hands the text between brackets to
    [ipaddress.ip_address]; only whether that call raises matters to the
    caller, so the functions below return the parsed number in an
    [option]. *)

Module Ipaddress.
Import Py.

(** [IPv4Address._parse_octet] *)
Definition parse_octet (octet_str : string) : option N :=
  if negb (truthy octet_str) then None
  else if negb (str_all isascii_digit octet_str) then None
  else if (3 <? String.length octet_str)%nat then None
  else if negb (String.eqb octet_str "0") && startswith "0" octet_str then None
  else
    let octet_int := int_of 10 octet_str in
    if (255 <? octet_int)%N then None else Some octet_int.

(** [int.from_bytes(octets, 'big')] *)
Definition from_bytes_big (octets : list N) : N :=
  fold_left (fun acc b => (acc * 256 + b)%N) octets 0%N.

(** [IPv4Address._ip_int_from_string] *)
Definition ipv4_int_from_string (ip_str : string) : option N :=
  if negb (truthy ip_str) then None
  else
    let octets := split_on "." ip_str in
    if negb (length octets =? 4)%nat then None
    else from_bytes_big <$> mapM parse_octet octets.

(** [IPv4Address(address)] for a string *)
Definition IPv4Address (addr_str : string) : option N :=
  if contains_char "/" addr_str then None
  else ipv4_int_from_string addr_str.

(** [IPv6Address._parse_hextet] *)
Definition is_hex_digit (c : ascii) : bool :=
  isascii_digit c || in_range 97 102 c || in_range 65 70 c.

Definition parse_hextet (hextet_str : string) : option N :=
  if negb (str_all is_hex_digit hextet_str) then None
  else if (4 <? String.length hextet_str)%nat then None
  else if negb (truthy hextet_str) then None
  else Some (int_of 16 hextet_str).

(** ['%x' % n] for [n < 65536] *)
Definition hex_digit (d : N) : ascii :=
  if (d <? 10)%N then ascii_of_N (48 + d) else ascii_of_N (87 + d).

Definition format_x (n : N) : string :=
  let digits :=
    String (hex_digit (n / 4096 mod 16))
      (String (hex_digit (n / 256 mod 16))
         (String (hex_digit (n / 16 mod 16)) EmptyString)) in
  lstrip_by (Ascii.eqb "0") digits +:+ String (hex_digit (n mod 16)) EmptyString.

(** [IPv6Address._split_scope_id] *)
Definition split_scope_id (ip_str : string) : option (string * option string) :=
  let '(addr, sep, scope_id) := partition "%" ip_str in
  if negb sep then Some (addr, None)
  else if negb (truthy scope_id) || contains_char "%" scope_id then None
  else Some (addr, Some scope_id).

(** The loop that looks for the empty part of a ["::"] among the inner
    parts, [i] being the index of the first element of [inner] *)
Fixpoint find_skip_index (i : nat) (inner : list string)
    (skip_index : option nat) : option (option nat) :=
  match inner with
  | [] => Some skip_index
  | p :: rest =>
      if negb (truthy p)
      then match skip_index with
           | Some _ => None
           | None => find_skip_index (S i) rest (Some i)
           end
      else find_skip_index (S i) rest skip_index
  end.

Definition parse_hextets (acc : N) (parts : list string) : option N :=
  foldl (fun acc p => a ← acc; h ← parse_hextet p; Some (N.lor (N.shiftl a 16) h))
        (Some acc) parts.

(** [IPv6Address._ip_int_from_string] *)
Definition ipv6_int_from_string (ip_str : string) : option N :=
  if negb (truthy ip_str) then None
  else
    let parts := split_on ":" ip_str in
    if (length parts <? 3)%nat then None
    else
      parts ←
        (if contains_char "." (List.last parts EmptyString)
         then
           ipv4_int ← IPv4Address (List.last parts EmptyString);
           Some (removelast parts
                   ++ [format_x (N.land (N.shiftr ipv4_int 16) 65535);
                       format_x (N.land ipv4_int 65535)])
         else Some parts);
      if (9 <? length parts)%nat then None
      else
        skip_index ←
          find_skip_index 1 (List.firstn (length parts - 2) (List.skipn 1 parts)) None;
        let first_empty := negb (truthy (List.hd EmptyString parts)) in
        let last_empty := negb (truthy (List.last parts EmptyString)) in
        '(parts_hi, parts_lo, parts_skipped) ←
          match skip_index with
          | Some k =>
              let parts_hi := k in
              let parts_lo := (length parts - k - 1)%nat in
              parts_hi ←
                (if first_empty
                 then if (0 <? parts_hi - 1)%nat then None else Some (parts_hi - 1)%nat
                 else Some parts_hi);
              parts_lo ←
                (if last_empty
                 then if (0 <? parts_lo - 1)%nat then None else Some (parts_lo - 1)%nat
                 else Some parts_lo);
              if (8 <? parts_hi + parts_lo + 1)%nat then None
              else Some (parts_hi, parts_lo, (8 - (parts_hi + parts_lo))%nat)
          | None =>
              if negb (length parts =? 8)%nat then None
              else if first_empty then None
              else if last_empty then None
              else Some (length parts, 0%nat, 0%nat)
          end;
        hi ← parse_hextets 0 (List.firstn parts_hi parts);
        parse_hextets (N.shiftl hi (16 * N.of_nat parts_skipped))
                      (List.skipn (length parts - parts_lo) parts).

(** [IPv6Address(address)] for a string *)
Definition IPv6Address (addr_str : string) : option N :=
  if contains_char "/" addr_str then None
  else
    '(addr, _) ← split_scope_id addr_str;
    ipv6_int_from_string addr.

Inductive ip := IPv4 (n : N) | IPv6 (n : N).

(** [ipaddress.ip_address(address)] for a string *)
Definition ip_address (address : string) : option ip :=
  match IPv4Address address with
  | Some n => Some (IPv4 n)
  | None => IPv6 <$> IPv6Address address
  end.

End Ipaddress.

(** ** [urllib.parse] *)

Module Urllib.
Import Py.

Record SplitResult := mkSplitResult {
  scheme : string;
  netloc : string;
  path : string;
  query : string;
  fragment : string
}.

Definition scheme_chars : string :=
  "abcdefghijklmnopqrstuvwxyzABCDEFGHIJKLMNOPQRSTUVWXYZ0123456789+-.".

Definition in_scheme_chars (c : ascii) : bool := contains_char c scheme_chars.

(** [_WHATWG_C0_CONTROL_OR_SPACE]: the code points 0 to 32 *)
Definition c0_control_or_space (c : ascii) : bool := (ord c <=? 32)%N.

(** [_UNSAFE_URL_BYTES_TO_REMOVE] *)
Definition unsafe_url_bytes_to_remove : list ascii :=
  ["009"; "013"; "010"]%char.

(** [_splitnetloc(url, start)] *)
Definition splitnetloc (url : string) (start : Z) : string * string :=
  let delim :=
    fold_left
      (fun delim c =>
         let wdelim := find_from c start url in
         if (0 <=? wdelim)%Z then Z.min delim wdelim else delim)
      ["/"; "?"; "#"]%char (len url) in
  (slice (Some start) (Some delim) url, slice (Some delim) None url).

(** The regular expression [\Av[a-fA-F0-9]+\..+\Z] of
    [_check_bracketed_host] *)
Definition ipvfuture_ok (hostname : string) : bool :=
  match hostname with
  | String "v" rest =>
      let tail := lstrip_by Ipaddress.is_hex_digit rest in
      negb (String.eqb tail rest)
      && match tail with
         | String "." after =>
             truthy after && negb (contains_char "010" after)
         | _ => false
         end
  | _ => false
  end.

(** [_check_bracketed_host(hostname)]: [false] when it raises *)
Definition check_bracketed_host (hostname : string) : bool :=
  if startswith "v" hostname then ipvfuture_ok hostname
  else match Ipaddress.ip_address hostname with
       | Some (Ipaddress.IPv6 _) => true
       | Some (Ipaddress.IPv4 _) => false
       | None => false
       end.

(** [_check_bracketed_netloc(netloc)]: [false] when it raises *)
Definition check_bracketed_netloc (netloc : string) : bool :=
  let hostname_and_port := after_last "@" netloc in
  let '(before_bracket, have_open_br, bracketed) :=
    partition "[" hostname_and_port in
  if have_open_br then
    if truthy before_bracket then false
    else
      let '(hostname, _, port) := partition "]" bracketed in
      if truthy port && negb (startswith ":" port) then false
      else check_bracketed_host hostname
  else
    let '(hostname, _, _) := partition ":" hostname_and_port in
    check_bracketed_host hostname.

(** [_checknetloc(netloc)]: [false] when it raises.  The check is
    skipped for an empty or all-ASCII [netloc]; otherwise it raises when
    the NFKC form of [netloc] differs from it and holds one of [/?#@:],
    which no character below 256 produces. *)
Definition checknetloc (netloc : string) : bool :=
  if negb (truthy netloc) || str_all isascii netloc then true
  else true.

(** [urlsplit(url)], with the default [scheme=''] and
    [allow_fragments=True]; [None] stands for [ValueError] *)
Definition urlsplit (url : string) : option SplitResult :=
  let url := lstrip_by c0_control_or_space url in
  let url := fold_left (fun u b => remove_char b u) unsafe_url_bytes_to_remove url in
  let i := find ":" url in
  let '(scheme, url) :=
    if (0 <? i)%Z
       && str_all isascii_alpha (slice (Some 0%Z) (Some 1%Z) url)
       && str_all in_scheme_chars (slice None (Some i) url)
    then (lower (slice None (Some i) url), slice (Some (i + 1)%Z) None url)
    else (EmptyString, url) in
  '(netloc, url) ←
    (if String.eqb (slice None (Some 2%Z) url) "//"
     then
       let '(netloc, url) := splitnetloc url 2 in
       if (contains_char "[" netloc && negb (contains_char "]" netloc))
          || (contains_char "]" netloc && negb (contains_char "[" netloc))
       then None
       else if contains_char "[" netloc && contains_char "]" netloc
       then if check_bracketed_netloc netloc then Some (netloc, url) else None
       else Some (netloc, url)
     else Some (EmptyString, url));
  let '(url, fragment) :=
    if contains_char "#" url
    then let '(a, _, b) := partition "#" url in (a, b)
    else (url, EmptyString) in
  let '(url, query) :=
    if contains_char "?" url
    then let '(a, _, b) := partition "?" url in (a, b)
    else (url, EmptyString) in
  if checknetloc netloc
  then Some (mkSplitResult scheme netloc url query fragment)
  else None.

Definition uses_netloc : list string :=
  [""; "ftp"; "http"; "gopher"; "nntp"; "telnet"; "imap"; "wais"; "file";
   "mms"; "https"; "shttp"; "snews"; "prospero"; "rtsp"; "rtspu"; "rsync";
   "svn"; "svn+ssh"; "sftp"; "nfs"; "git"; "git+ssh"; "ws"; "wss"].

(** [urlunsplit((scheme, netloc, url, query, fragment))] *)
Definition urlunsplit (c : SplitResult) : string :=
  let url := path c in
  let url :=
    if truthy (netloc c)
       || (truthy (scheme c)
           && bool_decide (scheme c ∈ uses_netloc)
           && negb (String.eqb (slice None (Some 2%Z) url) "//"))
    then
      let url :=
        if truthy url && negb (String.eqb (slice None (Some 1%Z) url) "/")
        then "/" +:+ url else url in
      "//" +:+ netloc c +:+ url
    else url in
  let url := if truthy (scheme c) then scheme c +:+ ":" +:+ url else url in
  let url := if truthy (query c) then url +:+ "?" +:+ query c else url in
  let url := if truthy (fragment c) then url +:+ "#" +:+ fragment c else url in
  url.

End Urllib.

(** ** [missing_servers_checker.py] *)

Module Checker.
Import Py Urllib.

Definition BASE_URL : string := "https://smithery.ai".

(** The regular expression [(\d+)\s*/\s*(\d+)] matched at the start of
    [s]: the two groups.  Every repetition is greedy and what follows it
    cannot start with a character of the repeated class, so the match,
    when there is one, takes the longest runs. *)
Definition match_indicator (s : string) : option (string * string) :=
  let g1 := take_while isascii_digit s in
  if truthy g1 then
    match lstrip_by isspace (drop (String.length g1) s) with
    | String "/" r =>
        let g2 := take_while isascii_digit (lstrip_by isspace r) in
        if truthy g2 then Some (g1, g2) else None
    | _ => None
    end
  else None.

(** [re.search]: the match at the leftmost position that has one *)
Fixpoint search_indicator (s : string) : option (string * string) :=
  match match_indicator s with
  | Some m => Some m
  | None =>
      match s with
      | EmptyString => None
      | String _ s' => search_indicator s'
      end
  end.

(** [int(digits)] for a string of ASCII digits: [inl] is the text of the
    [ValueError] raised beyond 4300 digits *)
Definition py_int (digits : string) : string + Z :=
  if (4300 <? String.length digits)%nat
  then inl ("Exceeds the limit (4300 digits) for integer string conversion: "
            +:+ "value has " +:+ str_of_nat (String.length digits)
            +:+ " digits; use sys.set_int_max_str_digits() "
            +:+ "to increase the limit")
  else inr (Z.of_N (int_of 10 digits)).

(** [parse_page_indicator(text)]: [inl] is the text of the exception
    raised *)
Definition parse_page_indicator (text : string) : string + option (Z * Z) :=
  match search_indicator text with
  | None => inr None
  | Some (g1, g2) =>
      match py_int g1 with
      | inl error => inl error
      | inr current =>
          match py_int g2 with
          | inl error => inl error
          | inr total => inr (Some (current, total))
          end
      end
  end.

(** [normalize_server_url(url)]; [None] when [urlsplit] raises *)
Definition normalize_server_url (url : string) : option string :=
  if negb (truthy url) then Some EmptyString
  else
    let url := strip url in
    let url := if startswith "/server/" url then BASE_URL +:+ url else url in
    parsed ← urlsplit url;
    let scheme := if truthy (scheme parsed) then scheme parsed else "https" in
    let netloc := if truthy (netloc parsed) then netloc parsed else "smithery.ai" in
    let path := rstrip_by (Ascii.eqb "/") (path parsed) in
    Some (urlunsplit (mkSplitResult scheme netloc path EmptyString EmptyString)).


(** A Python [set] of strings is a [gset string]; [sorted(s)] lists it
    in ascending order of code points. *)
Definition sorted (s : gset string) : list string :=
  merge_sort String.le (elements s).

(** The loop
    [for url in urls: normalized = normalize_server_url(url);
     if normalized: acc.add(normalized)] *)
Fixpoint add_normalized (urls : list string) (acc : gset string)
    : option (gset string) :=
  match urls with
  | [] => Some acc
  | url :: rest =>
      normalized ← normalize_server_url url;
      add_normalized rest
        (if truthy normalized then acc ∪ {[normalized]} else acc)
  end.

(** [find_missing_servers(scraped_urls, current_urls)] *)
Definition find_missing_servers (scraped_urls current_urls : list string)
    : option (list string) :=
  scraped_set ← add_normalized scraped_urls ∅;
  current_set ← add_normalized current_urls ∅;
  Some (sorted (current_set ∖ scraped_set)).

Record AuditReport := mkAuditReport {
  scraped_count : nat;
  current_count : nat;
  missing_count : nat;
  missing_urls : list string;
  errors : list (Z * string)
}.

(** [build_audit_report(scraped_urls, current_urls, errors)] *)
Definition build_audit_report (scraped_urls current_urls : list string)
    (errors : list (Z * string)) : option AuditReport :=
  missing ← find_missing_servers scraped_urls current_urls;
  Some (mkAuditReport
          (size (list_to_set scraped_urls : gset string))
          (size (list_to_set current_urls : gset string))
          (length missing) missing errors).

(** *** Listing discovery

    [_fetch_page_urls(page_num, delay_ms)] drives the browser; it is the
    listing source of the crawl and returns the page number, the set of
    normalized server URLs of that page, the detected total page count
    and an error text.  [as_completed] is the order in which the pool
    hands back the pages fetched in parallel. *)

Section Discovery.

Variable _fetch_page_urls : Z → Z → Z * gset string * option Z * option string.
Variable as_completed : list Z → list Z.

(** [bool(n)] for an optional integer *)
Definition truthy_int (n : option Z) : bool :=
  match n with
  | Some z => negb (z =? 0)%Z
  | None => false
  end.

(** The sequential [while True] loop of the fallback branch, started at
    [page]; [visited] lists the pages requested so far.  Every round
    fetches one page, so [fuel] bounds the number of requests. *)
Fixpoint crawl_sequentially (fuel : nat) (max_pages : option Z) (delay_ms : Z)
    (page : Z) (urls : gset string) (visited : list Z)
    : option (gset string * list Z) :=
  match fuel with
  | O => None
  | S fuel' =>
      let '(p_num, page_urls, _, _) := _fetch_page_urls page delay_ms in
      let visited := visited ++ [page] in
      if bool_decide (page_urls = ∅) then Some (urls, visited)
      else
        let urls := urls ∪ page_urls in
        let page := (page + 1)%Z in
        if truthy_int max_pages && (default 0 max_pages <? page)%Z
        then Some (urls, visited)
        else if (100 <? page)%Z then Some (urls, visited)
        else crawl_sequentially fuel' max_pages delay_ms page urls visited
  end.

(** [range(lo, hi)] *)
Definition range (lo hi : Z) : list Z :=
  map (fun k => (lo + Z.of_nat k)%Z) (seq 0 (Z.to_nat (hi - lo))).

(** [fetch_current_server_urls(max_pages, delay_ms, threads)]: the sorted
    URLs, together with the pages requested, in request order *)
Definition fetch_current_server_urls (max_pages : option Z)
    (delay_ms threads : Z) : option (list string * list Z) :=
  let urls : gset string := ∅ in
  let threads := Z.max 1 (Z.min threads 10) in
  let '(page_num, first_page_urls, detected_total, _) :=
    _fetch_page_urls 1 delay_ms in
  let urls := urls ∪ first_page_urls in
  let total_pages :=
    match max_pages with
    | Some m => Some m
    | None => if truthy_int detected_total then detected_total else None
    end in
  '(urls, visited) ←
    (if truthy_int total_pages && (1 <? default 0 total_pages)%Z
     then
       let pages_to_fetch := range 2 (default 0%Z total_pages + 1) in
       Some (foldl
               (fun urls page_num =>
                  let '(p_num, page_urls, _, _) :=
                    _fetch_page_urls page_num delay_ms in
                  urls ∪ page_urls)
               urls (as_completed pages_to_fetch),
             1%Z :: pages_to_fetch)
     else crawl_sequentially 99 max_pages delay_ms 2 urls [1%Z]);
  Some (sorted urls, visited).

(** [bool(err)] for an error text that may be [None] *)
Definition truthy_err (err : option string) : bool :=
  match err with
  | Some e => truthy e
  | None => false
  end.

(** [if err: errors.append({"page": p_num, "error": err})] *)
Definition append_error (errors : list (Z * string)) (p_num : Z)
    (err : option string) : list (Z * string) :=
  if truthy_err err then errors ++ [(p_num, default EmptyString err)]
  else errors.

(** The sequential [while True] loop of
    [fetch_current_server_urls_with_errors] *)
Fixpoint crawl_sequentially_with_errors (fuel : nat) (max_pages : option Z)
    (delay_ms : Z) (page : Z) (urls : gset string) (errors : list (Z * string))
    : option (gset string * list (Z * string)) :=
  match fuel with
  | O => None
  | S fuel' =>
      let '(p_num, page_urls, _, err) := _fetch_page_urls page delay_ms in
      if bool_decide (page_urls = ∅) then Some (urls, errors)
      else
        let urls := urls ∪ page_urls in
        let errors := append_error errors p_num err in
        let page := (page + 1)%Z in
        if truthy_int max_pages && (default 0 max_pages <? page)%Z
        then Some (urls, errors)
        else if (100 <? page)%Z
        then Some (urls, errors ++ [(page, "safety limit reached")])
        else crawl_sequentially_with_errors fuel' max_pages delay_ms page
               urls errors
  end.

(** [fetch_current_server_urls_with_errors(max_pages, delay_ms, threads)] *)
Definition fetch_current_server_urls_with_errors (max_pages : option Z)
    (delay_ms threads : Z) : option (list string * list (Z * string)) :=
  let errors : list (Z * string) := [] in
  let urls : gset string := ∅ in
  let threads := Z.max 1 (Z.min threads 10) in
  let '(page_num, first_page_urls, detected_total, error) :=
    _fetch_page_urls 1 delay_ms in
  let urls := urls ∪ first_page_urls in
  let errors := append_error errors page_num error in
  let total_pages :=
    match max_pages with
    | Some m => Some m
    | None => if truthy_int detected_total then detected_total else None
    end in
  '(urls, errors) ←
    (if truthy_int total_pages && (1 <? default 0 total_pages)%Z
     then
       let pages_to_fetch := range 2 (default 0%Z total_pages + 1) in
       Some (foldl
               (fun '(urls, errors) page_num =>
                  let '(p_num, page_urls, _, err) :=
                    _fetch_page_urls page_num delay_ms in
                  (urls ∪ page_urls, append_error errors p_num err))
               (urls, errors) (as_completed pages_to_fetch))
     else crawl_sequentially_with_errors 99 max_pages delay_ms 2 urls errors);
  Some (sorted urls, errors).

End Discovery.

(** *** One listing page *)

(** What the browser gives for a listing page: it fails to load, with
    the text of the exception, or it gives the text of the body and the
    [href] of every link [a[href*="/server/"]], an absent attribute
    being [None], and then the text of the exception of a later call,
    if one raises *)
Inductive page_load :=
| LoadFailed (error : string)
| Loaded (body_text : string) (hrefs : list (option string))
    (failure : option string).

Section FetchPage.

Variable render : Z → Z → page_load.

(** The text of the exception that the normalizer raises on a URL *)
Variable normalize_error : string → string.

(** The loop [for link in server_links]: the set [urls] as the loop
    leaves it, and the text of the exception when it raises *)
Fixpoint add_links (hrefs : list (option string)) (urls : gset string)
    : gset string * option string :=
  match hrefs with
  | [] => (urls, None)
  | href :: rest =>
      match href with
      | None => add_links rest urls
      | Some href =>
          if negb (truthy href) then add_links rest urls
          else if negb (startswith "/server/" href) || String.eqb href "/servers"
          then add_links rest urls
          else
            let href := match split_on "?" href with
                        | h :: _ => h
                        | [] => EmptyString
                        end in
            match normalize_server_url (BASE_URL +:+ href) with
            | None => (urls, Some (normalize_error (BASE_URL +:+ href)))
            | Some normalized =>
                add_links rest
                  (if truthy normalized then urls ∪ {[normalized]} else urls)
            end
      end
  end.

(** [_fetch_page_urls(page_num, delay_ms)] *)
Definition _fetch_page_urls (page_num delay_ms : Z)
    : Z * gset string * option Z * option string :=
  match render page_num delay_ms with
  | LoadFailed error => (page_num, ∅, None, Some error)
  | Loaded body_text hrefs failure =>
      match parse_page_indicator body_text with
      | inl error => (page_num, ∅, None, Some error)
      | inr page_info =>
          let detected_total_pages := snd <$> page_info in
          match add_links hrefs ∅ with
          | (urls, Some error) =>
              (page_num, urls, detected_total_pages, Some error)
          | (urls, None) => (page_num, urls, detected_total_pages, failure)
          end
      end
  end.

End FetchPage.

End Checker.

(** ** Python values

    The values that records hold and that a line of the JSONL log parses
    to.  A [dict] keeps its keys in insertion order. *)

#[local] Unset Elimination Schemes.
Inductive pyval : Type :=
| PNone
| PBool (b : bool)
| PInt (z : Z)
| PStr (s : string)
| PList (l : list pyval)
| PDict (d : list (string * pyval)).
#[local] Set Elimination Schemes.

Definition dict : Type := list (string * pyval).

Module Dict.

(** [d[k]]; [None] stands for [KeyError] *)
Fixpoint lookup (k : string) (d : dict) : option pyval :=
  match d with
  | [] => None
  | (k', v) :: rest => if String.eqb k k' then Some v else lookup k rest
  end.

(** [d.get(k, dflt)] *)
Definition get (d : dict) (k : string) (dflt : pyval) : pyval :=
  default dflt (lookup k d).

(** [d[k] = v]: an existing key keeps its place *)
Fixpoint set (k : string) (v : pyval) (d : dict) : dict :=
  match d with
  | [] => [(k, v)]
  | (k', v') :: rest =>
      if String.eqb k k' then (k, v) :: rest else (k', v') :: set k v rest
  end.

Definition keys (d : dict) : list string := map fst d.

End Dict.

(** [bool(v)] *)
Definition truthy_val (v : pyval) : bool :=
  match v with
  | PNone => false
  | PBool b => b
  | PInt z => negb (z =? 0)%Z
  | PStr s => Py.truthy s
  | PList l => match l with [] => false | _ :: _ => true end
  | PDict d => match d with [] => false | _ :: _ => true end
  end.

(** ** [missing_servers_checker.py]: reading the prior snapshot *)

Module Snapshot.
Import Py Checker.

(** [normalize_server_url(raw)] on a value that is true: a value that
    is not a string has no [strip], so the call raises *)
Definition normalize_value (raw : pyval) : option string :=
  match raw with
  | PStr url => normalize_server_url url
  | _ => None
  end.

(** The loop [for entry in data] *)
Fixpoint load_entries (data : list pyval) (urls : gset string)
    : option (gset string) :=
  match data with
  | [] => Some urls
  | entry :: rest =>
      match entry with
      | PDict d =>
          let raw := Dict.get d "server_url" PNone in
          if negb (truthy_val raw) then load_entries rest urls
          else
            normalized ← normalize_value raw;
            load_entries rest
              (if truthy normalized then urls ∪ {[normalized]} else urls)
      | _ => load_entries rest urls
      end
  end.

(** [load_scraped_server_urls(path)] on the value that [json.load]
    returns; [None] stands for the exception raised *)
Definition load_scraped_server_urls (data : pyval) : option (gset string) :=
  match data with
  | PList entries => load_entries entries ∅
  | _ => None
  end.

End Snapshot.

(** ** [smithery_scraper.py] *)

Module Scraper.
Import Py.

(** [isinstance(v, list)] and [isinstance(v, dict)] *)
Definition is_list (v : pyval) : bool :=
  match v with PList _ => true | _ => false end.

Definition is_dict (v : pyval) : bool :=
  match v with PDict _ => true | _ => false end.

(** The loop over [normalized["tools"]] of [normalize_server] *)
Fixpoint normalize_tools (tools : list pyval) (normalized_tools : list pyval)
    : list pyval :=
  match tools with
  | [] => normalized_tools
  | tool :: rest =>
      match tool with
      | PDict t =>
          let normalized_tool :=
            PDict [("name", Dict.get t "name" (PStr ""));
                   ("description", Dict.get t "description" (PStr ""));
                   ("inputSchema", Dict.get t "inputSchema" (PDict []))] in
          normalize_tools rest (normalized_tools ++ [normalized_tool])
      | _ => normalize_tools rest normalized_tools
      end
  end.

(** [normalize_server(server)] *)
Definition normalize_server (server : dict) : dict :=
  let normalized : dict :=
    [("server_name", Dict.get server "server_name" (PStr ""));
     ("server_url", Dict.get server "server_url" (PStr ""));
     ("connection_url", Dict.get server "connection_url" (PStr ""));
     ("homepage", Dict.get server "homepage" (PStr ""));
     ("source_code", Dict.get server "source_code" (PStr ""));
     ("authentication_method", Dict.get server "authentication_method" (PStr ""));
     ("description", Dict.get server "description" (PStr ""));
     ("total_tools", Dict.get server "total_tools" (PInt 0));
     ("tools", Dict.get server "tools" (PList []))] in
  let normalized :=
    if negb (is_list (Dict.get normalized "tools" PNone))
    then Dict.set "tools" (PList []) normalized
    else normalized in
  let normalized_tools :=
    match Dict.get normalized "tools" PNone with
    | PList tools => normalize_tools tools []
    | _ => []
    end in
  let normalized := Dict.set "tools" (PList normalized_tools) normalized in
  let normalized :=
    Dict.set "total_tools" (PInt (Z.of_nat (length normalized_tools))) normalized in
  normalized.

(** *** The parameter parser *)

Definition section_markers : list string :=
  ["Connect"; "Details"; "Resources"; "Company"; "Capabilities";
   "Get connection URL"; "Or add to your client"].

Definition type_keywords : list string :=
  ["string"; "integer"; "boolean"; "object"; "array"; "number"].

Record parse_state := mkParseState {
  parameters : dict;
  required_params : list string;
  current_param : option string;
  param_type : option string;
  param_desc : list string;
  desc_line_count : Z
}.

(** [bool(v)] for a variable that is [None] or a string *)
Definition truthy_opt (v : option string) : bool :=
  match v with
  | Some s => truthy s
  | None => false
  end.

(** [line[0].islower()] *)
Definition first_islower (line : string) : bool :=
  match line with
  | String c _ => islower_char c
  | EmptyString => false
  end.

Definition looks_like_param_name (line : string) : bool :=
  let word_count := length (split_ws line) in
  truthy line
  && (len line <? 50)%Z
  && (word_count <=? 2)%nat
  && (first_islower line || contains "*required" line)
  && (contains "*required" line
      || negb (contains_char " " line)
      || (count_char " " line =? 0)%nat).

(** The block guarded by [if current_param and param_type:], which
    stores the pending parameter *)
Definition save_parameter (st : parse_state) : parse_state :=
  if truthy_opt (current_param st) && truthy_opt (param_type st) then
    let current := default EmptyString (current_param st) in
    let param_name_clean := strip (remove_sub "*required" current) in
    let entry :=
      PDict [("type", PStr (default EmptyString (param_type st)));
             ("description", PStr (strip (join " " (param_desc st))))] in
    mkParseState
      (Dict.set param_name_clean entry (parameters st))
      (if contains "*required" current
       then required_params st ++ [param_name_clean]
       else required_params st)
      (current_param st) (param_type st) (param_desc st)
      (desc_line_count st)
  else st.

(** The [for line in lines] loop; returning the state without a
    recursive call is [break] *)
Fixpoint scan_lines (lines : list string) (st : parse_state) : parse_state :=
  match lines with
  | [] => st
  | line :: rest =>
      let line := strip line in
      if negb (truthy line) then scan_lines rest st
      else if bool_decide (line ∈ section_markers) then st
      else if isupper line && contains_char "_" line && (15 <? len line)%Z
      then st
      else if bool_decide (line ∈ type_keywords) then
        scan_lines rest
          (if truthy_opt (current_param st) && negb (truthy_opt (param_type st))
           then mkParseState (parameters st) (required_params st)
                  (current_param st) (Some line) (param_desc st) 0
           else st)
      else if looks_like_param_name line then
        let st := save_parameter st in
        scan_lines rest
          (mkParseState (parameters st) (required_params st)
             (Some line) None [] 0)
      else if truthy_opt (current_param st) && truthy_opt (param_type st)
              && truthy line
      then
        scan_lines rest
          (mkParseState (parameters st) (required_params st)
             (current_param st) (param_type st)
             (param_desc st ++ [line]) (desc_line_count st + 1))
      else scan_lines rest st
  end.

(** [parse_parameters_from_text(text, start_pos)] *)
Definition parse_parameters_from_text (text : string) (start_pos : Z)
    : dict * list string :=
  let lines := split_on "010" (slice (Some start_pos) None text) in
  let st := scan_lines lines (mkParseState [] [] None None [] 0) in
  let st := save_parameter st in
  (parameters st, required_params st).

(** *** One tool, after its element was clicked *)

(** The loop [for i, line in enumerate(lines)] that gathers the
    description of the tool *)
Fixpoint description_scan (lines : list string) (tool_name : string)
    (found_tool : bool) (desc_lines : list string) : list string :=
  match lines with
  | [] => desc_lines
  | line :: rest =>
      let line_stripped := strip line in
      if contains tool_name line_stripped
      then description_scan rest tool_name true desc_lines
      else if found_tool then
        if bool_decide (line_stripped ∈ ["Parameters"; "Connect"; "Details"])
        then desc_lines
        else
          let desc_lines :=
            if truthy line_stripped && (30 <? len line_stripped)%Z
            then desc_lines ++ [line_stripped] else desc_lines in
          if (3 <=? length desc_lines)%nat then desc_lines
          else description_scan rest tool_name found_tool desc_lines
      else description_scan rest tool_name found_tool desc_lines
  end.

(** [extract_tool_with_params(page, tool_name)], on the text of the
    page body *)
Definition extract_tool_with_params (body_text tool_name : string) : dict :=
  let lines := split_on "010" body_text in
  let desc_lines := description_scan lines tool_name false [] in
  let description := strip (join " " desc_lines) in
  let '(parameters, required_params) :=
    if contains "Parameters" body_text then
      let param_start := find_sub "Parameters" body_text in
      parse_parameters_from_text body_text (param_start + len "Parameters")
    else ([], []) in
  let input_schema : dict :=
    [("type", PStr "object"); ("properties", PDict parameters)] in
  let input_schema :=
    match required_params with
    | [] => input_schema
    | _ :: _ =>
        Dict.set "required" (PList (PStr <$> required_params)) input_schema
    end in
  [("name", PStr tool_name); ("description", PStr description);
   ("inputSchema", PDict input_schema)].

(** *** The fallback that reads the tools off the page text *)

(** [line[0].isupper()] *)
Definition first_isupper (line : string) : bool :=
  match line with
  | String c _ => isupper_char c
  | EmptyString => false
  end.

(** [lines.index("Tools")]: the lines after the first line ["Tools"];
    [None] stands for [ValueError] *)
Fixpoint after_tools_header (lines : list string) : option (list string) :=
  match lines with
  | [] => None
  | line :: rest =>
      if String.eqb line "Tools" then Some rest else after_tools_header rest
  end.

(** The loop that skips the count and the pagination lines *)
Fixpoint skip_counts (lines : list string) : list string :=
  match lines with
  | [] => []
  | line :: rest =>
      if isdigit line || contains_char "/" line then skip_counts rest
      else lines
  end.

(** The tool that the fallback appends *)
Definition fallback_tool (name description : string) : pyval :=
  PDict [("name", PStr name); ("description", PStr description);
         ("inputSchema",
          PDict [("type", PStr "object"); ("properties", PDict [])])].

(** The two nested [while i < len(lines)] loops: [lines] is what is
    left from index [i] on.  The inner loop gathers the description
    lines of the tool [name] and hands what is left back to the outer
    loop. *)
Fixpoint tools_loop (lines : list string) (tools : list pyval) {struct lines}
    : list pyval :=
  match lines with
  | [] => tools
  | l :: rest =>
      let line := strip l in
      if negb (truthy line) then tools_loop rest tools
      else if bool_decide
                (line ∈ ["Connect"; "Details"; "Company"; "Capabilities"])
      then tools
      else if bool_decide (line ∈ ["Resources"; "Prompts"]) then
        match rest with
        | n :: rest' =>
            if isdigit n then tools_loop rest' tools
            else tools_loop rest tools
        | [] => tools_loop rest tools
        end
      else
        let name := line in
        (fix description_loop (lines : list string) (desc_lines : list string)
             {struct lines} : list pyval :=
           match lines with
           | [] =>
               tools ++ [fallback_tool name (strip (join " " desc_lines))]
           | d :: rest' =>
               let desc_line := strip d in
               if negb (truthy desc_line)
               then description_loop rest' desc_lines
               else if bool_decide
                         (desc_line ∈ ["Connect"; "Details"; "Resources";
                                       "Company"; "Capabilities"; "Prompts"])
                       || (isupper desc_line && contains_char "_" desc_line)
                       || ((length (split_ws desc_line) <=? 6)%nat
                           && first_isupper desc_line)
               then
                 tools_loop lines
                   (tools ++ [fallback_tool name (strip (join " " desc_lines))])
               else description_loop rest' (desc_lines ++ [desc_line])
           end) rest []
  end.

(** [parse_tools_from_text(body_text)] *)
Definition parse_tools_from_text (body_text : string) : list pyval :=
  let tools : list pyval := [] in
  let lines := strip <$> split_on "010" body_text in
  match after_tools_header lines with
  | None => tools
  | Some rest => tools_loop (skip_counts rest) tools
  end.

(** *** Outcome statistics *)

Record Stats := mkStats {
  total_servers : Z;
  scraped : Z;
  success : Z;
  partial : Z;
  failed : Z;
  total_tools : Z
}.

(** [len(v)]; [None] stands for [TypeError] *)
Definition py_len (v : pyval) : option Z :=
  match v with
  | PList l => Some (Z.of_nat (length l))
  | PDict d => Some (Z.of_nat (length d))
  | PStr s => Some (len s)
  | _ => None
  end.

(** [n == v] for an integer [n] *)
Definition int_eq (n : Z) (v : pyval) : bool :=
  match v with
  | PInt z => (n =? z)%Z
  | PBool b => (n =? (if b then 1 else 0))%Z
  | _ => false
  end.

(** [v > 0]; [None] stands for [TypeError] *)
Definition gt_zero (v : pyval) : option bool :=
  match v with
  | PInt z => Some (0 <? z)%Z
  | PBool b => Some b
  | _ => None
  end.

Inductive Outcome := SUCCESS | PARTIAL | FAILED.

(** The chain
    [if tools_count == expected and expected > 0: ... elif tools_count > 0:
     ... else: ...] *)
Definition outcome_of (tools_count : Z) (expected : pyval) : option Outcome :=
  is_success ←
    (if int_eq tools_count expected then gt_zero expected else Some false);
  Some (if is_success : bool then SUCCESS
        else if (0 <? tools_count)%Z then PARTIAL
        else FAILED).

(** The statistics update of [scrape_single_server_with_browser], run
    on the normalized record under [stats_lock] *)
Definition update_stats (stats : Stats) (server_data : dict) : option Stats :=
  let scraped' := (scraped stats + 1)%Z in
  tools_count ← py_len (Dict.get server_data "tools" (PList []));
  let expected_tools := Dict.get server_data "total_tools" (PInt 0) in
  let total_tools' := (total_tools stats + tools_count)%Z in
  o ← outcome_of tools_count expected_tools;
  Some (match o with
        | SUCCESS =>
            mkStats (total_servers stats) scraped' (success stats + 1)
              (partial stats) (failed stats) total_tools'
        | PARTIAL =>
            mkStats (total_servers stats) scraped' (success stats)
              (partial stats + 1) (failed stats) total_tools'
        | FAILED =>
            mkStats (total_servers stats) scraped' (success stats)
              (partial stats) (failed stats + 1) total_tools'
        end).

(** The part of [scrape_single_server_with_browser] that follows a
    successful [scrape_server_page]: the record is normalized, then
    counted *)
Definition count_scraped (stats : Stats) (server_data : dict)
    : option (Stats * dict) :=
  let server_data := normalize_server server_data in
  stats ← update_stats stats server_data;
  Some (stats, server_data).

(** *** Writing the final artifact *)

Section SaveToJson.

(** [json.loads(line)]; [None] stands for [json.JSONDecodeError] *)
Variable json_loads : string → option pyval.

(** The loop over the lines of the JSONL file *)
Fixpoint load_jsonl (lines : list string) (servers_from_jsonl : list pyval)
    : list pyval :=
  match lines with
  | [] => servers_from_jsonl
  | line :: rest =>
      let line := strip line in
      if truthy line then
        match json_loads line with
        | Some server_data => load_jsonl rest (servers_from_jsonl ++ [server_data])
        | None => load_jsonl rest servers_from_jsonl
        end
      else load_jsonl rest servers_from_jsonl
  end.

(** A value can be a member of a [set] when it is hashable *)
Definition hashable (v : pyval) : bool :=
  match v with
  | PList _ | PDict _ => false
  | _ => true
  end.

(** [a == b] on hashable values; [True == 1] and [False == 0] *)
Definition py_eq (a b : pyval) : bool :=
  match a, b with
  | PNone, PNone => true
  | PStr s, PStr t => String.eqb s t
  | PInt z, _ => int_eq z b
  | PBool c, _ => int_eq (if c then 1 else 0) b
  | _, _ => false
  end.

(** [v['server_url']], made ready for a set: [None] stands for the
    [TypeError] of a value that is not a dict or of an unhashable URL,
    and for [KeyError] *)
Definition server_url_key (v : pyval) : option pyval :=
  match v with
  | PDict d =>
      u ← Dict.lookup "server_url" d;
      if hashable u then Some u else None
  | _ => None
  end.

(** [u in existing_urls] *)
Definition url_in (u : pyval) (existing_urls : list pyval) : bool :=
  existsb (py_eq u) existing_urls.

(** The loop [for server in servers_from_jsonl] that appends to
    [self.servers_data] *)
Fixpoint merge_jsonl (existing_urls : list pyval)
    (servers_from_jsonl : list pyval) (servers_data : list dict)
    : option (list dict) :=
  match servers_from_jsonl with
  | [] => Some servers_data
  | server :: rest =>
      u ← server_url_key server;
      match server with
      | PDict d =>
          merge_jsonl existing_urls rest
            (if negb (url_in u existing_urls)
             then servers_data ++ [d] else servers_data)
      | _ => None
      end
  end.

Record SmitheryScraper := mkScraper {
  servers_data : list dict;
  incremental_save : bool;
  stats : Stats
}.

(** [save_to_json()]: [jsonl] holds the lines of [self.jsonl_file] when
    that file exists.  The result is the scraper with its
    [servers_data] after the merge, and the list written to the output
    file. *)
Definition save_to_json (self : SmitheryScraper) (jsonl : option (list string))
    : option (SmitheryScraper * list dict) :=
  servers_data ←
    match jsonl with
    | Some lines =>
        if incremental_save self then
          let servers_from_jsonl := load_jsonl lines [] in
          existing_urls ←
            mapM (fun s => server_url_key (PDict s)) (servers_data self);
          merge_jsonl existing_urls servers_from_jsonl (servers_data self)
        else Some (servers_data self)
    | None => Some (servers_data self)
    end;
  let normalized_servers := map normalize_server servers_data in
  Some (mkScraper servers_data (incremental_save self) (stats self),
        normalized_servers).

End SaveToJson.

(** *** Scraping one server, with retries *)

(** [bool(d)] for a dict *)
Definition truthy_dict (d : dict) : bool :=
  match d with
  | [] => false
  | _ :: _ => true
  end.

Definition is_str (v : pyval) : bool :=
  match v with PStr _ => true | _ => false end.

(** What lies outside the scraper object: the number of calls of
    [scrape_server_page] made so far, the records appended to the JSONL
    file, and the waits of [time.sleep], in seconds.  The file system
    is taken not to fail. *)
Record World := mkWorld {
  calls : nat;
  jsonl_records : list dict;
  sleeps : list Z
}.

(** [save_server_incrementally(server_data)] *)
Definition save_server_incrementally (self : SmitheryScraper)
    (server_data : dict) (w : World) : World :=
  if negb (incremental_save self) then w
  else mkWorld (calls w) (jsonl_records w ++ [server_data]) (sleeps w).

Definition with_stats (self : SmitheryScraper) (stats : Stats)
    : SmitheryScraper :=
  mkScraper (servers_data self) (incremental_save self) stats.

(** [self.servers_data.append(server_data)] *)
Definition append_server (self : SmitheryScraper) (server_data : dict)
    : SmitheryScraper :=
  mkScraper (servers_data self ++ [server_data]) (incremental_save self)
    (stats self).

(** [self.stats['scraped'] += 1; self.stats['failed'] += 1] *)
Definition count_failed (stats : Stats) : Stats :=
  mkStats (total_servers stats) (scraped stats + 1) (success stats)
    (partial stats) (failed stats + 1) (total_tools stats).

(** The statistics that the update leaves behind when it raises: the
    increment of [scraped] comes before [len], and that of
    [total_tools] before the comparison with [expected_tools] *)
Definition update_stats_raised (stats : Stats) (server_data : dict) : Stats :=
  match py_len (Dict.get server_data "tools" (PList [])) with
  | Some tools_count =>
      mkStats (total_servers stats) (scraped stats + 1) (success stats)
        (partial stats) (failed stats) (total_tools stats + tools_count)
  | None =>
      mkStats (total_servers stats) (scraped stats + 1) (success stats)
        (partial stats) (failed stats) (total_tools stats)
  end.

Section Scraping.

(** [scrape_server_page(page, url)] drives the browser: the result of
    its [n]-th call, [None] when it raises *)
Variable scrape_server_page : nat → string → option dict.

(** The hrefs of the links [a[href*="/server/"]] of a listing page, an
    attribute that is absent being [None]; [None] when [page.goto]
    raises *)
Variable listing : Z → option (list (option string)).

(** The order in which [as_completed] hands back the futures of the
    pool, a future being numbered by the place of its URL among those
    submitted *)
Variable as_completed : list nat → list nat.

(** The order in which the tasks of the pool take their steps: the
    number of the task that takes each step *)
Variable schedule : list nat.

Definition call_scrape_server_page (w : World) (url : string)
    : option dict * World :=
  (scrape_server_page (calls w) url,
   mkWorld (S (calls w)) (jsonl_records w) (sleeps w)).

(** The body of the [try] of one attempt: [inl] is the state in which it
    raised, [inr] the state in which it returned, with the value *)
Definition attempt_once (self : SmitheryScraper) (w : World)
    (server_url : string)
    : (SmitheryScraper * World) + (SmitheryScraper * World * dict) :=
  let '(r, w) := call_scrape_server_page w server_url in
  match r with
  | None => inl (self, w)
  | Some server_data =>
      if truthy_dict server_data then
        let server_data := normalize_server server_data in
        match update_stats (stats self) server_data with
        | Some stats =>
            let self := with_stats self stats in
            inr (self, save_server_incrementally self server_data w,
                 server_data)
        | None =>
            inl (with_stats self (update_stats_raised (stats self) server_data),
                 w)
        end
      else inr (self, w, server_data)
  end.

(** The loop [for attempt in range(max_retries)] *)
Fixpoint retry_attempts (attempts : list Z) (max_retries : Z)
    (server_url : string) (self : SmitheryScraper) (w : World)
    : SmitheryScraper * World * option dict :=
  match attempts with
  | [] => (self, w, None)
  | attempt :: rest =>
      match attempt_once self w server_url with
      | inr (self, w, server_data) => (self, w, Some server_data)
      | inl (self, w) =>
          if (attempt <? max_retries - 1)%Z then
            let wait_time := ((attempt + 1) * 2)%Z in
            retry_attempts rest max_retries server_url self
              (mkWorld (calls w) (jsonl_records w) (sleeps w ++ [wait_time]))
          else (with_stats self (count_failed (stats self)), w, None)
      end
  end.

(** [scrape_single_server_with_browser(server_url, max_retries)]: the
    scraper and the world after the call, and the value returned *)
Definition scrape_single_server_with_browser (self : SmitheryScraper)
    (w : World) (server_url : string) (max_retries : Z)
    : SmitheryScraper * World * option dict :=
  retry_attempts (Checker.range 0 max_retries) max_retries server_url self w.

(** *** Scraping all servers *)

Definition base_url : string := "https://smithery.ai".

(** The loop over [server_links] that fills [page_server_urls] *)
Fixpoint page_server_urls (server_links : list (option string))
    (acc : gset string) : gset string :=
  match server_links with
  | [] => acc
  | href :: rest =>
      page_server_urls rest
        (match href with
         | Some href =>
             if truthy href && startswith "/server/" href
                && negb (String.eqb href "/servers")
             then
               let href := match split_on "?" href with
                           | h :: _ => h
                           | [] => EmptyString
                           end in
               acc ∪ {[base_url +:+ href]}
             else acc
         | None => acc
         end)
  end.

(** [l[:hi]] *)
Definition list_slice_to {A} (l : list A) (hi : Z) : list A :=
  let n := Z.of_nat (length l) in
  firstn (Z.to_nat (if (hi <? 0)%Z then Z.max (hi + n) 0 else Z.min hi n)) l.

(** The loop [while True] that collects the server URLs; [visited]
    lists the listing pages requested.  Every round requests one page,
    so [fuel] bounds the number of requests. *)
Fixpoint collect_urls (fuel : nat) (page_num : Z) (scrape_single_page : bool)
    (max_servers : option Z) (all_server_urls : list string)
    (visited : list Z) : option (list string * list Z) :=
  match fuel with
  | O => None
  | S fuel' =>
      let visited := visited ++ [page_num] in
      match listing page_num with
      | None => Some (all_server_urls, visited)
      | Some [] => Some (all_server_urls, visited)
      | Some server_links =>
          let all_server_urls :=
            all_server_urls ++ Checker.sorted (page_server_urls server_links ∅) in
          if Checker.truthy_int max_servers
             && (default 0%Z max_servers
                 <=? Z.of_nat (length all_server_urls))%Z
          then Some (list_slice_to all_server_urls (default 0%Z max_servers),
                     visited)
          else if scrape_single_page then Some (all_server_urls, visited)
          else
            let page_num := (page_num + 1)%Z in
            if (100 <? page_num)%Z then Some (all_server_urls, visited)
            else collect_urls fuel' page_num scrape_single_page max_servers
                   all_server_urls visited
      end
  end.

(** *** The pool of workers

    In pool mode every URL is a task that runs
    [scrape_single_server_with_browser(url)] on a worker thread.  The
    tasks share the statistics, updated under [stats_lock], and the
    JSONL file, written under [file_write_lock]; a step of a task is
    one call of [scrape_server_page], one access to what is shared, or
    one wait, and the steps of different tasks interleave. *)

(** Where a task stands: waiting in the queue of the pool; at the head
    of the loop [for attempt in range(max_retries)], with the attempts
    that are left; holding a normalized record that it is about to
    count; about to write that record to the JSONL file; in the
    [except] clause of an attempt; or done, with the value returned *)
Inductive task :=
| Queued
| Trying (attempts : list Z)
| Counting (attempt : Z) (attempts : list Z) (server_data : dict)
| Saving (server_data : dict)
| Raised (attempt : Z) (attempts : list Z)
| Returned (result : option dict).

(** One step of a task that runs
    [scrape_single_server_with_browser(server_url, max_retries)] *)
Definition task_step (max_retries : Z) (server_url : string) (t : task)
    (self : SmitheryScraper) (w : World) : task * SmitheryScraper * World :=
  match t with
  | Queued => (Trying (Checker.range 0 max_retries), self, w)
  | Trying [] => (Returned None, self, w)
  | Trying (attempt :: attempts) =>
      let '(r, w) := call_scrape_server_page w server_url in
      match r with
      | None => (Raised attempt attempts, self, w)
      | Some server_data =>
          if truthy_dict server_data
          then (Counting attempt attempts (normalize_server server_data),
                self, w)
          else (Returned (Some server_data), self, w)
      end
  | Counting attempt attempts server_data =>
      match update_stats (stats self) server_data with
      | Some stats => (Saving server_data, with_stats self stats, w)
      | None =>
          (Raised attempt attempts,
           with_stats self (update_stats_raised (stats self) server_data), w)
      end
  | Saving server_data =>
      (Returned (Some server_data), self,
       save_server_incrementally self server_data w)
  | Raised attempt attempts =>
      if (attempt <? max_retries - 1)%Z then
        let wait_time := ((attempt + 1) * 2)%Z in
        (Trying attempts, self,
         mkWorld (calls w) (jsonl_records w) (sleeps w ++ [wait_time]))
      else (Returned None, with_stats self (count_failed (stats self)), w)
  | Returned result => (t, self, w)
  end.

(** The same step, on the task with the scraper and the world *)
Definition run_step (max_retries : Z) (server_url : string)
    (state : task * SmitheryScraper * World) : task * SmitheryScraper * World :=
  task_step max_retries server_url state.1.1 state.1.2 state.2.

Definition queued (t : task) : bool :=
  match t with Queued => true | _ => false end.

(** A task that a worker has taken and that has not returned *)
Definition running (t : task) : bool :=
  match t with Queued | Returned _ => false | _ => true end.

(** Whether task [i] may take a step: a worker takes a task from the
    queue when the tasks submitted before it were taken and fewer than
    [max_workers] tasks are running *)
Definition may_step (max_workers : Z) (tasks : list task) (i : nat) : bool :=
  match tasks !! i with
  | Some Queued =>
      forallb (fun t => negb (queued t)) (firstn i tasks)
      && (Z.of_nat (length (List.filter running tasks)) <? max_workers)%Z
  | Some _ => true
  | None => false
  end.

(** Task [i] takes a step, if it may *)
Definition pool_step (urls : list string) (max_workers : Z)
    (state : list task * SmitheryScraper * World) (i : nat)
    : list task * SmitheryScraper * World :=
  let '(tasks, self, w) := state in
  match tasks !! i, urls !! i with
  | Some t, Some url =>
      if may_step max_workers tasks i then
        let '(t, self, w) := task_step 3 url t self w in
        (<[i := t]> tasks, self, w)
      else state
  | _, _ => state
  end.

(** A bound on the number of steps that a task still takes *)
Definition steps_left (max_retries : Z) (t : task) : nat :=
  match t with
  | Queued => 3 * length (Checker.range 0 max_retries) + 2
  | Trying attempts => 3 * length attempts + 1
  | Counting _ attempts _ => 3 * length attempts + 3
  | Saving _ => 1
  | Raised _ attempts => 3 * length attempts + 2
  | Returned _ => 0
  end.

(** Task [i] takes the steps that it has left, one after the other *)
Definition finish_task (urls : list string) (max_workers : Z)
    (state : list task * SmitheryScraper * World) (i : nat)
    : list task * SmitheryScraper * World :=
  Nat.iter (default 0 (steps_left 3 <$> state.1.1 !! i))
    (fun state => pool_step urls max_workers state i) state.

(** The pool at work on [urls]: the tasks take their steps as
    [schedule] has it.  The [with] block of the executor is left when
    every task has returned: a schedule that lists the steps of a whole
    run leaves nothing to do, and the tasks that a shorter one leaves
    unfinished take their remaining steps after it, in the order of
    submission *)
Definition run_pool (urls : list string) (max_workers : Z)
    (self : SmitheryScraper) (w : World)
    : list task * SmitheryScraper * World :=
  let state :=
    foldl (pool_step urls max_workers)
      (replicate (length urls) Queued, self, w) schedule in
  foldl (finish_task urls max_workers) state (seq 0 (length urls)).

(** One round of the loop [for future in as_completed(future_to_url)]
    of the main thread.  It appends to [servers_data], which no task
    reads or writes, so that these rounds are taken after the steps of
    the tasks. *)
Definition collect_result (tasks : list task) (self : SmitheryScraper)
    (i : nat) : SmitheryScraper :=
  match tasks !! i with
  | Some (Returned (Some server_data)) =>
      if truthy_dict server_data then append_server self server_data
      else self
  | _ => self
  end.

(** One round of the single-threaded loop over [all_server_urls] *)
Definition scrape_in_turn (state : SmitheryScraper * World)
    (server_url : string) : SmitheryScraper * World :=
  let '(self, w) := state in
  let '(r, w) := call_scrape_server_page w server_url in
  match r with
  | None => (with_stats self (count_failed (stats self)), w)
  | Some server_data =>
      if truthy_dict server_data then
        let server_data := normalize_server server_data in
        let self := append_server self server_data in
        match update_stats (stats self) server_data with
        | Some stats =>
            let self := with_stats self stats in
            let w := save_server_incrementally self server_data w in
            (* the progress line slices and pads [server_data['server_name']],
               which raises unless it is a string *)
            if is_str (Dict.get server_data "server_name" PNone)
            then (self, w)
            else (with_stats self (count_failed (Scraper.stats self)), w)
        | None =>
            (with_stats self
               (count_failed (update_stats_raised (stats self) server_data)),
             w)
        end
      else (self, w)
  end.

(** [scrape_all_servers(max_pages, max_servers, num_threads)]: the
    scraper and the world after the call, with the listing pages
    requested *)
Definition scrape_all_servers (self : SmitheryScraper) (w : World)
    (max_pages max_servers : option Z) (num_threads : Z)
    : option (SmitheryScraper * World * list Z) :=
  let '(page_num, scrape_single_page) :=
    if Checker.truthy_int max_pages then (default 0%Z max_pages, true)
    else (1%Z, false) in
  '(all_server_urls, visited) ←
    collect_urls 100 page_num scrape_single_page max_servers [] [];
  let self :=
    with_stats self
      (mkStats (Z.of_nat (length all_server_urls)) (scraped (stats self))
         (success (stats self)) (partial (stats self)) (failed (stats self))
         (total_tools (stats self))) in
  let '(self, w) :=
    if (1 <? num_threads)%Z
    then
      let '(tasks, self, w) := run_pool all_server_urls num_threads self w in
      (foldl (collect_result tasks) self
         (as_completed (seq 0 (length all_server_urls))), w)
    else foldl scrape_in_turn (self, w) all_server_urls in
  Some (self, w, visited).

End Scraping.


End Scraper.

(** ** [rescrape_missing_servers.py] *)

Module Rescrape.
Import Scraper.

(** [classify(server_data)] *)
Definition classify (server_data : dict) : option Outcome :=
  tools_count ← py_len (Dict.get server_data "tools" (PList []));
  let expected := Dict.get server_data "total_tools" (PInt 0) in
  outcome_of tools_count expected.

(** *** Loading the URL list *)

Section LoadUrls.

(** [str(v)] for a value that is not a string *)
Variable py_str : pyval → string.

Definition str_of (v : pyval) : string :=
  match v with
  | PStr s => s
  | _ => py_str v
  end.

(** The loop [for item in data] that fills [urls] *)
Fixpoint collect_items (data : list pyval) (urls : list string)
    : list string :=
  match data with
  | [] => urls
  | item :: rest =>
      collect_items rest
        (match item with
         | PStr s =>
             if Py.truthy (Py.strip s) then urls ++ [Py.strip s] else urls
         | PDict d =>
             let v := Dict.get d "server_url" PNone in
             if truthy_val v then urls ++ [Py.strip (str_of v)] else urls
         | _ => urls
         end)
  end.

(** The loop [for url in urls] that drops the duplicates *)
Fixpoint drop_seen (urls : list string) (seen : gset string)
    (uniq : list string) : list string :=
  match urls with
  | [] => uniq
  | url :: rest =>
      if bool_decide (url ∈ seen) then drop_seen rest seen uniq
      else drop_seen rest (seen ∪ {[url]}) (uniq ++ [url])
  end.

(** [load_urls(path)] on the value that [json.load] returns; [None]
    stands for [ValueError] *)
Definition load_urls (data : pyval) : option (list string) :=
  match data with
  | PList items => Some (drop_seen (collect_items items []) ∅ [])
  | _ => None
  end.

End LoadUrls.

End Rescrape.

(** ** [rescrape_problematic_servers.py] *)

Module Problematic.
Import Scraper.

(** The chain [if actual_tools == expected_tools: ... elif actual_tools
    > 0: ... else: ...] of [rescrape_server] *)
Definition status (actual_tools : Z) (expected_tools : pyval) : Outcome :=
  if int_eq actual_tools expected_tools then SUCCESS
  else if (0 <? actual_tools)%Z then PARTIAL
  else FAILED.

End Problematic.

(** ** Example inputs and invariants used in the properties *)

(** One tool as [scrape_tools_with_params] returns it *)
Definition example_tool (name : string) : pyval :=
  PDict [("name", PStr name); ("description", PStr "");
         ("inputSchema",
          PDict [("type", PStr "object"); ("properties", PDict [])])].

(** The record that [scrape_server_page] builds for a page that
    declares five tools and on which two tools were extracted *)
Definition declared_five_found_two : dict :=
  [("server_name", PStr "Demo");
   ("server_url", PStr "https://smithery.ai/server/demo");
   ("connection_url", PStr "https://server.smithery.ai/demo/mcp");
   ("homepage", PStr ""); ("source_code", PStr "");
   ("authentication_method", PStr "OAuth"); ("description", PStr "");
   ("total_tools", PInt 5);
   ("tools", PList [example_tool "search"; example_tool "fetch"])].

(** A server page that loads at once and gives that record *)
Definition declared_five_page (n : nat) (url : string) : option dict :=
  Some declared_five_found_two.


Definition LF : string := String "010" EmptyString.

(** The text of the parser example of the specification *)
Definition example_parameters_text : string :=
  "paramA*required" +:+ LF +:+ "string" +:+ LF +:+ "Does X" +:+ LF +:+ LF
  +:+ "paramB" +:+ LF +:+ "integer" +:+ LF +:+ "Does Y" +:+ LF.

(** An entry of the parameter mapping: a type token and a description *)
Definition entry_ok (v : pyval) : Prop :=
  ∃ t d : string,
    v = PDict [("type", PStr t); ("description", PStr d)]
    ∧ t ∈ Scraper.type_keywords.

(** What the scan keeps true of its state *)
Definition state_ok (st : Scraper.parse_state) : Prop :=
  (∀ (name : string) (v : pyval),
     (name, v) ∈ Scraper.parameters st → entry_ok v)
  ∧ (∀ name : string,
       name ∈ Scraper.required_params st →
       name ∈ Dict.keys (Scraper.parameters st))
  ∧ (∀ t : string,
       Scraper.param_type st = Some t → t ∈ Scraper.type_keywords).

(** The number of entries of the mapping, counting a pending type *)
Definition typed_count (st : Scraper.parse_state) : nat :=
  length (Scraper.parameters st)
  + (if Scraper.truthy_opt (Scraper.param_type st) then 1 else 0).

(** The number of lines that are a type token *)
Definition type_lines (lines : list string) : nat :=
  length (List.filter
            (fun line => bool_decide (Py.strip line ∈ Scraper.type_keywords))
            lines).

(** ** The parameter blocks of a text *)

(** A line at which the scan stops *)
Definition ends_scan (line : string) : bool :=
  bool_decide (line ∈ Scraper.section_markers)
  || (Py.isupper line && Py.contains_char "_" line && (15 <? Py.len line)%Z).

(** The lines that the scan reads: stripped, the blank ones left out,
    up to the line at which it stops *)
Fixpoint scanned_lines (lines : list string) : list string :=
  match lines with
  | [] => []
  | line :: rest =>
      let line := Py.strip line in
      if negb (Py.truthy line) then scanned_lines rest
      else if ends_scan line then []
      else line :: scanned_lines rest
  end.

(** A line that is a type token *)
Definition is_type_line (line : string) : bool :=
  bool_decide (line ∈ Scraper.type_keywords).

(** A line that starts a parameter *)
Definition is_name_line (line : string) : bool :=
  negb (is_type_line line) && Scraper.looks_like_param_name line.

(** The lines up to the next parameter name *)
Fixpoint block_body (lines : list string) : list string :=
  match lines with
  | [] => []
  | line :: rest => if is_name_line line then [] else line :: block_body rest
  end.

(** The parameter blocks of the lines read: each name line with the
    lines that follow it up to the next name line *)
Fixpoint blocks (lines : list string) : list (string * list string) :=
  match lines with
  | [] => []
  | line :: rest =>
      if is_name_line line then (line, block_body rest) :: blocks rest
      else blocks rest
  end.

(** The first type line of the body of a block, with the lines after
    it *)
Fixpoint first_type (body : list string) : option (string * list string) :=
  match body with
  | [] => None
  | line :: rest =>
      if is_type_line line then Some (line, rest) else first_type rest
  end.

(** The entry of a parameter of type [t] whose description lines are
    [desc] *)
Definition parameter_entry (t : string) (desc : list string) : pyval :=
  PDict [("type", PStr t);
         ("description", PStr (Py.strip (Py.join " " desc)))].

(** The name of a parameter, without the mark of a required one *)
Definition clean_name (name_line : string) : string :=
  Py.strip (Py.remove_sub "*required" name_line).

(** The parameter that a block defines: its name, its entry, and
    whether it is required.  The type is the first type line of the
    block, the description is made of the lines after it that are not
    type tokens; a block without a type line defines nothing. *)
Definition block_parameter (b : string * list string)
    : option (string * pyval * bool) :=
  match first_type b.2 with
  | Some (t, after) =>
      Some (clean_name b.1,
            parameter_entry t
              (List.filter (fun l => negb (is_type_line l)) after),
            Py.contains "*required" b.1)
  | None => None
  end.

(** Storing a parameter in the mapping and in the list of required
    names *)
Definition store_parameter (acc : dict * list string)
    (p : string * pyval * bool) : dict * list string :=
  (Dict.set p.1.1 p.1.2 acc.1,
   if p.2 then acc.2 ++ [p.1.1] else acc.2).

(** The parameter that the state of the scan holds back, given the
    rest of its block *)
Definition pending_parameter (st : Scraper.parse_state) (body : list string)
    : option (string * pyval * bool) :=
  match Scraper.current_param st with
  | None => None
  | Some name_line =>
      match Scraper.param_type st with
      | Some t =>
          Some (clean_name name_line,
                parameter_entry t
                  (Scraper.param_desc st
                   ++ List.filter (fun l => negb (is_type_line l)) body),
                Py.contains "*required" name_line)
      | None => block_parameter (name_line, body)
      end
  end.

Definition store_pending (st : Scraper.parse_state) (body : list string)
    : dict * list string :=
  match pending_parameter st body with
  | Some p =>
      store_parameter (Scraper.parameters st, Scraper.required_params st) p
  | None => (Scraper.parameters st, Scraper.required_params st)
  end.

Definition pending_ok (st : Scraper.parse_state) : Prop :=
  (∀ n, Scraper.current_param st = Some n → Py.truthy n = true)
  ∧ (∀ t, Scraper.param_type st = Some t → Py.truthy t = true)
  ∧ (Scraper.param_type st = None → Scraper.param_desc st = []).

(** The lines of the text that the scan reads *)
Definition scanned_text (text : string) (start_pos : Z) : list string :=
  scanned_lines (Py.split_on "010" (Py.slice (Some start_pos) None text)).

(** The value of the [server_url] field of a record *)
Definition record_url (r : dict) : pyval := Dict.get r "server_url" (PStr "").

(** No two records of the list have the same URL *)
Fixpoint urls_distinct (records : list dict) : Prop :=
  match records with
  | [] => True
  | r :: rest =>
      Forall (fun r' => Scraper.py_eq (record_url r) (record_url r') = false) rest
      ∧ urls_distinct rest
  end.

(** The records that a replay of the log yields: in the order of the
    lines, the value of every line that is not blank and that parses *)
Definition replayed_records (json_loads : string → option pyval)
    (lines : list string) : list pyval :=
  omap (fun line =>
          if Py.truthy (Py.strip line) then json_loads (Py.strip line) else None)
       lines.

(** The URLs of the records held in memory *)
Definition memory_urls (records : list dict) : list pyval :=
  omap (fun s => Scraper.server_url_key (PDict s)) records.

(** A replayed record whose URL is already in memory *)
Definition already_in_memory (memory : list dict) (v : pyval) : bool :=
  match Scraper.server_url_key v with
  | Some u => Scraper.url_in u (memory_urls memory)
  | None => false
  end.

Definition DQ : string := String "034" EmptyString.

(** A record as [normalize_server] leaves it, and the line that
    [json.dumps] writes for it *)
Definition example_record : dict :=
  [("server_name", PStr "a"); ("server_url", PStr "https://smithery.ai/server/a");
   ("connection_url", PStr ""); ("homepage", PStr ""); ("source_code", PStr "");
   ("authentication_method", PStr ""); ("description", PStr "");
   ("total_tools", PInt 0); ("tools", PList [])].

Definition example_line : string :=
  "{" +:+ DQ +:+ "server_name" +:+ DQ +:+ ": " +:+ DQ +:+ "a" +:+ DQ +:+ ", "
  +:+ DQ +:+ "server_url" +:+ DQ +:+ ": "
  +:+ DQ +:+ "https://smithery.ai/server/a" +:+ DQ +:+ ", "
  +:+ DQ +:+ "connection_url" +:+ DQ +:+ ": " +:+ DQ +:+ DQ +:+ ", "
  +:+ DQ +:+ "homepage" +:+ DQ +:+ ": " +:+ DQ +:+ DQ +:+ ", "
  +:+ DQ +:+ "source_code" +:+ DQ +:+ ": " +:+ DQ +:+ DQ +:+ ", "
  +:+ DQ +:+ "authentication_method" +:+ DQ +:+ ": " +:+ DQ +:+ DQ +:+ ", "
  +:+ DQ +:+ "description" +:+ DQ +:+ ": " +:+ DQ +:+ DQ +:+ ", "
  +:+ DQ +:+ "total_tools" +:+ DQ +:+ ": 0, "
  +:+ DQ +:+ "tools" +:+ DQ +:+ ": []}" +:+ LF.

(** A decoder that knows [example_line] only *)
Definition example_loads (line : string) : option pyval :=
  if String.eqb line (Py.strip example_line) then Some (PDict example_record)
  else None.

Definition example_stats : Scraper.Stats := Scraper.mkStats 0 0 0 0 0 0.

(** The URL set and the detected total of a fetched listing page *)
Definition urls_of (r : Z * gset string * option Z * option string)
    : gset string := r.1.1.2.

Definition total_of (r : Z * gset string * option Z * option string)
    : option Z := r.1.2.

(** The union of the URL sets of the pages [lo], ..., [hi - 1] *)
Definition urls_of_pages
    (fetch : Z → Z → Z * gset string * option Z * option string)
    (delay_ms lo hi : Z) : gset string :=
  ⋃ ((fun p => urls_of (fetch p delay_ms)) <$> Checker.range lo hi).

(** A listing with three pages of one server each, then empty pages,
    and no page indicator *)
Definition example_listing (page_num delay_ms : Z)
    : Z * gset string * option Z * option string :=
  (page_num,
   if (page_num =? 1)%Z then {["https://smithery.ai/server/a"]}
   else if (page_num =? 2)%Z then {["https://smithery.ai/server/b"]}
   else if (page_num =? 3)%Z then {["https://smithery.ai/server/c"]}
   else ∅,
   None, None).

(** [u] belongs to the normalized form of the URL collection [urls]: it
    is the non-empty result of the normalizer on one of them *)
Definition in_normalized (urls : list string) (u : string) : Prop :=
  ∃ x : string,
    x ∈ urls ∧ Checker.normalize_server_url x = Some u ∧ u ≠ EmptyString.

(** A list of strings in strictly ascending order of code points *)
Definition ascending (l : list string) : Prop :=
  StronglySorted (fun s t => String.le s t ∧ s ≠ t) l.

(** A prior snapshot and a current listing used as examples *)
Definition example_scraped : list string := ["/server/a"].

Definition example_current : list string :=
  ["/server/a/"; "https://smithery.ai/server/b?x=1"].

(** ** Shapes of the parts of a URL, used to state what [urlsplit]
    returns *)

(** The characters at which [_splitnetloc] stops *)
Definition is_delim (c : ascii) : bool :=
  Ascii.eqb c "/" || Ascii.eqb c "?" || Ascii.eqb c "#".

(** The text before the first delimiter, and the text from it on *)
Fixpoint before_delim (s : string) : string :=
  match s with
  | EmptyString => EmptyString
  | String c s' => if is_delim c then EmptyString else String c (before_delim s')
  end.

Fixpoint from_delim (s : string) : string :=
  match s with
  | EmptyString => EmptyString
  | String c s' => if is_delim c then s else from_delim s'
  end.

(** The characters that [urlsplit] deletes from a URL *)
Definition is_unsafe (c : ascii) : bool :=
  Ascii.eqb "009" c || Ascii.eqb "013" c || Ascii.eqb "010" c.

(** The bracket tests that [urlsplit] runs on a [netloc] pass *)
Definition brackets_ok (netloc : string) : bool :=
  negb ((Py.contains_char "[" netloc && negb (Py.contains_char "]" netloc))
        || (Py.contains_char "]" netloc && negb (Py.contains_char "[" netloc)))
  && (if Py.contains_char "[" netloc && Py.contains_char "]" netloc
      then Urllib.check_bracketed_netloc netloc else true).

(** The URL that [normalize_server_url] hands to [urlsplit] *)
Definition url_to_split (url : string) : string :=
  let url := Py.strip url in
  if Py.startswith "/server/" url then Checker.BASE_URL +:+ url else url.

(** The text that [urlsplit] takes for the [netloc] of [url], before it
    tests the brackets: the text between the two slashes that follow
    the scheme, if they are there, and the next delimiter *)
Definition netloc_text (url : string) : option string :=
  let url := Py.lstrip_by Urllib.c0_control_or_space url in
  let url :=
    fold_left (fun u b => Py.remove_char b u)
      Urllib.unsafe_url_bytes_to_remove url in
  let i := Py.find ":" url in
  let url :=
    if (0 <? i)%Z
       && Py.str_all Py.isascii_alpha (Py.slice (Some 0%Z) (Some 1%Z) url)
       && Py.str_all Urllib.in_scheme_chars (Py.slice None (Some i) url)
    then Py.slice (Some (i + 1)%Z) None url
    else url in
  if String.eqb (Py.slice None (Some 2%Z) url) "//"
  then Some (Urllib.splitnetloc url 2).1
  else None.

(** A scheme as [urlsplit] returns it *)
Definition good_scheme (s : string) : Prop :=
  Py.str_all Py.isascii_alpha (Py.take 1 s) = true
  ∧ Py.truthy s = true
  ∧ Py.str_all Urllib.in_scheme_chars s = true
  ∧ Py.lower s = s.

(** A non-empty [netloc] as [urlsplit] returns it *)
Definition good_netloc (n : string) : Prop :=
  Py.truthy n = true
  ∧ Py.str_all (fun c => negb (is_delim c)) n = true
  ∧ Py.str_all (fun c => negb (is_unsafe c)) n = true
  ∧ brackets_ok n = true.

(** A path as [normalize_server_url] hands it to [urlunsplit], after
    the leading slash is added *)
Definition good_path (p : string) : Prop :=
  (p = EmptyString ∨ Py.startswith "/" p = true)
  ∧ Py.contains_char "#" p = false
  ∧ Py.contains_char "?" p = false
  ∧ Py.str_all (fun c => negb (is_unsafe c)) p = true
  ∧ Py.rstrip_by (Ascii.eqb "/") p = p.

(** A string without trailing white space *)
Definition no_trailing_space (s : string) : Prop :=
  Py.rstrip_by Py.isspace s = s.

(** A character that is not a bracket *)
Definition not_bracket (c : ascii) : bool :=
  negb (Ascii.eqb "[" c || Ascii.eqb "]" c).


(** The URL after [urlsplit] has deleted tabs and line breaks from it *)
Definition remove_unsafe (url : string) : string :=
  fold_left (fun u b => Py.remove_char b u) Urllib.unsafe_url_bytes_to_remove url.

(** The text before the first [#], cut again before its first [?]: the
    path that [urlsplit] keeps of what follows the host *)
Definition path_part (url : string) : string :=
  (Py.partition "?" (Py.partition "#" url).1.1).1.1.

(** The error entry that a fetched listing page adds to the report, and
    the entries of the pages [lo], ..., [hi - 1] *)
Definition error_of (r : Z * gset string * option Z * option string)
    : list (Z * string) :=
  Checker.append_error [] r.1.1.1 r.2.

Definition errors_of_pages
    (fetch : Z → Z → Z * gset string * option Z * option string)
    (delay_ms : Z) (pages : list Z) : list (Z * string) :=
  concat ((fun p => error_of (fetch p delay_ms)) <$> pages).

(** A listing of one page with one server, whose second page fails to
    load *)
Definition example_failing_listing (page_num delay_ms : Z)
    : Z * gset string * option Z * option string :=
  if (page_num =? 1)%Z
  then (page_num, {["https://smithery.ai/server/a"]}, None, None)
  else (page_num, ∅, None, Some "Timeout 60000ms exceeded.").

(** The report on the example snapshot and listing *)
Definition example_report : Checker.AuditReport :=
  Checker.mkAuditReport 1 2 1 ["https://smithery.ai/server/b"] [].

(** ** The accounting of a scraping run *)

(** The tools of a record *)
Definition tools_of (r : dict) : list pyval :=
  match Dict.get r "tools" (PList []) with
  | PList l => l
  | _ => []
  end.


(** The statistics after a normalized record was counted: a success
    when it has a tool, a failure when it has none *)
Definition count_record (st : Scraper.Stats) (r : dict) : Scraper.Stats :=
  let n := Z.of_nat (length (tools_of r)) in
  Scraper.mkStats (Scraper.total_servers st) (Scraper.scraped st + 1)
    (Scraper.success st + if (0 <? n)%Z then 1 else 0)
    (Scraper.partial st)
    (Scraper.failed st + if (0 <? n)%Z then 0 else 1)
    (Scraper.total_tools st + n).

(** The waits before the retries that follow the attempts [0], ...,
    [k - 1] *)
Definition backoff (k : Z) : list Z :=
  (fun attempt => ((attempt + 1) * 2)%Z) <$> Checker.range 0 k.









(** Two server pages that load at once, each with one tool *)
Definition two_pages (n : nat) (url : string) : option dict :=
  Some [("server_name", PStr "Demo"); ("server_url", PStr url);
        ("total_tools", PInt 1);
        ("tools", PList [PDict [("name", PStr "fetch")]])].

(** A listing of one page with two servers *)
Definition two_links (page_num : Z) : option (list (option string)) :=
  if (page_num =? 1)%Z then Some [Some "/server/a"; Some "/server/b"]
  else Some [].


(** A scraper as [__init__] leaves it *)
Definition new_scraper (incremental_save : bool) : Scraper.SmitheryScraper :=
  Scraper.mkScraper [] incremental_save (Scraper.mkStats 0 0 0 0 0 0).

Definition new_world : Scraper.World := Scraper.mkWorld 0 [] [].

(** A server page that fails to load twice and then shows one tool *)
Definition example_page (n : nat) (url : string) : option dict :=
  if (n <? 2)%nat then None
  else Some [("server_name", PStr "Demo"); ("server_url", PStr url);
             ("total_tools", PInt 7);
             ("tools", PList [PDict [("name", PStr "fetch")]; PStr "stray"])].

(** A server page that never loads *)
Definition failing_page (n : nat) (url : string) : option dict := None.

(** The normal form of one tool; a tool that is not a dict is dropped *)
Definition normalize_tool (tool : pyval) : option pyval :=
  match tool with
  | PDict t =>
      Some (PDict
              [("name", Dict.get t "name" (PStr ""));
               ("description", Dict.get t "description" (PStr ""));
               ("inputSchema", Dict.get t "inputSchema" (PDict []))])
  | _ => None
  end.

(** The world after one more call of [scrape_server_page] *)
Definition called (w : Scraper.World) : Scraper.World :=
  Scraper.mkWorld (S (Scraper.calls w)) (Scraper.jsonl_records w)
    (Scraper.sleeps w).

(** A server URL as the collection loop of [scrape_all_servers] builds
    it *)
Definition collected_url (u : string) : bool :=
  Py.startswith "https://smithery.ai/server/" u
  && negb (Py.contains_char "?" u).

(** An input of [load_urls]: a URL given twice, once with white space
    around it, a blank string, and an object *)
Definition example_url_list : pyval :=
  PList [PStr " https://smithery.ai/server/a "; PStr "  ";
         PDict [("server_url", PStr "https://smithery.ai/server/b")];
         PStr "https://smithery.ai/server/a"; PInt 7].

(** The elements of a list in the order in which each occurs first *)
Fixpoint first_occurrences (l : list string) : list string :=
  match l with
  | [] => []
  | x :: rest => x :: filter (fun y => y ≠ x) (first_occurrences rest)
  end.

(** The URL that [load_urls] takes from one item of its input, if any *)
Definition item_url (py_str : pyval → string) (item : pyval) : option string :=
  match item with
  | PStr s => if Py.truthy (Py.strip s) then Some (Py.strip s) else None
  | PDict d =>
      let v := Dict.get d "server_url" PNone in
      if truthy_val v then Some (Py.strip (Rescrape.str_of py_str v)) else None
  | _ => None
  end.

(** A record of the input of [rescrape_problematic_servers.py] that
    expects no tool, and finds none *)
Definition example_empty_record : dict :=
  [("server_url", PStr "https://smithery.ai/server/a");
   ("total_tools", PInt 0); ("tools", PList [])].

(** ** The fallback parser, in two steps *)

(** A line at which the description of a tool ends *)
Definition ends_description (desc_line : string) : bool :=
  bool_decide (desc_line ∈ ["Connect"; "Details"; "Resources"; "Company";
                            "Capabilities"; "Prompts"])
  || (Py.isupper desc_line && Py.contains_char "_" desc_line)
  || ((length (Py.split_ws desc_line) <=? 6)%nat
      && Scraper.first_isupper desc_line).

(** The description lines gathered from [lines] on, and the lines left
    when the description ends *)
Fixpoint description_lines (lines : list string) (desc_lines : list string)
    : list string * list string :=
  match lines with
  | [] => (desc_lines, [])
  | d :: rest =>
      let desc_line := Py.strip d in
      if negb (Py.truthy desc_line) then description_lines rest desc_lines
      else if ends_description desc_line then (desc_lines, lines)
      else description_lines rest (desc_lines ++ [desc_line])
  end.

(** A name that the fallback parser gives a tool: a stripped line that
    is not blank and is no section label *)
Definition fallback_name (name : string) : Prop :=
  Py.truthy name = true ∧ Py.strip name = name
  ∧ name ∉ ["Connect"; "Details"; "Company"; "Capabilities"; "Resources";
            "Prompts"].

(** A page text with two tools after the header *)
Definition example_tools_text : string :=
  "Overview" +:+ LF +:+ "Tools" +:+ LF +:+ "2" +:+ LF
  +:+ "fetch" +:+ LF +:+ "retrieves the content of a page as markdown text"
  +:+ LF +:+ "Search" +:+ LF +:+ "Details" +:+ LF +:+ "ignored".

(** A page text that shows one tool with one required parameter *)
Definition example_tool_text : string :=
  "search_web" +:+ LF
  +:+ "Searches the web and returns the ten best results" +:+ LF
  +:+ "Parameters" +:+ LF +:+ "query*required" +:+ LF +:+ "string" +:+ LF
  +:+ "The text to look for" +:+ LF +:+ "Connect".

(** The [server_url] of an entry of the snapshot, when it is an object
    with a true value there *)
Definition entry_url (entry : pyval) : option pyval :=
  match entry with
  | PDict d =>
      let raw := Dict.get d "server_url" PNone in
      if truthy_val raw then Some raw else None
  | _ => None
  end.

(** A snapshot with an entry that is no object, an entry without URL
    and two entries for the same server *)
Definition example_snapshot : pyval :=
  PList [PStr "note"; PDict [("server_name", PStr "x")];
         PDict [("server_url", PStr "/server/a/")];
         PDict [("server_url", PStr "https://smithery.ai/server/a?tab=1")]].

(** [href.split("?")[0]] *)
Definition cut_query (href : string) : string :=
  match Py.split_on "?" href with
  | h :: _ => h
  | [] => EmptyString
  end.

(** [s] is empty or starts with a character that does not satisfy [p] *)
Definition not_starting (p : ascii → bool) (s : string) : bool :=
  match s with
  | EmptyString => true
  | String c _ => negb (p c)
  end.

(** A listing page with a page indicator and three links *)
Definition example_render (page_num delay_ms : Z) : Checker.page_load :=
  Checker.Loaded ("Servers" +:+ LF +:+ "1 / 48" +:+ LF +:+ "Next")
    [Some "/server/b?tab=tools"; Some "/servers"; None; Some "/server/a/"]
    None.
(** * Properties *)

Import Py Urllib Checker Scraper.

(** ** Outcome classification *)

Lemma outcome_of_int (n d : Z) :
  outcome_of n (PInt d)
  = Some (if ((n =? d) && (0 <? d))%Z then SUCCESS
          else if (0 <? n)%Z then PARTIAL else FAILED).
Proof.
  unfold outcome_of; simpl.
  destruct (n =? d)%Z; simpl; [destruct (0 <? d)%Z|]; reflexivity.
Qed.

(** The rule by itself, on a record that is not normalized first: for a
    record whose [tools] is a list [T] and whose [total_tools] is the
    integer [d], [classify] and the statistics update agree on one
    outcome, which is SUCCESS iff [len(T) = d] and [d > 0], PARTIAL iff
    [len(T) > 0] and [len(T) <> d], and FAILED otherwise. *)
Theorem outcome_classification (server_data : dict) (T : list pyval) (d : Z) :
  Dict.get server_data "tools" (PList []) = PList T →
  Dict.get server_data "total_tools" (PInt 0) = PInt d →
  let n := Z.of_nat (length T) in
  ∃ o : Outcome,
    Rescrape.classify server_data = Some o
    ∧ (∀ st : Stats, ∃ st' : Stats,
         update_stats st server_data = Some st'
         ∧ scraped st' = (scraped st + 1)%Z
         ∧ total_tools st' = (total_tools st + n)%Z
         ∧ success st' = (success st + if o is SUCCESS then 1 else 0)%Z
         ∧ partial st' = (partial st + if o is PARTIAL then 1 else 0)%Z
         ∧ failed st' = (failed st + if o is FAILED then 1 else 0)%Z)
    ∧ (o = SUCCESS ↔ n = d ∧ (0 < d)%Z)
    ∧ (o = PARTIAL ↔ (0 < n)%Z ∧ n ≠ d)
    ∧ (o = FAILED ↔ ¬ (n = d ∧ (0 < d)%Z) ∧ ¬ ((0 < n)%Z ∧ n ≠ d))
    ∧ (d = 5%Z → n = 5%Z → o = SUCCESS)
    ∧ (d = 5%Z → n = 2%Z → o = PARTIAL)
    ∧ (d = 5%Z → n = 0%Z → o = FAILED)
    ∧ (d = 0%Z → n = 0%Z → o = FAILED).
Proof.
  intros Htools Hexp n.
  exists (if ((n =? d) && (0 <? d))%Z then SUCCESS
          else if (0 <? n)%Z then PARTIAL else FAILED).
  split; [|split].
  - unfold Rescrape.classify. rewrite Htools, Hexp. simpl.
    apply outcome_of_int.
  - intros st. unfold update_stats. rewrite Htools, Hexp. simpl.
    fold n. rewrite outcome_of_int. simpl.
    destruct ((n =? d) && (0 <? d))%Z; [|destruct (0 <? n)%Z];
      eexists; (split; [reflexivity|]); simpl; repeat split; lia.
  - destruct (n =? d)%Z eqn:E1; destruct (0 <? d)%Z eqn:E2;
      destruct (0 <? n)%Z eqn:E3; simpl;
      repeat match goal with
             | H : (_ =? _)%Z = true |- _ => apply Z.eqb_eq in H
             | H : (_ =? _)%Z = false |- _ => apply Z.eqb_neq in H
             | H : (_ <? _)%Z = true |- _ => apply Z.ltb_lt in H
             | H : (_ <? _)%Z = false |- _ => apply Z.ltb_ge in H
             end;
      repeat split; intros; try discriminate; try reflexivity; try lia.
Qed.

Lemma outcome_classification_witness :
  ∃ o : Outcome,
    Rescrape.classify
      [("total_tools", PInt 5);
       ("tools", PList [PNone; PNone; PNone; PNone; PNone])] = Some o
    ∧ o = SUCCESS.
Proof.
  destruct (outcome_classification
              [("total_tools", PInt 5);
               ("tools", PList [PNone; PNone; PNone; PNone; PNone])]
              [PNone; PNone; PNone; PNone; PNone] 5 eq_refl eq_refl)
    as (o & Hc & _ & _ & _ & _ & H5 & _).
  exists o. split; [exact Hc | exact (H5 eq_refl eq_refl)].
Defined.

(** In the scraper the record is normalized before it is counted, so
    its [total_tools] is the length of its [tools]: the update never
    counts a record as partial. *)
Lemma normalize_tools_app (tools acc : list pyval) :
  normalize_tools tools acc
  = acc ++ omap (fun tool =>
                   match tool with
                   | PDict t =>
                       Some (PDict
                               [("name", Dict.get t "name" (PStr ""));
                                ("description", Dict.get t "description" (PStr ""));
                                ("inputSchema", Dict.get t "inputSchema" (PDict []))])
                   | _ => None
                   end) tools.
Proof.
  revert acc. induction tools as [|tool tools IH]; intros acc; simpl.
  - by rewrite app_nil_r.
  - destruct tool; simpl; rewrite IH; try reflexivity.
    by rewrite <- app_assoc.
Qed.

Lemma normalize_server_shape (server : dict) :
  ∃ ts : list pyval,
    normalize_server server
    = [("server_name", Dict.get server "server_name" (PStr ""));
       ("server_url", Dict.get server "server_url" (PStr ""));
       ("connection_url", Dict.get server "connection_url" (PStr ""));
       ("homepage", Dict.get server "homepage" (PStr ""));
       ("source_code", Dict.get server "source_code" (PStr ""));
       ("authentication_method", Dict.get server "authentication_method" (PStr ""));
       ("description", Dict.get server "description" (PStr ""));
       ("total_tools", PInt (Z.of_nat (length ts)));
       ("tools", PList ts)]
    ∧ ts = normalize_tools
             (match Dict.get server "tools" (PList []) with
              | PList l => l
              | _ => []
              end) [].
Proof.
  eexists; split; [|reflexivity].
  unfold normalize_server.
  change (Dict.get (_ :: _) "tools" PNone)
    with (Dict.get server "tools" (PList [])).
  destruct (Dict.get server "tools" (PList [])) eqn:E; reflexivity.
Qed.

Lemma omap_dict_length {A} (f : dict → A) (l : list pyval) :
  length (omap (fun tool => match tool with PDict t => Some (f t) | _ => None end) l)
  = length (List.filter is_dict l).
Proof.
  induction l as [|tool l IH]; simpl; [reflexivity|].
  destruct tool; simpl; try f_equal; exact IH.
Qed.

(** C10: the record returned by [normalize_server] has [total_tools]
    equal to the length of its [tools]; a [tools] field that is not a
    list gives the empty list; the entries that are not dicts are
    dropped, and every other entry becomes a dict with exactly the keys
    [name], [description] and [inputSchema], each read from the entry
    or defaulted to [""], [""] and [{}]. *)
Theorem normalize_server_total_tools (server : dict) :
  ∃ ts : list pyval,
    Dict.lookup "tools" (normalize_server server) = Some (PList ts)
    ∧ Dict.lookup "total_tools" (normalize_server server)
      = Some (PInt (Z.of_nat (length ts)))
    ∧ Dict.keys (normalize_server server)
      = ["server_name"; "server_url"; "connection_url"; "homepage";
         "source_code"; "authentication_method"; "description";
         "total_tools"; "tools"]
    ∧ (is_list (Dict.get server "tools" (PList [])) = false → ts = [])
    ∧ (∀ l : list pyval,
         Dict.get server "tools" (PList []) = PList l →
         ts = omap (fun tool =>
                      match tool with
                      | PDict t =>
                          Some (PDict
                                  [("name", Dict.get t "name" (PStr ""));
                                   ("description", Dict.get t "description" (PStr ""));
                                   ("inputSchema", Dict.get t "inputSchema" (PDict []))])
                      | _ => None
                      end) l
         ∧ length ts = length (List.filter is_dict l)).
Proof.
  destruct (normalize_server_shape server) as (ts & -> & Hts).
  exists ts. repeat split; try reflexivity.
  - intros Hl. rewrite Hts.
    destruct (Dict.get server "tools" (PList [])); try reflexivity.
    discriminate.
  - rewrite Hts, H. apply normalize_tools_app.
  - rewrite Hts, H, normalize_tools_app. simpl.
    apply (omap_dict_length
             (fun t => PDict
                [("name", Dict.get t "name" (PStr ""));
                 ("description", Dict.get t "description" (PStr ""));
                 ("inputSchema", Dict.get t "inputSchema" (PDict []))])).
Qed.

Lemma count_scraped_never_partial (st : Stats) (server : dict) :
  ∃ (st' : Stats) (r : dict),
    count_scraped st server = Some (st', r)
    ∧ partial st' = partial st.
Proof.
  unfold count_scraped, update_stats.
  destruct (normalize_server_shape server) as (ts & -> & _).
  cbn [Dict.get Dict.lookup String.eqb Ascii.eqb Bool.eqb default py_len mbind option_bind].
  simpl. rewrite outcome_of_int, Z.eqb_refl. simpl.
  destruct (0 <? Z.of_nat (length ts))%Z; simpl; eauto.
Qed.

(** C1: the record of a page that declares five tools and on which two
    tools were extracted is PARTIAL by the rule, but the scraper
    normalizes the record before it applies the rule, and
    [normalize_server] sets [total_tools] to the number of tools held:
    the record is counted as a success, and [classify] gives SUCCESS on
    the record that the scraper returns.  No record ever raises the
    [partial] counter. *)
Theorem outcome_partial_counted_success :
  let record := declared_five_found_two in
  let counted := Dict.set "total_tools" (PInt 2) record in
  Dict.get record "total_tools" (PInt 0) = PInt 5
  ∧ (∃ T : list pyval,
       Dict.get record "tools" (PList []) = PList T ∧ length T = 2)
  ∧ Rescrape.classify record = Some PARTIAL
  ∧ normalize_server record = counted
  ∧ Rescrape.classify counted = Some SUCCESS
  ∧ (∀ st : Stats,
       count_scraped st record
       = Some (mkStats (total_servers st) (scraped st + 1) (success st + 1)
                 (partial st) (failed st) (total_tools st + 2),
               counted))
  ∧ (∀ (st : Stats) (server : dict),
       ∃ (st' : Stats) (r : dict),
         count_scraped st server = Some (st', r) ∧ partial st' = partial st)
  ∧ (∀ (self : SmitheryScraper) (w : World) (url : string),
       scrape_single_server_with_browser declared_five_page self w url 3
       = (with_stats self
            (mkStats (total_servers (stats self)) (scraped (stats self) + 1)
               (success (stats self) + 1) (partial (stats self))
               (failed (stats self)) (total_tools (stats self) + 2)),
          save_server_incrementally self counted
            (mkWorld (S (calls w)) (jsonl_records w) (sleeps w)),
          Some counted)).
Proof.
  cbv zeta. split; [reflexivity|]. split; [by eexists|].
  split; [reflexivity|]. split; [reflexivity|]. split; [reflexivity|].
  split; [reflexivity|]. split; [exact count_scraped_never_partial|].
  intros self w url.
  unfold scrape_single_server_with_browser.
  change (range 0 3) with [0; 1; 2]%Z. cbn [retry_attempts].
  unfold attempt_once, call_scrape_server_page, declared_five_page.
  reflexivity.
Qed.

(** ** The parameter parser *)

(** C3: the text
    ["paramA*required\nstring\nDoes X\n\nparamB\ninteger\nDoes Y\n"],
    scanned from position 0, gives [paramA] the type [string] and the
    description ["Does X"], [paramB] the type [integer] and the
    description ["Does Y"], and the required names [["paramA"]]. *)
Theorem parse_parameters_example :
  parse_parameters_from_text example_parameters_text 0
  = ([("paramA", PDict [("type", PStr "string"); ("description", PStr "Does X")]);
      ("paramB", PDict [("type", PStr "integer"); ("description", PStr "Does Y")])],
     ["paramA"]).
Proof. vm_compute. reflexivity. Qed.

Lemma dict_set_elem (k : string) (v : pyval) (d : dict) (k' : string) (v' : pyval) :
  (k', v') ∈ Dict.set k v d → (k', v') = (k, v) ∨ (k', v') ∈ d.
Proof.
  induction d as [|[k0 v0] d IH]; simpl.
  - intros H%list_elem_of_singleton. by left.
  - destruct (String.eqb k k0).
    + intros [-> | H]%elem_of_cons; [by left|]. right. by apply elem_of_cons; right.
    + intros [-> | H]%elem_of_cons.
      * right. by apply elem_of_cons; left.
      * destruct (IH H) as [->|H']; [by left|]. right. by apply elem_of_cons; right.
Qed.

Lemma dict_set_key (k : string) (v : pyval) (d : dict) :
  k ∈ Dict.keys (Dict.set k v d).
Proof.
  induction d as [|[k0 v0] d IH]; simpl.
  - by apply elem_of_cons; left.
  - destruct (String.eqb k k0); simpl; apply elem_of_cons; [by left|by right].
Qed.

Lemma dict_set_keys_mono (k : string) (v : pyval) (d : dict) (k' : string) :
  k' ∈ Dict.keys d → k' ∈ Dict.keys (Dict.set k v d).
Proof.
  induction d as [|[k0 v0] d IH]; simpl.
  - by intros ?%elem_of_nil.
  - destruct (String.eqb k k0) eqn:E; simpl.
    + apply String.eqb_eq in E as <-.
      intros [-> | H]%elem_of_cons; apply elem_of_cons; [by left|by right].
    + intros [-> | H]%elem_of_cons; apply elem_of_cons; [by left|right; auto].
Qed.

Lemma dict_set_length (k : string) (v : pyval) (d : dict) :
  length (Dict.set k v d) ≤ S (length d).
Proof.
  induction d as [|[k0 v0] d IH]; simpl; [lia|].
  destruct (String.eqb k k0); simpl; lia.
Qed.

Lemma save_parameter_ok (st : parse_state) :
  state_ok st → state_ok (save_parameter st).
Proof.
  intros (Hp & Hr & Ht). unfold save_parameter.
  destruct (truthy_opt (current_param st) && truthy_opt (param_type st)) eqn:E;
    [|by repeat split].
  apply andb_true_iff in E as [_ E].
  destruct (param_type st) as [t|] eqn:Et; [|discriminate].
  repeat split; simpl.
  - intros name v [ [= -> ->] | H]%dict_set_elem; [|by eapply Hp].
    exists t, (strip (join " " (param_desc st))). split; [reflexivity|]. by apply Ht.
  - intros name.
    destruct (contains "*required" (default EmptyString (current_param st))).
    + intros [H | ->%list_elem_of_singleton]%elem_of_app.
      * by apply dict_set_keys_mono, Hr.
      * apply dict_set_key.
    + intros H. by apply dict_set_keys_mono, Hr.
  - exact Ht.
Qed.

Lemma scan_lines_ok (lines : list string) (st : parse_state) :
  state_ok st → state_ok (scan_lines lines st).
Proof.
  revert st. induction lines as [|line lines IH]; intros st Hst; simpl; [done|].
  destruct (truthy (strip line)); simpl; [|by apply IH].
  case_bool_decide; [done|].
  destruct (isupper (strip line) && contains_char "_" (strip line)
            && (15 <? len (strip line))%Z); [done|].
  case_bool_decide as Hkw.
  { apply IH.
    destruct (truthy_opt (current_param st) && negb (truthy_opt (param_type st)));
      [|done].
    destruct Hst as (Hp & Hr & Ht). repeat split; simpl; auto.
    by intros t [= <-]. }
  destruct (looks_like_param_name (strip line)).
  { apply IH. destruct (save_parameter_ok st Hst) as (Hp & Hr & Ht).
    repeat split; simpl; auto. by intros t [=]. }
  destruct (truthy_opt (current_param st) && truthy_opt (param_type st)); simpl;
    apply IH; [|done].
  destruct Hst as (Hp & Hr & Ht). by repeat split.
Qed.

Lemma save_parameter_count (st : parse_state) :
  length (parameters (save_parameter st)) ≤ typed_count st.
Proof.
  unfold save_parameter, typed_count.
  destruct (truthy_opt (current_param st)); simpl; [|lia].
  destruct (truthy_opt (param_type st)); simpl; [|lia].
  pose proof (dict_set_length
    (strip (remove_sub "*required" (default EmptyString (current_param st))))
    (PDict [("type", PStr (default EmptyString (param_type st)));
            ("description", PStr (strip (join " " (param_desc st))))])
    (parameters st)). lia.
Qed.

Lemma scan_lines_count (lines : list string) (st : parse_state) :
  typed_count (scan_lines lines st) ≤ typed_count st + type_lines lines.
Proof.
  revert st. induction lines as [|line lines IH]; intros st; simpl; [lia|].
  unfold type_lines in *. simpl.
  destruct (truthy (strip line)) eqn:Etr; simpl.
  2:{ specialize (IH st). case_bool_decide; simpl; lia. }
  case_bool_decide as Hm; [case_bool_decide; simpl; lia|].
  destruct (isupper (strip line) && contains_char "_" (strip line)
            && (15 <? len (strip line))%Z); [case_bool_decide; simpl; lia|].
  case_bool_decide as Hkw; simpl.
  { destruct (truthy_opt (current_param st) && negb (truthy_opt (param_type st)))
      eqn:E.
    - etrans; [apply IH|]. unfold typed_count; simpl. rewrite Etr.
      apply andb_true_iff in E as [_ E%negb_true_iff]. rewrite E. lia.
    - etrans; [apply IH|]. lia. }
  destruct (looks_like_param_name (strip line)).
  { etrans; [apply IH|]. unfold typed_count at 1; simpl.
    pose proof (save_parameter_count st). unfold typed_count in *. lia. }
  destruct (truthy_opt (current_param st) && truthy_opt (param_type st)); simpl;
    (etrans; [apply IH|]); unfold typed_count; simpl; lia.
Qed.

(** The shape of the result: every entry has a type token, every
    required name is a key, and the entries are not more than the type
    lines. *)
Lemma parse_parameters_shape (text : string) (start_pos : Z) :
  (∀ (name : string) (v : pyval),
     (name, v) ∈ (parse_parameters_from_text text start_pos).1 →
     ∃ t d : string,
       v = PDict [("type", PStr t); ("description", PStr d)]
       ∧ t ∈ ["string"; "integer"; "boolean"; "object"; "array"; "number"])
  ∧ (∀ name : string,
       name ∈ (parse_parameters_from_text text start_pos).2 →
       name ∈ Dict.keys (parse_parameters_from_text text start_pos).1)
  ∧ length (parse_parameters_from_text text start_pos).1
    ≤ type_lines (split_on "010" (slice (Some start_pos) None text)).
Proof.
  unfold parse_parameters_from_text. simpl.
  set (lines := split_on "010" (slice (Some start_pos) None text)).
  set (st0 := mkParseState [] [] None None [] 0).
  assert (Hok : state_ok (save_parameter (scan_lines lines st0))).
  { apply save_parameter_ok, scan_lines_ok.
    repeat split; simpl; intros; try done; by apply elem_of_nil in H. }
  destruct Hok as (Hp & Hr & _). split; [exact Hp|]. split; [exact Hr|].
  etrans; [apply save_parameter_count|].
  etrans; [apply scan_lines_count|]. unfold typed_count; simpl. lia.
Qed.

Lemma save_parameter_pending (st : parse_state) :
  pending_ok st →
  (parameters (save_parameter st), required_params (save_parameter st))
  = store_pending st [].
Proof.
  intros (Hn & Ht & Hd). unfold save_parameter, store_pending, pending_parameter.
  destruct (current_param st) as [n|] eqn:En; cbn [truthy_opt andb]; [|done].
  rewrite (Hn n eq_refl). cbn [andb].
  destruct (param_type st) as [t|] eqn:Et; cbn [truthy_opt]; [|done].
  rewrite (Ht t eq_refl). cbn [List.filter]. rewrite app_nil_r.
  reflexivity.
Qed.

Lemma type_line_truthy (line : string) :
  is_type_line line = true → truthy line = true.
Proof.
  unfold is_type_line. intros H%bool_decide_eq_true.
  unfold type_keywords in H.
  repeat (apply elem_of_cons in H as [->|H]; [done|]).
  by apply elem_of_nil in H.
Qed.

Lemma name_line_truthy (line : string) :
  looks_like_param_name line = true → truthy line = true.
Proof.
  unfold looks_like_param_name. by destruct (truthy line).
Qed.

Lemma scan_lines_blocks (lines : list string) (st : parse_state) :
  pending_ok st →
  (parameters (save_parameter (scan_lines lines st)),
   required_params (save_parameter (scan_lines lines st)))
  = foldl store_parameter
      (store_pending st (block_body (scanned_lines lines)))
      (omap block_parameter (blocks (scanned_lines lines))).
Proof.
  revert st. induction lines as [|line lines IH]; intros st Hok.
  - cbn. by apply save_parameter_pending.
  - cbn [scan_lines scanned_lines].
    destruct (truthy (strip line)) eqn:Etr; cbn [negb]; [|by apply IH].
    unfold ends_scan. case_bool_decide as Hm; cbn [orb].
    { cbn. by apply save_parameter_pending. }
    destruct (isupper (strip line) && contains_char "_" (strip line)
              && (15 <? len (strip line))%Z).
    { cbn. by apply save_parameter_pending. }
    set (l := strip line) in *.
    cbn [block_body blocks]. unfold is_name_line.
    fold (is_type_line l). destruct (is_type_line l) eqn:Ety; cbn [negb andb].
    + (* a type line *)
      assert (Hok' := Hok). destruct Hok' as (Hn & Ht & Hd).
      rewrite IH.
      * f_equal. unfold store_pending, pending_parameter.
        destruct (current_param st) as [n|] eqn:En; cbn [truthy_opt andb].
        2:{ by rewrite En. }
        rewrite (Hn n eq_refl). cbn [andb].
        destruct (param_type st) as [t|] eqn:Et; cbn [truthy_opt].
        -- rewrite (Ht t eq_refl). cbn [negb]. rewrite En, Et.
           cbn [List.filter]. by rewrite Ety.
        -- cbn [negb current_param param_type param_desc parameters
                required_params].
           unfold block_parameter. cbn [fst snd first_type]. rewrite Ety.
           by rewrite (Hd eq_refl).
      * destruct (truthy_opt (current_param st)
                  && negb (truthy_opt (param_type st))); [|done].
        split; [exact Hn|]. split; [|by intros [=]].
        intros t [= <-]. by apply type_line_truthy.
    + destruct (looks_like_param_name l) eqn:Enm.
      * (* a name line *)
        rewrite IH.
        2:{ split; [|done]. intros n [= <-]. by apply name_line_truthy. }
        cbn [omap list_omap]. unfold store_pending at 1, pending_parameter.
        cbn [current_param param_type param_desc parameters required_params].
        rewrite (save_parameter_pending st Hok).
        destruct (block_parameter (l, block_body (scanned_lines lines)));
          reflexivity.
      * (* a line of text *)
        assert (Hok' := Hok). destruct Hok' as (Hn & Ht & Hd).
        destruct (current_param st) as [n|] eqn:En; cbn [truthy_opt andb].
        2:{ rewrite IH by done. f_equal.
            unfold store_pending, pending_parameter. by rewrite En. }
        rewrite (Hn n eq_refl). cbn [andb].
        destruct (param_type st) as [t|] eqn:Et; cbn [truthy_opt].
        -- rewrite (Ht t eq_refl). cbn [andb]. rewrite IH.
           ++ f_equal. unfold store_pending, pending_parameter.
              cbn [current_param param_type param_desc parameters
                   required_params].
              rewrite En, Et. cbn [List.filter]. rewrite Ety. cbn [negb].
              by rewrite <- app_assoc.
           ++ split; [cbn; intros n' [= <-]; by apply Hn|].
              split; [cbn; intros t' [= <-]; by apply Ht|by intros [=]].
        -- cbn [andb]. rewrite IH by done.
           f_equal. unfold store_pending, pending_parameter.
           rewrite En, Et. unfold block_parameter.
           cbn [fst snd first_type]. by rewrite Ety.
Qed.

Lemma dict_set_keys_inv (k : string) (v : pyval) (d : dict) (k' : string) :
  k' ∈ Dict.keys (Dict.set k v d) → k' = k ∨ k' ∈ Dict.keys d.
Proof.
  unfold Dict.keys. intros ([k0 v0] & -> & H)%list_elem_of_fmap.
  apply dict_set_elem in H as [[= -> ->]|H]; [by left|].
  right. apply list_elem_of_fmap. by exists (k0, v0).
Qed.

Lemma stored_keys (ps : list (string * pyval * bool)) :
  ∀ (acc : dict * list string) (k : string),
    k ∈ Dict.keys (foldl store_parameter acc ps).1
    ↔ k ∈ Dict.keys acc.1 ∨ ∃ p, p ∈ ps ∧ p.1.1 = k.
Proof.
  induction ps as [|p ps IH]; intros acc k; cbn [foldl].
  - split; [by left|]. intros [H|(p & Hp & _)]; [done|].
    by apply elem_of_nil in Hp.
  - rewrite IH. unfold store_parameter at 1. cbn [fst]. split.
    + intros [[->|H]%dict_set_keys_inv|(q & Hq & Ek)].
      * right. exists p. split; [by apply elem_of_cons; left|done].
      * by left.
      * right. exists q. split; [by apply elem_of_cons; right|done].
    + intros [H|(q & [->|Hq]%elem_of_cons & Ek)].
      * left. by apply dict_set_keys_mono.
      * left. rewrite <- Ek. apply dict_set_key.
      * right. by exists q.
Qed.

Lemma stored_entries (ps : list (string * pyval * bool)) :
  ∀ (acc : dict * list string) (k : string) (v : pyval),
    (k, v) ∈ (foldl store_parameter acc ps).1 →
    (k, v) ∈ acc.1 ∨ ∃ p, p ∈ ps ∧ p.1 = (k, v).
Proof.
  induction ps as [|p ps IH]; intros acc k v; cbn [foldl]; [by left|].
  intros [H|(q & Hq & Ek)]%IH.
  - unfold store_parameter in H. cbn [fst] in H.
    apply dict_set_elem in H as [H|H]; [|by left].
    right. exists p. split; [by apply elem_of_cons; left|].
    destruct p as [[k0 v0] r]. by inversion H.
  - right. exists q. split; [by apply elem_of_cons; right|done].
Qed.

Lemma stored_required (ps : list (string * pyval * bool)) :
  ∀ (acc : dict * list string),
    (foldl store_parameter acc ps).2
    = acc.2 ++ ((fun p : string * pyval * bool => p.1.1)
                <$> List.filter (fun p : string * pyval * bool => p.2) ps).
Proof.
  induction ps as [|p ps IH]; intros acc; cbn [foldl List.filter].
  - by rewrite app_nil_r.
  - rewrite IH. unfold store_parameter at 1. cbn [snd].
    destruct p as [[k v] []]; cbn [fst snd]; [|done].
    by rewrite fmap_cons, <- app_assoc.
Qed.

Lemma first_type_some (body : list string) (t : string) (after : list string) :
  first_type body = Some (t, after) →
  ∃ before : list string,
    body = before ++ t :: after
    ∧ is_type_line t = true
    ∧ Forall (fun l => is_type_line l = false) before.
Proof.
  revert t after. induction body as [|l body IH]; intros t after; [done|].
  cbn [first_type]. destruct (is_type_line l) eqn:E.
  - intros [= <- <-]. by exists [].
  - intros (before & -> & Ht & Hb)%IH. exists (l :: before).
    split; [done|]. split; [done|]. by constructor.
Qed.

Lemma first_type_none (body : list string) :
  first_type body = None → Forall (fun l => is_type_line l = false) body.
Proof.
  induction body as [|l body IH]; cbn [first_type]; [by constructor|].
  destruct (is_type_line l) eqn:E; [done|]. intros H. constructor; auto.
Qed.

Lemma block_body_spec (ls : list string) :
  ∃ post : list string,
    ls = block_body ls ++ post
    ∧ Forall (fun l => is_name_line l = false) (block_body ls)
    ∧ (post = [] ∨ ∃ l post', post = l :: post' ∧ is_name_line l = true).
Proof.
  induction ls as [|l ls (post & E & Hb & Hp)]; cbn [block_body].
  - exists []. split; [done|]. split; [constructor|by left].
  - destruct (is_name_line l) eqn:El.
    + exists (l :: ls). split; [done|]. split; [constructor|].
      right. by exists l, ls.
    + exists post. split; [by rewrite <- app_comm_cons, <- E|].
      split; [by constructor|done].
Qed.

Lemma blocks_spec (ls : list string) (name_line : string) (body : list string) :
  (name_line, body) ∈ blocks ls →
  ∃ pre post : list string,
    ls = pre ++ name_line :: body ++ post
    ∧ is_name_line name_line = true
    ∧ Forall (fun l => is_name_line l = false) body
    ∧ (post = [] ∨ ∃ l post', post = l :: post' ∧ is_name_line l = true).
Proof.
  induction ls as [|l ls IH]; cbn [blocks]; [by intros ?%elem_of_nil|].
  destruct (is_name_line l) eqn:El.
  - intros [[= -> ->]|H]%elem_of_cons.
    + destruct (block_body_spec ls) as (post & E & Hb & Hp).
      exists [], post. cbn [app]. by rewrite <- E.
    + destruct (IH H) as (pre & post & -> & Hrest). by exists (l :: pre), post.
  - intros H. destruct (IH H) as (pre & post & -> & Hrest).
    by exists (l :: pre), post.
Qed.

Lemma parse_parameters_blocks (text : string) (start_pos : Z) :
  parse_parameters_from_text text start_pos
  = foldl store_parameter ([], [])
      (omap block_parameter (blocks (scanned_text text start_pos))).
Proof.
  unfold parse_parameters_from_text, scanned_text. cbv zeta.
  rewrite scan_lines_blocks; [done|].
  split; [done|]. split; done.
Qed.

Lemma block_parameter_some (b : string * list string)
    (p : string * pyval * bool) :
  block_parameter b = Some p →
  ∃ (before : list string) (t : string) (after : list string),
    b.2 = before ++ t :: after
    ∧ Forall (fun l => is_type_line l = false) before
    ∧ is_type_line t = true
    ∧ p = (clean_name b.1,
           parameter_entry t
             (List.filter (fun l => negb (is_type_line l)) after),
           contains "*required" b.1).
Proof.
  unfold block_parameter. destruct (first_type b.2) as [[t after]|] eqn:E; [|done].
  intros [= <-]. apply first_type_some in E as (before & E & Ht & Hb).
  by exists before, t, after.
Qed.

Lemma block_parameter_typed (b : string * list string) (t : string) :
  t ∈ b.2 → is_type_line t = true →
  ∃ p, block_parameter b = Some p ∧ p.1.1 = clean_name b.1.
Proof.
  intros Hin Ht. unfold block_parameter.
  destruct (first_type b.2) as [[t' after]|] eqn:E; [by eexists|].
  apply first_type_none in E. rewrite Forall_forall in E.
  rewrite (E t Hin) in Ht. done.
Qed.

(** C7: whatever the text and the start position, every entry of the
    mapping returned by [parse_parameters_from_text] has one of the six
    type tokens as its type, and every required name is a key of the
    mapping.  The result is read off the parameter blocks of the text,
    a block being a name line with the lines up to the next name line:
    a name is a key exactly when the block of one of its name lines has
    a type line, its type is then the first type line of that block, and
    it is required exactly when such a name line carries the mark; so a
    name that no type line follows before the next name is not stored. *)
Theorem parse_parameters_invariant (text : string) (start_pos : Z) :
  (∀ (name : string) (v : pyval),
     (name, v) ∈ (parse_parameters_from_text text start_pos).1 →
     ∃ t d : string,
       v = PDict [("type", PStr t); ("description", PStr d)]
       ∧ t ∈ ["string"; "integer"; "boolean"; "object"; "array"; "number"])
  ∧ (∀ name : string,
       name ∈ (parse_parameters_from_text text start_pos).2 →
       name ∈ Dict.keys (parse_parameters_from_text text start_pos).1)
  ∧ length (parse_parameters_from_text text start_pos).1
    ≤ type_lines (split_on "010" (slice (Some start_pos) None text))
  ∧ parse_parameters_from_text text start_pos
    = foldl store_parameter ([], [])
        (omap block_parameter (blocks (scanned_text text start_pos)))
  ∧ (∀ name : string,
       name ∈ Dict.keys (parse_parameters_from_text text start_pos).1
       ↔ ∃ (name_line : string) (body : list string) (t : string),
           (name_line, body) ∈ blocks (scanned_text text start_pos)
           ∧ clean_name name_line = name
           ∧ t ∈ body ∧ is_type_line t = true)
  ∧ (∀ (name : string) (v : pyval),
       (name, v) ∈ (parse_parameters_from_text text start_pos).1 →
       ∃ (name_line : string) (before : list string) (t : string)
         (after : list string),
         (name_line, before ++ t :: after)
           ∈ blocks (scanned_text text start_pos)
         ∧ clean_name name_line = name
         ∧ Forall (fun l => is_type_line l = false) before
         ∧ is_type_line t = true
         ∧ v = parameter_entry t
                 (List.filter (fun l => negb (is_type_line l)) after))
  ∧ (∀ name : string,
       name ∈ (parse_parameters_from_text text start_pos).2
       ↔ ∃ (name_line : string) (body : list string) (t : string),
           (name_line, body) ∈ blocks (scanned_text text start_pos)
           ∧ clean_name name_line = name
           ∧ t ∈ body ∧ is_type_line t = true
           ∧ contains "*required" name_line = true)
  ∧ (∀ (name_line : string) (body : list string),
       (name_line, body) ∈ blocks (scanned_text text start_pos) →
       ∃ pre post : list string,
         scanned_text text start_pos = pre ++ name_line :: body ++ post
         ∧ is_name_line name_line = true
         ∧ Forall (fun l => is_name_line l = false) body
         ∧ (post = [] ∨ ∃ l post', post = l :: post' ∧ is_name_line l = true)).
Proof.
  split; [|split; [|split]]; try apply parse_parameters_shape.
  split; [apply parse_parameters_blocks|].
  rewrite parse_parameters_blocks.
  set (bs := blocks (scanned_text text start_pos)).
  split; [|split; [|split]].
  - intros name. rewrite stored_keys. cbn [fst Dict.keys map]. split.
    + intros [H|(p & Hp & <-)]; [by apply elem_of_nil in H|].
      apply list_elem_of_omap in Hp as ([name_line body] & Hb & Hp).
      apply block_parameter_some in Hp as (before & t & after & E & _ & Ht & ->).
      cbn [fst snd] in *. exists name_line, body, t.
      split; [done|]. split; [done|]. split; [|done].
      rewrite E. apply elem_of_app. right. by apply elem_of_cons; left.
    + intros (name_line & body & t & Hb & <- & Hin & Ht). right.
      destruct (block_parameter_typed (name_line, body) t Hin Ht) as (p & Hp & E).
      exists p. split; [|done]. apply list_elem_of_omap. by eexists.
  - intros name v [H|(p & Hp & E)]%stored_entries; [by apply elem_of_nil in H|].
    apply list_elem_of_omap in Hp as ([name_line body] & Hb & Hp).
    apply block_parameter_some in Hp as (before & t & after & Eb & Hbf & Ht & ->).
    cbn [fst snd] in *. injection E as <- <-.
    exists name_line, before, t, after. by rewrite <- Eb.
  - intros name. rewrite stored_required. cbn [snd app].
    rewrite list_elem_of_fmap. split.
    + intros (p & -> & Hp). apply list_elem_of_In, filter_In in Hp as [Hp Hr].
      apply list_elem_of_In, list_elem_of_omap in Hp
        as ([name_line body] & Hb & Hp).
      apply block_parameter_some in Hp as (before & t & after & E & _ & Ht & ->).
      cbn [fst snd] in *. exists name_line, body, t.
      split; [done|]. split; [done|]. split; [|done].
      rewrite E. apply elem_of_app. right. by apply elem_of_cons; left.
    + intros (name_line & body & t & Hb & <- & Hin & Ht & Hr).
      destruct (block_parameter_typed (name_line, body) t Hin Ht) as (p & Hp & E).
      exists p. split; [done|]. apply list_elem_of_In, filter_In.
      split.
      * apply list_elem_of_In, list_elem_of_omap. by eexists.
      * unfold block_parameter in Hp. cbn [fst snd] in Hp.
        destruct (first_type body) as [[t' after]|]; [|done].
        by injection Hp as <-.
  - intros name_line body. apply blocks_spec.
Qed.

(** A name without a type line is dropped, and its mark with it *)
Example parse_parameters_untyped :
  parse_parameters_from_text
    ("untyped*required" +:+ LF +:+ "next" +:+ LF +:+ "string" +:+ LF) 0
  = ([("next", PDict [("type", PStr "string"); ("description", PStr "")])],
     []).
Proof. vm_compute. reflexivity. Qed.

(** ** Writing the final artifact *)

Lemma load_jsonl_app (loads : string → option pyval) (lines : list string)
    (acc : list pyval) :
  load_jsonl loads lines acc = acc ++ replayed_records loads lines.
Proof.
  revert acc. induction lines as [|line lines IH]; intros acc; simpl.
  - by rewrite app_nil_r.
  - unfold replayed_records in *. simpl.
    destruct (truthy (strip line)); [|apply IH].
    destruct (loads (strip line)); simpl; rewrite IH; [|done].
    by rewrite <- app_assoc.
Qed.

Lemma mapM_omap {A B} (f : A → option B) (l : list A) (k : list B) :
  mapM f l = Some k → omap f l = k.
Proof.
  intros H%mapM_Some. induction H as [|x y l k Hxy _ IH]; simpl; [done|].
  rewrite Hxy. f_equal. exact IH.
Qed.

Lemma merge_jsonl_spec (memory : list dict) (replayed : list pyval)
    (data out : list dict) :
  merge_jsonl (memory_urls memory) replayed data = Some out →
  ∃ kept : list dict,
    PDict <$> kept
    = List.filter (fun v => negb (already_in_memory memory v)) replayed
    ∧ out = data ++ kept
    ∧ Forall (fun y =>
                url_in (record_url y) (memory_urls memory) = false) kept.
Proof.
  revert data. induction replayed as [|v replayed IH]; intros data; simpl.
  - intros [= <-]. exists []. by rewrite app_nil_r.
  - unfold already_in_memory at 1.
    destruct (server_url_key v) as [u|] eqn:Eu; simpl; [|done].
    destruct v as [| | | | |d]; try done.
    destruct (url_in u (memory_urls memory)) eqn:Ein; simpl; intros H.
    + destruct (IH _ H) as (kept & Hk & -> & Hf). by exists kept.
    + destruct (IH _ H) as (kept & Hk & -> & Hf). exists (d :: kept).
      split; [|split].
      * by rewrite fmap_cons, Hk.
      * by rewrite <- app_assoc.
      * constructor; [|done]. unfold record_url, Dict.get.
        simpl in Eu. destruct (Dict.lookup "server_url" d) as [w|]; [|done].
        simpl in *. destruct (hashable w); by inversion Eu; subst.
Qed.

Lemma py_eq_sym (a b : pyval) : py_eq a b = py_eq b a.
Proof.
  destruct a as [|[]| | | |], b as [|[]| | | |]; unfold py_eq, int_eq;
    try reflexivity; try apply Z.eqb_sym; try apply String.eqb_sym.
Qed.

Lemma urls_distinct_app (a b : list dict) :
  urls_distinct (a ++ b)
  ↔ urls_distinct a ∧ urls_distinct b
    ∧ Forall (fun x =>
                Forall (fun y => py_eq (record_url x) (record_url y) = false) b) a.
Proof.
  induction a as [|x a IH]; simpl.
  - intuition.
  - rewrite Forall_app, IH, Forall_cons. intuition.
Qed.

Lemma record_url_normalize (r : dict) :
  record_url (normalize_server r) = record_url r.
Proof. by destruct (normalize_server_shape r) as (ts & -> & _). Qed.

Lemma urls_distinct_normalize (l : list dict) :
  urls_distinct l → urls_distinct (map normalize_server l).
Proof.
  induction l as [|r l IH]; simpl; [done|].
  intros [H1 H2]. split; [|auto].
  apply Forall_map. eapply Forall_impl; [exact H1|].
  intros r' Hr'. simpl. by rewrite !record_url_normalize.
Qed.

Lemma url_in_false (u : pyval) (l : list pyval) :
  url_in u l = false → Forall (fun e => py_eq u e = false) l.
Proof.
  unfold url_in. induction l as [|e l IH]; simpl; [done|].
  intros [H1 H2]%orb_false_iff. constructor; auto.
Qed.

Lemma memory_urls_record_url (memory : list dict) (existing : list pyval) :
  mapM (fun s => server_url_key (PDict s)) memory = Some existing →
  memory_urls memory = existing ∧ existing = map record_url memory.
Proof.
  intros H. split; [by apply mapM_omap|].
  apply mapM_Some in H. induction H as [|r u l k Hru _ IH]; simpl; [done|].
  f_equal; [|done]. unfold server_url_key in Hru. unfold record_url, Dict.get.
  destruct (Dict.lookup "server_url" r) as [w|]; simpl in *; [|done].
  destruct (hashable w); by inversion Hru.
Qed.

(** C9, as the code has it: the replay keeps, in order, the value of
    every line of the log that is not blank and that parses, and skips
    the others; every replayed record whose URL is already among the
    records in memory is skipped, the records in memory are all kept,
    and the others are appended in log order; the written list is the
    normalized form of the result.  So the written list has no two
    records with the same URL when that holds of the records in memory
    and of the replayed records that were appended. *)
Theorem save_to_json_merge (loads : string → option pyval)
    (self self' : SmitheryScraper) (lines : list string) (out : list dict) :
  incremental_save self = true →
  save_to_json loads self (Some lines) = Some (self', out) →
  ∃ kept : list dict,
    PDict <$> kept
    = List.filter (fun v => negb (already_in_memory (servers_data self) v))
        (replayed_records loads lines)
    ∧ servers_data self' = servers_data self ++ kept
    ∧ out = map normalize_server (servers_data self ++ kept)
    ∧ (urls_distinct (servers_data self) → urls_distinct kept →
       urls_distinct out).
Proof.
  intros Hinc. unfold save_to_json. rewrite Hinc.
  destruct (mapM _ (servers_data self)) as [existing|] eqn:Em; simpl; [|done].
  destruct (memory_urls_record_url _ _ Em) as [Hm1 Hm2].
  rewrite load_jsonl_app. simpl. rewrite <- Hm1.
  destruct (merge_jsonl _ _ _) as [data|] eqn:Eg; simpl; [|done].
  intros [= <- <-]. simpl.
  destruct (merge_jsonl_spec _ _ _ _ Eg) as (kept & Hk & -> & Hf).
  exists kept. repeat split; try done.
  intros Hd1 Hd2. apply urls_distinct_normalize, urls_distinct_app.
  repeat split; try done.
  apply Forall_forall. intros x Hx.
  eapply Forall_impl; [exact Hf|]. intros y Hy. simpl in Hy.
  apply url_in_false in Hy. rewrite Hm1, Hm2, Forall_forall in Hy.
  rewrite py_eq_sym. apply Hy. by apply list_elem_of_fmap_2.
Qed.

Lemma save_to_json_merge_witness :
  ∃ kept : list dict,
    PDict <$> kept
    = List.filter (fun v => negb (already_in_memory [] v))
        (replayed_records example_loads [example_line; "not json"; ""])
    ∧ [example_record] = [] ++ kept
    ∧ [example_record] = map normalize_server ([] ++ kept)
    ∧ (urls_distinct [] → urls_distinct kept → urls_distinct [example_record]).
Proof.
  apply (save_to_json_merge example_loads
           (mkScraper [] true example_stats)
           (mkScraper [example_record] true example_stats)
           [example_line; "not json"; ""] [example_record]).
  - reflexivity.
  - vm_compute. reflexivity.
Defined.

(** The claim of C9 fails as stated: a server listed on two pages is
    scraped twice, both records are in memory and in the log, and both
    are written; and two log lines for one URL that is not in memory
    are both appended. *)
Lemma save_to_json_keeps_duplicates :
  (∃ (self' : SmitheryScraper) (out : list dict),
     save_to_json example_loads
       (mkScraper [example_record; example_record] true example_stats)
       (Some [example_line; example_line]) = Some (self', out)
     ∧ ¬ urls_distinct out)
  ∧ (∃ (self' : SmitheryScraper) (out : list dict),
       save_to_json example_loads
         (mkScraper [] true example_stats)
         (Some [example_line; example_line]) = Some (self', out)
       ∧ ¬ urls_distinct out).
Proof.
  split; do 2 eexists; (split; [vm_compute; reflexivity|]);
    simpl; intros [H _]; apply Forall_cons in H as [H _]; discriminate H.
Qed.

(** ** Listing discovery *)

Lemma range_nil (lo hi : Z) : (hi ≤ lo)%Z → range lo hi = [].
Proof. intros H. unfold range. by replace (Z.to_nat (hi - lo)) with 0%nat by lia. Qed.

Lemma range_cons (lo hi : Z) :
  (lo < hi)%Z → range lo hi = lo :: range (lo + 1) hi.
Proof.
  intros H. unfold range.
  replace (Z.to_nat (hi - lo)) with (S (Z.to_nat (hi - (lo + 1)))) by lia.
  simpl. f_equal; [lia|].
  rewrite <- seq_shift, map_map. apply map_ext. intros k. lia.
Qed.

Lemma urls_of_pages_nil fetch (delay_ms lo hi : Z) :
  (hi ≤ lo)%Z → urls_of_pages fetch delay_ms lo hi = ∅.
Proof. intros H. unfold urls_of_pages. by rewrite range_nil. Qed.

Lemma urls_of_pages_cons fetch (delay_ms lo hi : Z) :
  (lo < hi)%Z →
  urls_of_pages fetch delay_ms lo hi
  = urls_of (fetch lo delay_ms) ∪ urls_of_pages fetch delay_ms (lo + 1) hi.
Proof. intros H. unfold urls_of_pages. by rewrite range_cons. Qed.

Section DiscoveryFallback.

Variable fetch : Z → Z → Z * gset string * option Z * option string.
Variables (delay_ms k : Z).
Hypothesis k_bounds : (1 ≤ k ≤ 100)%Z.
Hypothesis pages_nonempty :
  ∀ p : Z, (2 ≤ p ≤ k)%Z → urls_of (fetch p delay_ms) ≠ ∅.
Hypothesis next_page_empty :
  (k < 100)%Z → urls_of (fetch (k + 1) delay_ms) = ∅.

Lemma crawl_sequentially_spec (d : nat) :
  ∀ (fuel : nat) (page : Z) (urls : gset string) (visited : list Z),
    d = Z.to_nat (k + 1 - page) →
    (2 ≤ page ≤ k + 1)%Z → (page ≤ 100)%Z →
    (Z.to_nat (101 - page) ≤ fuel)%nat →
    crawl_sequentially fetch fuel None delay_ms page urls visited
    = Some (urls ∪ urls_of_pages fetch delay_ms page (k + 1),
            visited ++ range page (Z.min (k + 2) 101)).
Proof.
  induction d as [|d IH]; intros fuel page urls visited Hd Hp H100 Hfuel.
  - assert (page = k + 1)%Z as -> by lia.
    destruct fuel as [|fuel]; [lia|]. simpl.
    pose proof (next_page_empty ltac:(lia)) as He.
    destruct (fetch (k + 1)%Z delay_ms) as [[[pn pu] pt] pe]. simpl in He.
    rewrite bool_decide_true by done.
    rewrite urls_of_pages_nil by lia.
    rewrite (range_cons (k + 1)), range_nil by lia.
    by rewrite union_empty_r_L.
  - destruct fuel as [|fuel]; [lia|]. simpl.
    pose proof (pages_nonempty page ltac:(lia)) as Hne.
    rewrite (urls_of_pages_cons _ _ page) by lia.
    rewrite (range_cons page) by lia.
    destruct (fetch page delay_ms) as [[[pn pu] pt] pe] eqn:Ef. simpl in Hne.
    rewrite bool_decide_false by done. simpl.
    destruct (100 <? page + 1)%Z eqn:E100.
    + apply Z.ltb_lt in E100. assert (page = 100)%Z as -> by lia.
      rewrite urls_of_pages_nil, range_nil by lia.
      unfold urls_of. simpl. by rewrite union_empty_r_L.
    + apply Z.ltb_ge in E100.
      rewrite (IH fuel (page + 1)%Z) by lia.
      unfold urls_of. simpl.
      by rewrite <- app_assoc, (assoc_L (∪)).
Qed.

End DiscoveryFallback.

(** C8: when page 1 shows no page total and [max_pages] is not given,
    the pages 2, 3, ... are requested one after the other; the crawl
    stops at the first page without URLs, or after page 100.  With [k]
    the last page before that stop, the result is the sorted union of
    the URL sets of the pages 1 to [k], and the pages requested are
    1, ..., [k + 1] (1, ..., 100 when [k = 100]).  For three pages with
    URLs followed by a page without, this is the case [k = 3]. *)
Theorem discovery_fallback
    (fetch : Z → Z → Z * gset string * option Z * option string)
    (as_completed : list Z → list Z) (delay_ms threads k : Z) :
  (1 ≤ k ≤ 100)%Z →
  truthy_int (total_of (fetch 1%Z delay_ms)) = false →
  (∀ p : Z, (2 ≤ p ≤ k)%Z → urls_of (fetch p delay_ms) ≠ ∅) →
  ((k < 100)%Z → urls_of (fetch (k + 1)%Z delay_ms) = ∅) →
  fetch_current_server_urls fetch as_completed None delay_ms threads
  = Some (sorted (urls_of_pages fetch delay_ms 1 (k + 1)),
          range 1 (Z.min (k + 2) 101)).
Proof.
  intros Hk Ht Hne He. unfold fetch_current_server_urls.
  rewrite (urls_of_pages_cons _ _ 1) by lia.
  rewrite (range_cons 1) by lia.
  remember 99%nat as fuel eqn:Hfuel.
  destruct (fetch 1%Z delay_ms) as [[[pn pu] pt] pe] eqn:Ef.
  unfold total_of in Ht. simpl in Ht. rewrite Ht. simpl.
  rewrite (crawl_sequentially_spec fetch delay_ms k Hk Hne He
             (Z.to_nat (k + 1 - 2)) fuel 2) by lia.
  simpl. unfold urls_of at 1. simpl.
  by rewrite (left_id_L ∅ (∪)).
Qed.

(** The sequential crawl never runs out of fuel: started at a page
    between 2 and 100 it requests at most the pages up to 100, whatever
    the listing returns and whatever [max_pages] is. *)
Lemma crawl_sequentially_returns
    (fetch : Z → Z → Z * gset string * option Z * option string)
    (max_pages : option Z) (delay_ms : Z) (fuel : nat) :
  ∀ (page : Z) (urls : gset string) (visited : list Z),
    (1 ≤ Z.to_nat (101 - page) ≤ fuel)%nat →
    is_Some (crawl_sequentially fetch fuel max_pages delay_ms page urls visited).
Proof.
  induction fuel as [|fuel IH]; intros page urls visited Hf; [lia|].
  simpl. destruct (fetch page delay_ms) as [[[pn pu] pt] pe].
  case_bool_decide; [done|].
  destruct (truthy_int max_pages && (default 0%Z max_pages <? page + 1)%Z); [done|].
  destruct (100 <? page + 1)%Z eqn:E; [done|].
  apply Z.ltb_ge in E. apply IH. lia.
Qed.

Lemma fetch_current_server_urls_returns
    (fetch : Z → Z → Z * gset string * option Z * option string)
    (as_completed : list Z → list Z) (max_pages : option Z)
    (delay_ms threads : Z) :
  is_Some (fetch_current_server_urls fetch as_completed max_pages delay_ms threads).
Proof.
  unfold fetch_current_server_urls.
  remember 99%nat as fuel eqn:Hfuel.
  destruct (fetch 1%Z delay_ms) as [[[pn pu] pt] pe].
  match goal with
  | |- context [if ?c then _ else _] => destruct c
  end; [done|].
  destruct (crawl_sequentially_returns fetch max_pages delay_ms fuel 2
              (∅ ∪ pu) [1%Z]) as [[u v] ->]; [lia|done].
Qed.

Lemma discovery_fallback_witness :
  fetch_current_server_urls example_listing (fun pages => pages) None 1500 1
  = Some (sorted (urls_of_pages example_listing 1500 1 (3 + 1)),
          range 1 (Z.min (3 + 2) 101)).
Proof.
  apply (discovery_fallback example_listing (fun pages => pages) 1500 1 3).
  - lia.
  - reflexivity.
  - intros p Hp. assert (p = 2 ∨ p = 3)%Z as [-> | ->] by lia;
      unfold urls_of, example_listing; simpl; apply non_empty_singleton_L.
  - intros _. reflexivity.
Defined.

Example discovery_fallback_example :
  fetch_current_server_urls example_listing (fun pages => pages) None 1500 1
  = Some (["https://smithery.ai/server/a"; "https://smithery.ai/server/b";
           "https://smithery.ai/server/c"],
          [1; 2; 3; 4]%Z).
Proof. vm_compute. reflexivity. Qed.

(** ** Reconciliation *)

Lemma truthy_iff (s : string) : truthy s = true ↔ s ≠ EmptyString.
Proof. destruct s; simpl; split; congruence. Qed.

Lemma add_normalized_spec (urls : list string) (acc : gset string) :
  (∀ x : string, x ∈ urls → normalize_server_url x ≠ None) →
  ∃ s : gset string,
    add_normalized urls acc = Some s
    ∧ ∀ u : string, u ∈ s ↔ u ∈ acc ∨ in_normalized urls u.
Proof.
  revert acc. induction urls as [|url urls IH]; intros acc Hall; simpl.
  - exists acc. split; [done|]. intros u. split; [by left|].
    intros [H|(x & Hx & _)]; [done|]. by apply elem_of_nil in Hx.
  - destruct (normalize_server_url url) as [n|] eqn:En.
    2:{ exfalso. apply (Hall url); [by left|done]. }
    simpl.
    destruct (IH (if truthy n then acc ∪ {[n]} else acc)) as (s & -> & Hs).
    { intros x Hx. apply Hall. by right. }
    exists s. split; [done|]. intros u. rewrite Hs. split.
    + intros [H|(x & Hx & Hn & Hu)].
      * destruct (truthy n) eqn:Et; [|by left].
        apply elem_of_union in H as [H|H%elem_of_singleton]; [by left|].
        subst u. right. exists url. split; [by left|]. split; [done|].
        by apply truthy_iff.
      * right. exists x. split; [by right|done].
    + intros [H|(x & Hx & Hn & Hu)].
      * left. destruct (truthy n); [|done]. apply elem_of_union. by left.
      * apply elem_of_cons in Hx as [->|Hx].
        -- left. rewrite En in Hn. injection Hn as ->.
           apply truthy_iff in Hu. rewrite Hu. apply elem_of_union. right.
           by apply elem_of_singleton.
        -- right. by exists x.
Qed.

Lemma add_normalized_raises (urls : list string) (acc : gset string) (x : string) :
  x ∈ urls → normalize_server_url x = None → add_normalized urls acc = None.
Proof.
  revert acc. induction urls as [|url urls IH]; intros acc Hx Hn; simpl.
  - by apply elem_of_nil in Hx.
  - apply elem_of_cons in Hx as [<-|Hx]; [by rewrite Hn|].
    destruct (normalize_server_url url); [|done]. simpl. by apply IH.
Qed.

Lemma sorted_ascending (s : gset string) : ascending (sorted s).
Proof.
  unfold ascending, sorted.
  assert (Hs : StronglySorted String.le (merge_sort String.le (elements s)))
    by apply (StronglySorted_merge_sort _).
  assert (Hn : NoDup (merge_sort String.le (elements s))).
  { rewrite merge_sort_Permutation. apply NoDup_elements. }
  induction Hs as [|a l Hl IH Ha]; [constructor|].
  apply NoDup_cons in Hn as [Hna Hn].
  constructor; [by apply IH|].
  apply Forall_forall. intros b Hb. split.
  - rewrite Forall_forall in Ha. by apply Ha.
  - intros ->. done.
Qed.

Lemma elem_of_sorted (s : gset string) (u : string) : u ∈ sorted s ↔ u ∈ s.
Proof. unfold sorted. by rewrite merge_sort_Permutation, elem_of_elements. Qed.

(** An element on which the normalizer raises makes
    [find_missing_servers] raise. *)
Lemma find_missing_servers_propagates (A B : list string) (x : string) :
  x ∈ A ++ B → normalize_server_url x = None →
  find_missing_servers A B = None.
Proof.
  intros [Hx|Hx]%elem_of_app Hn; unfold find_missing_servers.
  - by rewrite (add_normalized_raises A ∅ x).
  - destruct (add_normalized A ∅); [simpl|done].
    by rewrite (add_normalized_raises B ∅ x).
Qed.

(** C2, as the code has it: when the normalizer returns on every
    element of [A] and [B], [find_missing_servers A B] is the strictly
    ascending list of the strings that are in the normalized [B] and
    not in the normalized [A]; then [find_missing_servers A A] is empty
    and [find_missing_servers [] B] lists the normalized [B].  The
    audit report carries that same list. *)
Theorem find_missing_servers_set_difference (A B : list string) :
  (∀ x : string, x ∈ A ++ B → normalize_server_url x ≠ None) →
  (∃ r : list string,
     find_missing_servers A B = Some r
     ∧ ascending r
     ∧ (∀ u : string, u ∈ r ↔ in_normalized B u ∧ ¬ in_normalized A u)
     ∧ ∀ errors : list (Z * string),
         missing_urls <$> build_audit_report A B errors = Some r)
  ∧ find_missing_servers A A = Some []
  ∧ (∃ r : list string,
       find_missing_servers [] B = Some r
       ∧ ascending r
       ∧ ∀ u : string, u ∈ r ↔ in_normalized B u).
Proof.
  intros Hall.
  destruct (add_normalized_spec A ∅) as (sa & Ha & Hsa).
  { intros x Hx. apply Hall, elem_of_app. by left. }
  destruct (add_normalized_spec B ∅) as (sb & Hb & Hsb).
  { intros x Hx. apply Hall, elem_of_app. by right. }
  assert (Hina : ∀ u, u ∈ sa ↔ in_normalized A u).
  { intros u. rewrite Hsa. split; [intros [H|H]|intros H]; auto.
    by apply not_elem_of_empty in H. }
  assert (Hinb : ∀ u, u ∈ sb ↔ in_normalized B u).
  { intros u. rewrite Hsb. split; [intros [H|H]|intros H]; auto.
    by apply not_elem_of_empty in H. }
  split; [|split].
  - exists (sorted (sb ∖ sa)).
    assert (Hf : find_missing_servers A B = Some (sorted (sb ∖ sa))).
    { unfold find_missing_servers. by rewrite Ha, Hb. }
    split; [done|]. split; [apply sorted_ascending|]. split.
    + intros u. by rewrite elem_of_sorted, elem_of_difference, Hinb, Hina.
    + intros errors. unfold build_audit_report. by rewrite Hf.
  - unfold find_missing_servers. rewrite Ha. simpl.
    by rewrite difference_diag_L.
  - exists (sorted sb). unfold find_missing_servers. simpl. rewrite Hb. simpl.
    rewrite difference_empty_L.
    split; [done|]. split; [apply sorted_ascending|].
    intros u. by rewrite elem_of_sorted, Hinb.
Qed.

Lemma find_missing_servers_set_difference_witness :
  find_missing_servers example_scraped example_scraped = Some [].
Proof.
  apply (find_missing_servers_set_difference example_scraped example_current).
  intros x Hx.
  repeat (apply elem_of_cons in Hx as [-> | Hx]; [vm_compute; discriminate|]).
  by apply elem_of_nil in Hx.
Defined.

Example find_missing_servers_example :
  find_missing_servers example_scraped example_current
  = Some ["https://smithery.ai/server/b"].
Proof. vm_compute. reflexivity. Qed.

(** The claim of C2 fails as stated: on a URL that [urlsplit] rejects,
    [find_missing_servers] raises instead of returning a list. *)
Lemma find_missing_servers_raises :
  find_missing_servers ["http://["] ["http://["] = None.
Proof. vm_compute. reflexivity. Qed.

(** ** Strings *)

Lemma app_nil_l_str (s : string) : EmptyString +:+ s = s.
Proof. reflexivity. Qed.

Lemma app_cons_str (c : ascii) (a b : string) :
  String c a +:+ b = String c (a +:+ b).
Proof. reflexivity. Qed.

Lemma app_nil_r_str (s : string) : s +:+ EmptyString = s.
Proof.
  induction s as [|c s IH]; [done|]. by rewrite app_cons_str, IH.
Qed.

Lemma app_assoc_str (a b c : string) : (a +:+ b) +:+ c = a +:+ (b +:+ c).
Proof.
  induction a as [|x a IH]; [done|]. by rewrite !app_cons_str, IH.
Qed.

Lemma length_app_str (a b : string) :
  String.length (a +:+ b) = (String.length a + String.length b)%nat.
Proof.
  induction a as [|x a IH]; [done|]. rewrite app_cons_str. simpl. by rewrite IH.
Qed.

Lemma str_all_app (p : ascii → bool) (a b : string) :
  str_all p (a +:+ b) = str_all p a && str_all p b.
Proof.
  induction a as [|x a IH]; [done|]. rewrite app_cons_str. simpl.
  rewrite IH. by rewrite andb_assoc.
Qed.

Lemma str_all_impl (p q : ascii → bool) (s : string) :
  (∀ c, p c = true → q c = true) → str_all p s = true → str_all q s = true.
Proof.
  intros Hpq. induction s as [|c s IH]; simpl; [done|].
  intros [H1 H2]%andb_true_iff. by rewrite (Hpq _ H1), IH.
Qed.

Lemma contains_char_all (c : ascii) (s : string) :
  contains_char c s = negb (str_all (fun d => negb (Ascii.eqb c d)) s).
Proof.
  unfold contains_char. induction s as [|d s IH]; simpl; [done|].
  rewrite IH. by destruct (Ascii.eqb c d).
Qed.

Lemma contains_char_false (c : ascii) (s : string) :
  contains_char c s = false ↔ str_all (fun d => negb (Ascii.eqb c d)) s = true.
Proof. rewrite contains_char_all. by destruct (str_all _ s). Qed.

Lemma str_all_no_char (p : ascii → bool) (c : ascii) (s : string) :
  p c = false → str_all p s = true → contains_char c s = false.
Proof.
  intros Hc H. apply contains_char_false. revert H. apply str_all_impl.
  intros d Hd. destruct (Ascii.eqb_spec c d) as [->|]; [congruence|done].
Qed.

Lemma take_length_app (a b : string) : take (String.length a) (a +:+ b) = a.
Proof.
  induction a as [|x a IH]; [by destruct b|].
  rewrite app_cons_str. simpl. by rewrite IH.
Qed.

Lemma drop_length_app (a b : string) : drop (String.length a) (a +:+ b) = b.
Proof.
  induction a as [|x a IH]; [by destruct b|]. rewrite app_cons_str. simpl. done.
Qed.

Lemma take_ge (n : nat) (s : string) : (String.length s ≤ n)%nat → take n s = s.
Proof.
  revert n. induction s as [|c s IH]; intros [|n] H; simpl in *; try done; try lia.
  rewrite IH; [done|lia].
Qed.

Lemma drop_ge (n : nat) (s : string) :
  (String.length s ≤ n)%nat → drop n s = EmptyString.
Proof.
  revert n. induction s as [|c s IH]; intros [|n] H; simpl in *; try done; try lia.
  apply IH. lia.
Qed.

Lemma length_drop (n : nat) (s : string) :
  String.length (drop n s) = (String.length s - n)%nat.
Proof.
  revert n. induction s as [|c s IH]; intros [|n]; simpl; auto.
Qed.

Lemma take_take_min (n : nat) (s : string) :
  take (Nat.min n (String.length s)) s = take n s.
Proof.
  revert n. induction s as [|c s IH]; intros [|n]; simpl; try done.
  by rewrite IH.
Qed.

Lemma take_empty (n : nat) : take n EmptyString = EmptyString.
Proof. by destruct n. Qed.

Lemma str_all_take (p : ascii → bool) (n : nat) (s : string) :
  str_all p s = true → str_all p (take n s) = true.
Proof.
  revert n. induction s as [|c s IH]; intros [|n]; simpl; try done.
  intros [H1 H2]%andb_true_iff. by rewrite H1, IH.
Qed.

Lemma str_all_drop (p : ascii → bool) (n : nat) (s : string) :
  str_all p s = true → str_all p (drop n s) = true.
Proof.
  revert n. induction s as [|c s IH]; intros [|n]; simpl; try done.
  intros [H1 H2]%andb_true_iff. by apply IH.
Qed.

Lemma clamp_nonneg (s : string) (i : Z) :
  (0 ≤ i)%Z → clamp s i = Nat.min (Z.to_nat i) (String.length s).
Proof.
  intros H. unfold clamp, len.
  destruct (i <? 0)%Z eqn:E; [apply Z.ltb_lt in E; lia|]. lia.
Qed.

Lemma slice_to (s : string) (i : Z) :
  (0 ≤ i)%Z → slice None (Some i) s = take (Z.to_nat i) s.
Proof.
  intros H. unfold slice. rewrite clamp_nonneg by done. simpl.
  by rewrite Nat.sub_0_r, take_take_min.
Qed.

Lemma slice_from (s : string) (i : Z) :
  (0 ≤ i)%Z → slice (Some i) None s = drop (Z.to_nat i) s.
Proof.
  intros H. unfold slice. rewrite clamp_nonneg by done.
  destruct (Nat.le_gt_cases (String.length s) (Z.to_nat i)) as [Hl|Hl].
  - rewrite Nat.min_r by done. rewrite !drop_ge by lia. apply take_empty.
  - rewrite Nat.min_l by lia. apply take_ge. rewrite length_drop. lia.
Qed.

Lemma slice_mid (s : string) (i j : Z) :
  (0 ≤ i)%Z → (0 ≤ j)%Z →
  slice (Some i) (Some j) s = take (Z.to_nat j - Z.to_nat i) (drop (Z.to_nat i) s).
Proof.
  intros Hi Hj. unfold slice. rewrite !clamp_nonneg by done.
  destruct (Nat.le_gt_cases (String.length s) (Z.to_nat i)) as [Hl|Hl].
  - rewrite (Nat.min_r (Z.to_nat i)) by done. rewrite !drop_ge by lia.
    by rewrite !take_empty.
  - rewrite (Nat.min_l (Z.to_nat i)) by lia.
    destruct (Nat.le_gt_cases (String.length s) (Z.to_nat j)) as [Hj'|Hj'].
    + rewrite Nat.min_r by done.
      rewrite !take_ge; [done| |]; rewrite length_drop; lia.
    + by rewrite Nat.min_l by lia.
Qed.

Lemma str_all_slice (p : ascii → bool) (lo hi : option Z) (s : string) :
  str_all p s = true → str_all p (slice lo hi s) = true.
Proof. intros H. unfold slice. by apply str_all_take, str_all_drop. Qed.

Lemma index_of_lt (c : ascii) (s : string) (k : nat) :
  index_of c s = Some k → (k < String.length s)%nat.
Proof.
  revert k. induction s as [|d s IH]; intros k; simpl; [done|].
  destruct (Ascii.eqb c d); [intros [= <-]; lia|].
  destruct (index_of c s) as [k'|]; simpl; [|done].
  intros [= <-]. specialize (IH k' eq_refl). lia.
Qed.

Lemma index_of_none (c : ascii) (s : string) :
  contains_char c s = false → index_of c s = None.
Proof.
  unfold contains_char. induction s as [|d s IH]; simpl; [done|].
  intros [H1 H2]%orb_false_iff. rewrite H1. by rewrite IH.
Qed.

Lemma index_of_app (c : ascii) (a b : string) :
  contains_char c a = false →
  index_of c (a +:+ String c b) = Some (String.length a).
Proof.
  unfold contains_char. induction a as [|d a IH].
  - intros _. rewrite app_nil_l_str. simpl. by rewrite Ascii.eqb_refl.
  - rewrite app_cons_str. simpl.
    intros [H1 H2]%orb_false_iff. rewrite H1, IH by done. done.
Qed.

Lemma find_from_drop (c : ascii) (start : Z) (s : string) :
  (0 ≤ start ≤ len s)%Z →
  find_from c start s
  = match index_of c (drop (Z.to_nat start) s) with
    | Some k => (start + Z.of_nat k)%Z
    | None => (-1)%Z
    end.
Proof.
  intros H. unfold find_from. rewrite clamp_nonneg by lia. unfold len in H.
  rewrite Nat.min_l by lia. destruct (index_of _ _); [lia|done].
Qed.

Lemma lstrip_by_id (p : ascii → bool) (c : ascii) (s : string) :
  p c = false → lstrip_by p (String c s) = String c s.
Proof. intros H. simpl. by rewrite H. Qed.

Lemma remove_char_id (c : ascii) (s : string) :
  contains_char c s = false → remove_char c s = s.
Proof.
  unfold contains_char. induction s as [|d s IH]; simpl; [done|].
  intros [H1 H2]%orb_false_iff. rewrite H1. by rewrite IH.
Qed.

Lemma str_all_remove_char (p : ascii → bool) (c : ascii) (s : string) :
  str_all p s = true → str_all p (remove_char c s) = true.
Proof.
  induction s as [|d s IH]; simpl; [done|].
  intros [H1 H2]%andb_true_iff. destruct (Ascii.eqb c d); simpl; [auto|].
  by rewrite H1, IH.
Qed.

Lemma remove_char_gone (c : ascii) (s : string) :
  str_all (fun d => negb (Ascii.eqb c d)) (remove_char c s) = true.
Proof.
  induction s as [|d s IH]; simpl; [done|].
  destruct (Ascii.eqb c d) eqn:E; simpl; [done|]. by rewrite E, IH.
Qed.

Lemma str_all_lstrip (p q : ascii → bool) (s : string) :
  str_all p s = true → str_all p (lstrip_by q s) = true.
Proof.
  induction s as [|d s IH]; simpl; [done|].
  intros H. destruct (q d); [|done].
  apply andb_true_iff in H as [_ H]. auto.
Qed.

Lemma str_all_rstrip (p q : ascii → bool) (s : string) :
  str_all p s = true → str_all p (rstrip_by q s) = true.
Proof.
  induction s as [|d s IH]; simpl; [done|].
  intros [H1 H2]%andb_true_iff. specialize (IH H2).
  destruct (rstrip_by q s); simpl in *.
  - destruct (q d); simpl; [done|]. by rewrite H1.
  - by rewrite H1, IH.
Qed.

Lemma rstrip_by_idem (q : ascii → bool) (s : string) :
  rstrip_by q (rstrip_by q s) = rstrip_by q s.
Proof.
  induction s as [|d s IH]; simpl; [done|].
  destruct (rstrip_by q s) as [|e r] eqn:E; simpl.
  - destruct (q d) eqn:Eq; simpl; [done|]. by rewrite Eq.
  - simpl in IH. by rewrite IH.
Qed.

(** ** [_splitnetloc] *)

Lemma before_from_delim (s : string) : before_delim s +:+ from_delim s = s.
Proof.
  induction s as [|c s IH]; simpl; [done|].
  destruct (is_delim c); [done|]. by rewrite app_cons_str, IH.
Qed.

Lemma before_delim_no_delim (s : string) :
  str_all (fun c => negb (is_delim c)) (before_delim s) = true.
Proof.
  induction s as [|c s IH]; simpl; [done|].
  destruct (is_delim c) eqn:E; simpl; [done|]. by rewrite E, IH.
Qed.

Lemma index_of_delim_ge (c : ascii) (s : string) (k : nat) :
  is_delim c = true → index_of c s = Some k →
  (String.length (before_delim s) ≤ k)%nat.
Proof.
  intros Hc. revert k. induction s as [|d s IH]; intros k; simpl; [done|].
  destruct (Ascii.eqb_spec c d) as [<-|Hne].
  - intros [= <-]. rewrite Hc. simpl. lia.
  - destruct (is_delim d); simpl; [lia|].
    destruct (index_of c s) as [k'|]; simpl; [|done].
    intros [= <-]. specialize (IH k' eq_refl). lia.
Qed.

Lemma from_delim_cases (s : string) :
  (from_delim s = EmptyString
   ∧ ∀ c, is_delim c = true → index_of c s = None)
  ∨ (∃ (c : ascii) (tl : string),
       from_delim s = String c tl ∧ is_delim c = true
       ∧ index_of c s = Some (String.length (before_delim s))).
Proof.
  induction s as [|d s IH]; simpl.
  - left. by split.
  - destruct (is_delim d) eqn:Ed.
    + right. exists d, s. by rewrite Ascii.eqb_refl.
    + destruct IH as [[H1 H2]|(c & tl & H1 & H2 & H3)].
      * left. split; [done|]. intros c Hc.
        destruct (Ascii.eqb_spec c d) as [->|]; [congruence|].
        by rewrite H2.
      * right. exists c, tl. split; [done|]. split; [done|].
        destruct (Ascii.eqb_spec c d) as [->|]; [congruence|].
        by rewrite H3.
Qed.

Lemma is_delim_cases (c : ascii) :
  is_delim c = true → c = "/"%char ∨ c = "?"%char ∨ c = "#"%char.
Proof.
  unfold is_delim. intros H.
  destruct (Ascii.eqb_spec c "/"); [by left|].
  destruct (Ascii.eqb_spec c "?"); [by right; left|].
  destruct (Ascii.eqb_spec c "#"); [by right; right|]. done.
Qed.

Lemma delim_min (L kd : nat) (i1 i2 i3 : option nat) :
  (∀ k, i1 = Some k → kd ≤ k < L)%nat →
  (∀ k, i2 = Some k → kd ≤ k < L)%nat →
  (∀ k, i3 = Some k → kd ≤ k < L)%nat →
  (kd = L ∧ i1 = None ∧ i2 = None ∧ i3 = None)
  ∨ (i1 = Some kd ∨ i2 = Some kd ∨ i3 = Some kd) →
  let f := fun i : option nat =>
             match i with
             | Some k => (2 + Z.of_nat k)%Z
             | None => (-1)%Z
             end in
  let d0 := (2 + Z.of_nat L)%Z in
  let d1 := if (0 <=? f i1)%Z then Z.min d0 (f i1) else d0 in
  let d2 := if (0 <=? f i2)%Z then Z.min d1 (f i2) else d1 in
  (if (0 <=? f i3)%Z then Z.min d2 (f i3) else d2) = (2 + Z.of_nat kd)%Z.
Proof.
  intros H1 H2 H3 Hc. simpl.
  destruct i1 as [k1|], i2 as [k2|], i3 as [k3|];
    try specialize (H1 _ eq_refl); try specialize (H2 _ eq_refl);
    try specialize (H3 _ eq_refl);
    repeat match goal with
           | |- context [(0 <=? ?x)%Z] => destruct (Z.leb_spec 0 x)
           end;
    destruct Hc as [(? & ? & ? & ?)|[?|[?|?]]]; simplify_eq; lia.
Qed.

Lemma splitnetloc_slashes (rest : string) :
  splitnetloc ("//" +:+ rest) 2 = (before_delim rest, from_delim rest).
Proof.
  unfold splitnetloc.
  change ("//" +:+ rest) with (String "/" (String "/" rest)).
  set (url := String "/" (String "/" rest)).
  assert (Hlen : len url = (2 + Z.of_nat (String.length rest))%Z)
    by (unfold len, url; simpl; lia).
  assert (Hf : ∀ c, find_from c 2 url
                    = match index_of c rest with
                      | Some k => (2 + Z.of_nat k)%Z
                      | None => (-1)%Z
                      end).
  { intros c. rewrite find_from_drop by lia. done. }
  simpl fold_left. rewrite !Hf, Hlen.
  rewrite (delim_min (String.length rest) (String.length (before_delim rest))).
  - rewrite slice_mid, slice_from by lia.
    replace (Z.to_nat (2 + Z.of_nat (String.length (before_delim rest))))
      with (S (S (String.length (before_delim rest)))) by lia.
    replace (S (S (String.length (before_delim rest))) - Z.to_nat 2)%nat
      with (String.length (before_delim rest)) by lia.
    change (drop (Z.to_nat 2) url) with rest.
    change (drop (S (S ?n)) url) with (drop n rest).
    rewrite <- (before_from_delim rest) at 2 4.
    by rewrite take_length_app, drop_length_app.
  - intros k Hk. split; [|by eapply index_of_lt].
    eapply index_of_delim_ge; [|exact Hk]; reflexivity.
  - intros k Hk. split; [|by eapply index_of_lt].
    eapply index_of_delim_ge; [|exact Hk]; reflexivity.
  - intros k Hk. split; [|by eapply index_of_lt].
    eapply index_of_delim_ge; [|exact Hk]; reflexivity.
  - destruct (from_delim_cases rest) as [[H1 H2]|(c & tl & H1 & H2 & H3)].
    + left. rewrite !H2 by done. split; [|done].
      rewrite <- (before_from_delim rest) at 2. rewrite H1, app_nil_r_str. done.
    + right. destruct (is_delim_cases c H2) as [->|[->| ->]]; auto.
Qed.

Lemma str_all_before_delim (q : ascii → bool) (s : string) :
  str_all q s = true → str_all q (before_delim s) = true.
Proof.
  induction s as [|c s IH]; simpl; [done|].
  intros [H1 H2]%andb_true_iff. destruct (is_delim c); simpl; [done|].
  by rewrite H1, IH.
Qed.

Lemma str_all_from_delim (q : ascii → bool) (s : string) :
  str_all q s = true → str_all q (from_delim s) = true.
Proof.
  induction s as [|c s IH]; simpl; [done|].
  intros H. destruct (is_delim c); [done|].
  apply andb_true_iff in H as [_ H]. auto.
Qed.

Lemma before_delim_app (n p : string) :
  str_all (fun c => negb (is_delim c)) n = true →
  p = EmptyString ∨ startswith "/" p = true →
  before_delim (n +:+ p) = n ∧ from_delim (n +:+ p) = p.
Proof.
  intros Hn Hp. induction n as [|c n IH].
  - rewrite app_nil_l_str. destruct Hp as [->|Hp]; [done|].
    destruct p as [|d p]; [done|].
    change (startswith "/" (String d p)) with (Ascii.eqb "/" d && true) in Hp.
    apply andb_true_iff in Hp as [Hd _]. apply Ascii.eqb_eq in Hd as <-. done.
  - rewrite app_cons_str. simpl in *.
    apply andb_true_iff in Hn as [H1 H2]. apply negb_true_iff in H1.
    rewrite H1. destruct (IH H2) as [-> ->]. done.
Qed.

(** ** Characters of a scheme *)

Lemma lower_char_idem (c : ascii) : lower_char (lower_char c) = lower_char c.
Proof. by destruct c as [[] [] [] [] [] [] [] []]. Qed.

Lemma scheme_char_lower (c : ascii) :
  in_scheme_chars c = true → in_scheme_chars (lower_char c) = true.
Proof. by destruct c as [[] [] [] [] [] [] [] []]. Qed.

Lemma scheme_char_safe (c : ascii) :
  in_scheme_chars c = true → negb (is_unsafe c) = true.
Proof. by destruct c as [[] [] [] [] [] [] [] []]. Qed.

Lemma alpha_char_lower (c : ascii) :
  isascii_alpha c = true → isascii_alpha (lower_char c) = true.
Proof. by destruct c as [[] [] [] [] [] [] [] []]. Qed.

Lemma alpha_char_facts (c : ascii) :
  isascii_alpha c = true →
  c0_control_or_space c = false ∧ isspace c = false
  ∧ Ascii.eqb "/" c = false.
Proof. by destruct c as [[] [] [] [] [] [] [] []]. Qed.

Lemma str_all_map (p q : ascii → bool) (f : ascii → ascii) (s : string) :
  (∀ c, q c = true → p (f c) = true) →
  str_all q s = true → str_all p (str_map f s) = true.
Proof.
  intros Hf. induction s as [|c s IH]; simpl; [done|].
  intros [H1 H2]%andb_true_iff. by rewrite (Hf _ H1), IH.
Qed.

Lemma lower_idem (s : string) : lower (lower s) = lower s.
Proof.
  unfold lower. induction s as [|c s IH]; simpl; [done|].
  by rewrite lower_char_idem, IH.
Qed.

Lemma take_map (f : ascii → ascii) (n : nat) (s : string) :
  take n (str_map f s) = str_map f (take n s).
Proof.
  revert n. induction s as [|c s IH]; intros [|n]; simpl; try done.
  by rewrite IH.
Qed.

Lemma truthy_map (f : ascii → ascii) (s : string) :
  truthy (str_map f s) = truthy s.
Proof. by destruct s. Qed.

Lemma take_take (n m : nat) (s : string) :
  (n ≤ m)%nat → take n (take m s) = take n s.
Proof.
  revert n m. induction s as [|c s IH]; intros [|n] [|m] H; simpl; try done; try lia.
  rewrite IH; [done|lia].
Qed.

Lemma good_scheme_https : good_scheme "https".
Proof. by repeat split. Qed.

Lemma good_scheme_lower (t : string) :
  truthy t = true →
  str_all isascii_alpha (take 1 t) = true →
  str_all in_scheme_chars t = true →
  good_scheme (lower t).
Proof.
  intros Ht Ha Hs. unfold good_scheme, lower. repeat split.
  - rewrite take_map. revert Ha. apply str_all_map, alpha_char_lower.
  - by rewrite truthy_map.
  - revert Hs. apply str_all_map, scheme_char_lower.
  - apply lower_idem.
Qed.

Lemma good_scheme_facts (s : string) :
  good_scheme s →
  ∃ (c : ascii) (s' : string),
    s = String c s' ∧ isascii_alpha c = true
    ∧ contains_char ":" s = false
    ∧ str_all (fun c => negb (is_unsafe c)) s = true.
Proof.
  intros (Ha & Ht & Hs & _). destruct s as [|c s']; [done|].
  exists c, s'. split; [done|]. simpl in Ha.
  apply andb_true_iff in Ha as [Ha _]. split; [done|]. split.
  - by apply (str_all_no_char in_scheme_chars).
  - revert Hs. apply str_all_impl, scheme_char_safe.
Qed.

(** ** [urlunsplit] on a scheme and a host *)

Lemma eqb_slice1_startswith (p : string) :
  String.eqb (slice None (Some 1%Z) p) "/" = startswith "/" p.
Proof.
  rewrite slice_to by lia. destruct p as [|c [|d p]]; try done.
Qed.

Lemma urlunsplit_normalized (s n p : string) :
  truthy s = true → truthy n = true →
  urlunsplit (mkSplitResult s n p EmptyString EmptyString)
  = s +:+ ":" +:+ "//" +:+ n
      +:+ (if truthy p && negb (startswith "/" p) then "/" +:+ p else p).
Proof.
  intros Hs Hn. unfold urlunsplit.
  cbn [scheme netloc path query fragment].
  rewrite Hs, Hn, eqb_slice1_startswith.
  cbn [orb truthy]. reflexivity.
Qed.

(** ** [urlsplit] on a URL in normal form *)

Lemma str_all_safe_no_unsafe (s : string) :
  str_all (fun c => negb (is_unsafe c)) s = true →
  contains_char "009" s = false ∧ contains_char "013" s = false
  ∧ contains_char "010" s = false.
Proof.
  intros H. repeat split;
    by apply (str_all_no_char (fun c => negb (is_unsafe c))).
Qed.

Lemma brackets_ok_some {A} (n : string) (x : A) :
  brackets_ok n = true →
  (if (contains_char "[" n && negb (contains_char "]" n))
      || (contains_char "]" n && negb (contains_char "[" n))
   then None
   else if contains_char "[" n && contains_char "]" n
        then if check_bracketed_netloc n then Some x else None
        else Some x) = Some x.
Proof.
  unfold brackets_ok.
  destruct (contains_char "[" n), (contains_char "]" n); simpl; try done.
  by destruct (check_bracketed_netloc n).
Qed.

Lemma brackets_ok_if {A} (n : string) (x : A) :
  (if (contains_char "[" n && negb (contains_char "]" n))
      || (contains_char "]" n && negb (contains_char "[" n))
   then None
   else if contains_char "[" n && contains_char "]" n
        then if check_bracketed_netloc n then Some x else None
        else Some x)
  = if brackets_ok n then Some x else None.
Proof.
  unfold brackets_ok.
  destruct (contains_char "[" n), (contains_char "]" n); simpl; try done.
Qed.

(** After a scheme and two slashes: the host is the text before the
    first delimiter, and the path is the rest *)
Lemma urlsplit_after_scheme (s t : string) :
  good_scheme s →
  str_all (fun c => negb (is_unsafe c)) t = true →
  contains_char "#" t = false → contains_char "?" t = false →
  urlsplit (s +:+ ":" +:+ "//" +:+ t)
  = if brackets_ok (before_delim t)
    then Some (mkSplitResult s (before_delim t) (from_delim t)
                 EmptyString EmptyString)
    else None.
Proof.
  intros Hs Ht1 Ht2 Ht3.
  destruct (good_scheme_facts s Hs) as (c & s' & Es & Hc & Hcolon & Hsafe).
  destruct (alpha_char_facts c Hc) as (Hc0 & _ & _).
  set (rest := "//" +:+ t).
  set (r := s +:+ ":" +:+ rest).
  assert (Hr_safe : str_all (fun c => negb (is_unsafe c)) r = true).
  { unfold r, rest. rewrite !str_all_app, Hsafe, Ht1. done. }
  destruct (str_all_safe_no_unsafe r Hr_safe) as (Ht & Hcr & Hlf).
  unfold urlsplit.
  assert (E1 : lstrip_by c0_control_or_space r = r).
  { unfold r. rewrite Es, app_cons_str. by apply lstrip_by_id. }
  rewrite E1. cbn [fold_left unsafe_url_bytes_to_remove].
  rewrite (remove_char_id "009" r Ht), (remove_char_id "013" r Hcr),
    (remove_char_id "010" r Hlf).
  assert (Efind : find ":" r = Z.of_nat (String.length s)).
  { unfold find. rewrite find_from_drop by (unfold len; lia).
    change (drop (Z.to_nat 0) r) with r. unfold r.
    change (":" +:+ rest) with (String ":" rest).
    rewrite index_of_app by done. lia. }
  rewrite Efind.
  assert (Hlen : (0 < String.length s)%nat) by (rewrite Es; simpl; lia).
  assert (E2 : slice None (Some (Z.of_nat (String.length s))) r = s).
  { rewrite slice_to by lia. rewrite Nat2Z.id. apply take_length_app. }
  assert (E3 : slice (Some 0%Z) (Some 1%Z) r = take 1 s).
  { rewrite slice_mid by lia. change (drop (Z.to_nat 0) r) with r.
    change (Z.to_nat 1 - Z.to_nat 0)%nat with 1%nat.
    unfold r. by rewrite Es, app_cons_str. }
  assert (E4 : slice (Some (Z.of_nat (String.length s) + 1)%Z) None r = rest).
  { rewrite slice_from by lia.
    replace (Z.to_nat (Z.of_nat (String.length s) + 1))
      with (String.length (s +:+ ":")) by (rewrite length_app_str; simpl; lia).
    unfold r. rewrite <- (app_assoc_str s ":" rest). apply drop_length_app. }
  rewrite E2, E3, E4.
  destruct Hs as (Ha & _ & Hsc & Hlow).
  rewrite Ha, Hsc, Hlow.
  replace (0 <? Z.of_nat (String.length s))%Z with true
    by (symmetry; apply Z.ltb_lt; lia).
  cbn [andb].
  assert (E5 : slice None (Some 2%Z) rest = "//").
  { rewrite slice_to by lia. done. }
  rewrite E5. cbn [String.eqb Ascii.eqb Bool.eqb].
  unfold rest. rewrite splitnetloc_slashes.
  rewrite (brackets_ok_if (before_delim t) (before_delim t, from_delim t)).
  destruct (brackets_ok (before_delim t)); [|done].
  cbn [mbind option_bind].
  assert (E6 : contains_char "#" (from_delim t) = false).
  { apply contains_char_false, str_all_from_delim. by apply contains_char_false. }
  assert (E7 : contains_char "?" (from_delim t) = false).
  { apply contains_char_false, str_all_from_delim. by apply contains_char_false. }
  rewrite E6, E7. unfold checknetloc.
  by destruct (negb (truthy (before_delim t)) || str_all isascii (before_delim t)).
Qed.

Lemma urlsplit_canonical (s n p : string) :
  good_scheme s → good_netloc n → good_path p →
  urlsplit (s +:+ ":" +:+ "//" +:+ n +:+ p)
  = Some (mkSplitResult s n p EmptyString EmptyString).
Proof.
  intros Hs (Hn1 & Hn2 & Hn3 & Hn4) (Hp1 & Hp2 & Hp3 & Hp4 & Hp5).
  rewrite urlsplit_after_scheme; try done.
  - destruct (before_delim_app n p Hn2 Hp1) as [-> ->]. by rewrite Hn4.
  - by rewrite str_all_app, Hn3, Hp4.
  - apply contains_char_false. rewrite str_all_app.
    apply andb_true_iff. split; [|by apply contains_char_false].
    revert Hn2. apply str_all_impl. by intros [[] [] [] [] [] [] [] []].
  - apply contains_char_false. rewrite str_all_app.
    apply andb_true_iff. split; [|by apply contains_char_false].
    revert Hn2. apply str_all_impl. by intros [[] [] [] [] [] [] [] []].
Qed.

Lemma normalize_canonical (s n p : string) :
  good_scheme s → good_netloc n → good_path p →
  no_trailing_space (s +:+ ":" +:+ "//" +:+ n +:+ p) →
  normalize_server_url (s +:+ ":" +:+ "//" +:+ n +:+ p)
  = Some (s +:+ ":" +:+ "//" +:+ n +:+ p).
Proof.
  intros Hs Hn Hp Hsp.
  destruct (good_scheme_facts s Hs) as (c & s' & Es & Hc & _ & _).
  destruct (alpha_char_facts c Hc) as (_ & Hspace & Hslash).
  set (r := s +:+ ":" +:+ "//" +:+ n +:+ p) in *.
  assert (Er : r = String c (s' +:+ ":" +:+ "//" +:+ n +:+ p))
    by (unfold r; by rewrite Es, app_cons_str).
  unfold normalize_server_url.
  assert (E1 : truthy r = true) by by rewrite Er.
  assert (E2 : strip r = r).
  { unfold strip. rewrite Er at 1. rewrite lstrip_by_id by done.
    rewrite <- Er. exact Hsp. }
  assert (E3 : startswith "/server/" r = false).
  { rewrite Er.
    change (startswith "/server/" (String c ?t))
      with (Ascii.eqb "/" c && startswith "server/" t).
    by rewrite Hslash. }
  rewrite E1, E2, E3. cbn [negb].
  unfold r. rewrite (urlsplit_canonical s n p Hs Hn Hp).
  cbn [mbind option_bind scheme netloc path].
  destruct Hs as (_ & Hts & _). destruct Hn as (Htn & _).
  destruct Hp as (Hp1 & _ & _ & _ & Hp5).
  rewrite Hts, Htn, Hp5, urlunsplit_normalized by done.
  destruct Hp1 as [->|Hp1]; [done|]. rewrite Hp1.
  by rewrite andb_false_r.
Qed.

(** ** What [urlsplit] returns *)

Lemma str_all_safe_intro (s : string) :
  contains_char "009" s = false → contains_char "013" s = false →
  contains_char "010" s = false →
  str_all (fun c => negb (is_unsafe c)) s = true.
Proof.
  unfold contains_char, is_unsafe. induction s as [|c s IH]; simpl; [done|].
  intros [H1 H1']%orb_false_iff [H2 H2']%orb_false_iff [H3 H3']%orb_false_iff.
  rewrite H1, H2, H3. simpl. auto.
Qed.

Lemma contains_char_remove (c d : ascii) (s : string) :
  contains_char c s = false → contains_char c (remove_char d s) = false.
Proof.
  rewrite !contains_char_false. apply str_all_remove_char.
Qed.

Lemma contains_char_removed (c : ascii) (s : string) :
  contains_char c (remove_char c s) = false.
Proof. rewrite contains_char_false. apply remove_char_gone. Qed.

Lemma slice2_slashes (s : string) :
  String.eqb (slice None (Some 2%Z) s) "//" = true →
  ∃ rest : string, s = "//" +:+ rest.
Proof.
  rewrite slice_to by lia. intros H%String.eqb_eq.
  destruct s as [|a [|b s]]; try discriminate.
  injection H as -> ->. by exists s.
Qed.

Lemma partition_before (c : ascii) (s : string) :
  contains_char c (partition c s).1.1 = false
  ∧ ∀ q, str_all q s = true → str_all q (partition c s).1.1 = true.
Proof.
  unfold contains_char. induction s as [|d s IH]; simpl; [done|].
  destruct (Ascii.eqb c d) eqn:E; simpl; [done|].
  destruct (partition c s) as [[a f] b]. simpl in *.
  destruct IH as [IH1 IH2]. rewrite E, IH1. split; [done|].
  intros q [H1 H2]%andb_true_iff. by rewrite H1, IH2.
Qed.

Lemma brackets_some_inv {A} (n : string) (x y : A) :
  (if (contains_char "[" n && negb (contains_char "]" n))
      || (contains_char "]" n && negb (contains_char "[" n))
   then None
   else if contains_char "[" n && contains_char "]" n
        then if check_bracketed_netloc n then Some x else None
        else Some x) = Some y →
  brackets_ok n = true ∧ x = y.
Proof.
  unfold brackets_ok.
  destruct (contains_char "[" n), (contains_char "]" n); simpl; try done;
    try (by intros [= ->]).
  destruct (check_bracketed_netloc n); [by intros [= ->]|done].
Qed.

Lemma urlsplit_inv (u : string) (p : SplitResult) :
  urlsplit u = Some p →
  (scheme p = EmptyString ∨ good_scheme (scheme p))
  ∧ (netloc p = EmptyString ∨ good_netloc (netloc p))
  ∧ contains_char "#" (path p) = false
  ∧ contains_char "?" (path p) = false
  ∧ str_all (fun c => negb (is_unsafe c)) (path p) = true.
Proof.
  unfold urlsplit. cbn [fold_left unsafe_url_bytes_to_remove].
  set (u2 := remove_char "010" (remove_char "013" (remove_char "009" _))).
  assert (Hu2 : str_all (fun c => negb (is_unsafe c)) u2 = true).
  { apply str_all_safe_intro; unfold u2.
    - apply contains_char_remove, contains_char_remove, contains_char_removed.
    - apply contains_char_remove, contains_char_removed.
    - apply contains_char_removed. }
  clearbody u2.
  set (cond := ((0 <? find ":" u2)%Z
                && str_all isascii_alpha (slice (Some 0%Z) (Some 1%Z) u2)
                && str_all in_scheme_chars (slice None (Some (find ":" u2)) u2))).
  assert (Hsch : ∃ (sch url3 : string),
            (if cond
             then (lower (slice None (Some (find ":" u2)) u2),
                   slice (Some (find ":" u2 + 1)%Z) None u2)
             else (EmptyString, u2)) = (sch, url3)
            ∧ (sch = EmptyString ∨ good_scheme sch)
            ∧ str_all (fun c => negb (is_unsafe c)) url3 = true).
  { destruct cond eqn:Ec.
    - do 2 eexists. split; [reflexivity|]. split; [|by apply str_all_slice].
      right. unfold cond in Ec.
      apply andb_true_iff in Ec as [[E1 E2]%andb_true_iff E3].
      apply Z.ltb_lt in E1.
      rewrite slice_mid in E2 by lia.
      change (drop (Z.to_nat 0) u2) with u2 in E2.
      change (Z.to_nat 1 - Z.to_nat 0)%nat with 1%nat in E2.
      rewrite slice_to in E3 |- * by lia.
      assert (Hn : (1 ≤ Z.to_nat (find ":" u2))%nat) by lia.
      apply good_scheme_lower; [|by rewrite take_take|done].
      destruct u2 as [|a u2]; [done|].
      destruct (Z.to_nat (find ":" (String a u2))); [lia|done].
    - do 2 eexists. split; [reflexivity|]. split; [by left|done]. }
  destruct Hsch as (sch & url3 & -> & Hsch & Hu3).
  match goal with
  | |- (?step ≫= _) = _ → _ => destruct step as [[n url4]|] eqn:Est
  end; [|done].
  assert (Hn : (n = EmptyString ∨ good_netloc n)
               ∧ str_all (fun c => negb (is_unsafe c)) url4 = true).
  { destruct (String.eqb (slice None (Some 2%Z) url3) "//") eqn:Ess.
    - destruct (slice2_slashes _ Ess) as (rest & ->).
      rewrite splitnetloc_slashes in Est.
      apply brackets_some_inv in Est as [Hb [= <- <-]].
      change ("//" +:+ rest) with (String "/" (String "/" rest)) in Hu3.
      simpl in Hu3. split; [|by apply str_all_from_delim].
      destruct (before_delim rest) eqn:Eb; [by left|]. right.
      rewrite <- Eb in *. repeat split; try done.
      + by rewrite Eb.
      + apply before_delim_no_delim.
      + by apply str_all_before_delim.
    - injection Est as <- <-. split; [by left|done]. }
  destruct Hn as [Hn Hu4]. cbn [mbind option_bind].
  set (url5 := if contains_char "#" url4 then (partition "#" url4).1.1 else url4).
  set (url6 := if contains_char "?" url5 then (partition "?" url5).1.1 else url5).
  assert (H5 : contains_char "#" url5 = false
               ∧ str_all (fun c => negb (is_unsafe c)) url5 = true).
  { unfold url5. destruct (contains_char "#" url4) eqn:E; [|done].
    destruct (partition_before "#" url4) as [H1 H2]. auto. }
  assert (H6 : contains_char "#" url6 = false
               ∧ contains_char "?" url6 = false
               ∧ str_all (fun c => negb (is_unsafe c)) url6 = true).
  { destruct H5 as [H5a H5b]. unfold url6.
    destruct (contains_char "?" url5) eqn:E; [|done].
    destruct (partition_before "?" url5) as [H1 H2].
    split; [|auto]. apply contains_char_false, H2. by apply contains_char_false. }
  assert (Hres : ∀ q f : string,
            path (mkSplitResult sch n url6 q f) = url6) by done.
  intros H.
  assert (Hp : scheme p = sch ∧ netloc p = n ∧ path p = url6).
  { revert H. unfold url6, url5.
    destruct (contains_char "#" url4);
      [destruct (partition "#" url4) as [[a1 f1] b1]|]; simpl;
      (match goal with
       | |- context [contains_char "?" ?x] =>
           destruct (contains_char "?" x);
           [destruct (partition "?" x) as [[a2 f2] b2]|]
       end); simpl;
      destruct (checknetloc n); try done; by intros [= <-]. }
  destruct Hp as (-> & -> & ->). done.
Qed.

(** ** The URL normalizer *)

Lemma good_netloc_default : good_netloc "smithery.ai".
Proof. by repeat split. Qed.

Lemma good_path_normalized (p0 : string) :
  contains_char "#" p0 = false → contains_char "?" p0 = false →
  str_all (fun c => negb (is_unsafe c)) p0 = true →
  let p := rstrip_by (Ascii.eqb "/") p0 in
  good_path (if truthy p && negb (startswith "/" p) then "/" +:+ p else p).
Proof.
  intros H1 H2 H3 p.
  assert (Hp1 : contains_char "#" p = false).
  { apply contains_char_false, str_all_rstrip. by apply contains_char_false. }
  assert (Hp2 : contains_char "?" p = false).
  { apply contains_char_false, str_all_rstrip. by apply contains_char_false. }
  assert (Hp3 : str_all (fun c => negb (is_unsafe c)) p = true)
    by by apply str_all_rstrip.
  assert (Hp4 : rstrip_by (Ascii.eqb "/") p = p) by apply rstrip_by_idem.
  clearbody p. unfold good_path.
  destruct p as [|c p]; cbn [truthy andb]; [split; [by left|by repeat split]|].
  destruct (startswith "/" (String c p)) eqn:Es; cbn [negb].
  - repeat split; try done. by right.
  - change ("/" +:+ String c p) with (String "/" (String c p)).
    repeat split; try done; [by right|].
    change (rstrip_by ?q (String "/" ?t))
      with (match rstrip_by q t with
            | EmptyString => if q "/"%char then EmptyString else String "/" EmptyString
            | r => String "/" r
            end).
    by rewrite Hp4.
Qed.

Lemma normalize_shape (x r : string) :
  truthy x = true → normalize_server_url x = Some r →
  ∃ s n p : string,
    good_scheme s ∧ good_netloc n ∧ good_path p
    ∧ r = s +:+ ":" +:+ "//" +:+ n +:+ p.
Proof.
  intros Hx. unfold normalize_server_url. rewrite Hx. cbn [negb].
  destruct (urlsplit _) as [parsed|] eqn:E; [|done].
  apply urlsplit_inv in E as (Hs & Hn & H1 & H2 & H3).
  cbn [mbind option_bind]. intros [= <-].
  set (s := if truthy (scheme parsed) then scheme parsed else "https").
  set (n := if truthy (netloc parsed) then netloc parsed else "smithery.ai").
  assert (Hgs : good_scheme s).
  { unfold s. destruct Hs as [->|Hs]; [apply good_scheme_https|].
    pose proof Hs as (_ & Ht & _). by rewrite Ht. }
  assert (Hgn : good_netloc n).
  { unfold n. destruct Hn as [->|Hn]; [apply good_netloc_default|].
    pose proof Hn as (Ht & _). by rewrite Ht. }
  do 3 eexists. split; [exact Hgs|]. split; [exact Hgn|].
  split; [exact (good_path_normalized (path parsed) H1 H2 H3)|].
  apply urlunsplit_normalized; [by destruct Hgs as (_ & ? & _)|by destruct Hgn].
Qed.

Lemma rstrip_by_app (q : ascii → bool) (a b : string) :
  rstrip_by q (a +:+ b)
  = match rstrip_by q b with
    | EmptyString => rstrip_by q a
    | rb => a +:+ rb
    end.
Proof.
  induction a as [|c a IH].
  - rewrite app_nil_l_str. by destruct (rstrip_by q b).
  - rewrite app_cons_str. simpl. rewrite IH.
    destruct (rstrip_by q b) as [|d rb]; [done|].
    rewrite app_cons_str. by destruct a.
Qed.

Lemma rstrip_by_split (q : ascii → bool) (t : string) :
  ∃ w : string, t = rstrip_by q t +:+ w ∧ str_all q w = true.
Proof.
  induction t as [|c t (w & Hw & Hq)]; [by exists EmptyString|].
  simpl. destruct (rstrip_by q t) as [|d r] eqn:E.
  - rewrite app_nil_l_str in Hw. subst w.
    destruct (q c) eqn:Ec.
    + exists (String c t). split; [done|]. simpl. by rewrite Ec.
    + exists t. by split.
  - exists w. split; [|done]. by rewrite app_cons_str, <- Hw.
Qed.

Lemma length_rstrip_le (q : ascii → bool) (t : string) :
  (String.length (rstrip_by q t) ≤ String.length t)%nat.
Proof.
  destruct (rstrip_by_split q t) as (w & Hw & _).
  rewrite Hw at 2. rewrite length_app_str. lia.
Qed.

Lemma rstrip_by_head (q : ascii → bool) (c : ascii) (t : string) :
  rstrip_by q (String c t) = EmptyString
  ∨ ∃ t' : string, rstrip_by q (String c t) = String c t'.
Proof.
  simpl. destruct (rstrip_by q t); [|by eauto].
  destruct (q c); eauto.
Qed.

Lemma from_delim_head (t : string) :
  from_delim t = EmptyString
  ∨ ∃ (c : ascii) (t' : string), from_delim t = String c t' ∧ is_delim c = true.
Proof.
  induction t as [|c t IH]; simpl; [by left|].
  destruct (is_delim c) eqn:E; [|done]. right. eauto.
Qed.

Lemma length_zero_str (s : string) : String.length s = 0%nat → s = EmptyString.
Proof. by destruct s. Qed.

Lemma rstrip_by_cons_keep (q : ascii → bool) (c : ascii) (t : string) :
  q c = false → rstrip_by q (String c t) = String c (rstrip_by q t).
Proof. intros H. simpl. destruct (rstrip_by q t); by rewrite ?H. Qed.

Lemma from_delim_slash (t : string) :
  contains_char "#" t = false → contains_char "?" t = false →
  from_delim t = EmptyString ∨ ∃ u : string, from_delim t = String "/" u.
Proof.
  unfold contains_char. induction t as [|c t IH]; simpl; [by left|].
  intros [H1 H1']%orb_false_iff [H2 H2']%orb_false_iff.
  destruct (is_delim c) eqn:E; [|by apply IH].
  right. exists t. f_equal.
  destruct (is_delim_cases c E) as [->|[->| ->]]; [done| |].
  - vm_compute in H2. discriminate H2.
  - vm_compute in H1. discriminate H1.
Qed.

(** A fixed point of the normalizer has no trailing white space. *)
Lemma normalize_fixed_no_trailing_space (s n p : string) :
  good_scheme s → good_netloc n → good_path p →
  normalize_server_url (s +:+ ":" +:+ "//" +:+ n +:+ p)
  = Some (s +:+ ":" +:+ "//" +:+ n +:+ p) →
  no_trailing_space (s +:+ ":" +:+ "//" +:+ n +:+ p).
Proof.
  intros Hs Hn Hp.
  destruct (good_scheme_facts s Hs) as (c & s' & Es & Hc & _ & _).
  destruct (alpha_char_facts c Hc) as (_ & Hspace & Hslash).
  set (t := n +:+ p).
  assert (Ht_safe : str_all (fun c => negb (is_unsafe c)) t = true).
  { unfold t. destruct Hn as (_ & _ & Hn3 & _), Hp as (_ & _ & _ & Hp4 & _).
    by rewrite str_all_app, Hn3, Hp4. }
  assert (Ht_hash : contains_char "#" t = false).
  { unfold t. apply contains_char_false. rewrite str_all_app.
    destruct Hn as (_ & Hn2 & _), Hp as (_ & Hp2 & _).
    apply andb_true_iff. split; [|by apply contains_char_false].
    revert Hn2. apply str_all_impl. by intros [[] [] [] [] [] [] [] []]. }
  assert (Ht_query : contains_char "?" t = false).
  { unfold t. apply contains_char_false. rewrite str_all_app.
    destruct Hn as (_ & Hn2 & _), Hp as (_ & _ & Hp3 & _).
    apply andb_true_iff. split; [|by apply contains_char_false].
    revert Hn2. apply str_all_impl. by intros [[] [] [] [] [] [] [] []]. }
  destruct (rstrip_by_split isspace t) as (w & Hw & Hwq).
  set (t0 := rstrip_by isspace t) in *.
  assert (Ht0_hash : contains_char "#" t0 = false)
    by by apply contains_char_false, str_all_rstrip, contains_char_false.
  assert (Ht0_query : contains_char "?" t0 = false)
    by by apply contains_char_false, str_all_rstrip, contains_char_false.
  assert (Estrip : rstrip_by isspace (s +:+ ":" +:+ "//" +:+ t)
                   = s +:+ ":" +:+ "//" +:+ t0).
  { change (":" +:+ "//" +:+ t) with (String ":" (String "/" (String "/" t))).
    rewrite rstrip_by_app, !rstrip_by_cons_keep by done. done. }
  unfold no_trailing_space. fold t. rewrite Estrip.
  intros H.
  assert (Er : s +:+ ":" +:+ "//" +:+ t = String c (s' +:+ ":" +:+ "//" +:+ t))
    by (by rewrite Es, app_cons_str).
  assert (E1 : truthy (s +:+ ":" +:+ "//" +:+ t) = true) by by rewrite Er.
  assert (E2 : strip (s +:+ ":" +:+ "//" +:+ t) = s +:+ ":" +:+ "//" +:+ t0).
  { unfold strip. rewrite Er at 1. rewrite lstrip_by_id by done.
    rewrite <- Er. exact Estrip. }
  assert (E3 : startswith "/server/" (s +:+ ":" +:+ "//" +:+ t0) = false).
  { rewrite Es, app_cons_str.
    change (startswith "/server/" (String c ?u))
      with (Ascii.eqb "/" c && startswith "server/" u).
    by rewrite Hslash. }
  unfold normalize_server_url in H. rewrite E1, E2, E3 in H. cbn [negb] in H.
  rewrite urlsplit_after_scheme in H by (try done; by apply str_all_rstrip).
  destruct (brackets_ok (before_delim t0)); [|done].
  cbn [mbind option_bind scheme netloc path] in H.
  pose proof Hs as (_ & Hts & _). rewrite Hts in H.
  set (n0 := before_delim t0) in *.
  set (p0 := rstrip_by (Ascii.eqb "/") (from_delim t0)) in *.
  assert (Hp0 : (if truthy p0 && negb (startswith "/" p0) then "/" +:+ p0 else p0)
                = p0).
  { unfold p0. destruct (from_delim_slash t0 Ht0_hash Ht0_query) as [->|(u & ->)];
      [done|].
    by destruct (rstrip_by_head (Ascii.eqb "/") "/" u) as [->|(u' & ->)]. }
  assert (Hsplit : n0 +:+ from_delim t0 = t0) by apply before_from_delim.
  assert (Hlen0 : (String.length p0 ≤ String.length (from_delim t0))%nat)
    by apply length_rstrip_le.
  assert (Hgoal : w = EmptyString → s +:+ ":" +:+ "//" +:+ t0 = s +:+ ":" +:+ "//" +:+ t).
  { intros ->. by rewrite Hw, app_nil_r_str. }
  apply Hgoal. apply length_zero_str.
  pose proof (eq_refl : t = n +:+ p) as Et.
  pose proof (eq_refl : p0 = rstrip_by (Ascii.eqb "/") (from_delim t0)) as Ep0.
  clearbody p0 n0. clearbody t0. clearbody t.
  destruct (truthy n0) eqn:En0;
    rewrite urlunsplit_normalized, Hp0 in H by done;
    injection H as H; apply (inj (String.app s)) in H; injection H as H;
    rewrite ?app_nil_l_str in H.
  - apply (f_equal String.length) in H.
    apply (f_equal String.length) in Hw, Hsplit.
    rewrite !length_app_str in *. lia.
  - destruct n0; [|done]. rewrite app_nil_l_str in Hsplit.
    destruct Hn as (Hn1 & Hn2 & _). destruct n as [|cn n']; [done|].
    simpl in Hn2. apply andb_true_iff in Hn2 as [Hcn _].
    destruct (from_delim_slash t0 Ht0_hash Ht0_query) as [E|(u & E)];
      rewrite E in *; subst t0.
    + rewrite app_nil_l_str in Hw. subst p0 w. rewrite <- H in Hwq.
      discriminate Hwq.
    + rewrite Et, !app_cons_str in Hw. injection Hw as -> _. discriminate Hcn.
Qed.

(** C4, as the code has it: a result [r] of the normalizer is a fixed
    point of the normalizer exactly when it has no trailing white
    space, and the relative form ["/server/foo/"] and the absolute form
    with a query ["https://smithery.ai/server/foo?x=1"] normalize to
    the same URL. *)
Theorem normalize_idempotent (x r : string) :
  normalize_server_url x = Some r →
  (normalize_server_url r = Some r ↔ no_trailing_space r)
  ∧ normalize_server_url "/server/foo/" = Some "https://smithery.ai/server/foo"
  ∧ normalize_server_url "https://smithery.ai/server/foo?x=1"
    = Some "https://smithery.ai/server/foo".
Proof.
  intros Hx. split; [|by split; vm_compute].
  destruct (truthy x) eqn:Et.
  - destruct (normalize_shape x r Et Hx) as (s & n & p & Hs & Hn & Hp & ->).
    split.
    + by apply normalize_fixed_no_trailing_space.
    + by apply normalize_canonical.
  - destruct x; [|done]. by injection Hx as <-.
Qed.

Lemma normalize_idempotent_witness :
  (normalize_server_url "https://smithery.ai/server/foo"
   = Some "https://smithery.ai/server/foo"
   ↔ no_trailing_space "https://smithery.ai/server/foo")
  ∧ normalize_server_url "/server/foo/" = Some "https://smithery.ai/server/foo"
  ∧ normalize_server_url "https://smithery.ai/server/foo?x=1"
    = Some "https://smithery.ai/server/foo".
Proof.
  apply (normalize_idempotent "/server/foo/" "https://smithery.ai/server/foo").
  vm_compute. reflexivity.
Defined.

(** The claim of C4 fails as stated: a space before the trailing slash
    survives the first normalization and is stripped by the second. *)
Lemma normalize_not_idempotent :
  normalize_server_url "/server/foo /" = Some "https://smithery.ai/server/foo "
  ∧ normalize_server_url "https://smithery.ai/server/foo "
    = Some "https://smithery.ai/server/foo".
Proof. split; vm_compute; reflexivity. Qed.

(** C6, as the code has it: on the empty string the normalizer returns
    the empty string, which its callers test and skip; on any other
    input on which it returns, the result is not empty. *)
Theorem normalize_empty_result (x r : string) :
  normalize_server_url x = Some r →
  normalize_server_url EmptyString = Some EmptyString
  ∧ (r = EmptyString ↔ x = EmptyString).
Proof.
  intros Hx. split; [done|]. split.
  - intros ->. destruct (truthy x) eqn:Et; [|by destruct x].
    destruct (normalize_shape x _ Et Hx) as (s & n & p & Hs & _ & _ & Hr).
    destruct (good_scheme_facts s Hs) as (c & s' & -> & _). done.
  - intros ->. by injection Hx as <-.
Qed.

Lemma normalize_empty_result_witness :
  normalize_server_url EmptyString = Some EmptyString
  ∧ ("https://smithery.ai/server/foo" = EmptyString
     ↔ "/server/foo/" = EmptyString).
Proof.
  apply (normalize_empty_result "/server/foo/" "https://smithery.ai/server/foo").
  vm_compute. reflexivity.
Defined.

(** The claim of C6 fails as stated: the empty input gives the empty
    string, and an input that cannot be parsed raises. *)
Lemma normalize_empty_is_empty_string :
  normalize_server_url EmptyString = Some EmptyString
  ∧ normalize_server_url "//[" = None.
Proof. split; vm_compute; reflexivity. Qed.

Lemma no_brackets_all (s : string) :
  contains_char "[" s = false → contains_char "]" s = false →
  str_all not_bracket s = true.
Proof.
  unfold contains_char, not_bracket. induction s as [|c s IH]; simpl; [done|].
  intros [H1 H1']%orb_false_iff [H2 H2']%orb_false_iff.
  rewrite H1, H2. simpl. auto.
Qed.

Lemma all_no_brackets (s : string) :
  str_all not_bracket s = true →
  contains_char "[" s = false ∧ contains_char "]" s = false.
Proof.
  intros H. split; by apply (str_all_no_char not_bracket).
Qed.

Lemma urlsplit_without_brackets (u : string) :
  str_all not_bracket u = true → ∃ p : SplitResult, urlsplit u = Some p.
Proof.
  intros Hu. unfold urlsplit. cbn [fold_left unsafe_url_bytes_to_remove].
  set (u2 := remove_char "010" (remove_char "013" (remove_char "009" _))).
  assert (Hu2 : str_all not_bracket u2 = true).
  { unfold u2. by do 3 apply str_all_remove_char; apply str_all_lstrip. }
  clearbody u2.
  match goal with
  | |- context [if ?c then (?a, ?b) else (?a', ?b')] =>
      assert (Hsch : ∃ sch url3 : string,
                (if c then (a, b) else (a', b')) = (sch, url3)
                ∧ str_all not_bracket url3 = true)
  end.
  { match goal with |- context [if ?c then _ else _] => destruct c end;
      do 2 eexists; (split; [reflexivity|]); [by apply str_all_slice|done]. }
  destruct Hsch as (sch & url3 & -> & Hu3).
  match goal with
  | |- ∃ p, (?step ≫= _) = _ =>
      assert (Hstep : ∃ n url4 : string, step = Some (n, url4))
  end.
  { destruct (String.eqb (slice None (Some 2%Z) url3) "//") eqn:Ess;
      [|by eauto].
    destruct (slice2_slashes _ Ess) as (rest & ->).
    rewrite splitnetloc_slashes.
    change ("//" +:+ rest) with (String "/" (String "/" rest)) in Hu3.
    simpl in Hu3.
    destruct (all_no_brackets (before_delim rest)) as [-> ->];
      [by apply str_all_before_delim|]. simpl. eauto. }
  destruct Hstep as (n & url4 & ->). cbn [mbind option_bind].
  destruct (contains_char "#" url4);
    [destruct (partition "#" url4) as [[a1 f1] b1]|];
    (match goal with
     | |- context [contains_char "?" ?x] =>
         destruct (contains_char "?" x);
         [destruct (partition "?" x) as [[a2 f2] b2]|]
     end);
    unfold checknetloc; destruct (negb (truthy n) || str_all isascii n); eauto.
Qed.

(** The normalizer returns a value on every string that has no square
    bracket. *)
Theorem normalize_total_without_brackets (x : string) :
  contains_char "[" x = false → contains_char "]" x = false →
  ∃ r : string, normalize_server_url x = Some r.
Proof.
  intros H1 H2. pose proof (no_brackets_all x H1 H2) as Hx.
  unfold normalize_server_url. destruct (truthy x); [|by eauto]. cbn [negb].
  assert (Hs : str_all not_bracket (strip x) = true)
    by by apply str_all_rstrip, str_all_lstrip.
  destruct (urlsplit_without_brackets
              (if startswith "/server/" (strip x)
               then BASE_URL +:+ strip x else strip x)) as [p ->].
  { destruct (startswith "/server/" (strip x)); [|done].
    by rewrite str_all_app, Hs. }
  cbn [mbind option_bind]. eauto.
Qed.

Lemma normalize_total_without_brackets_witness :
  ∃ r : string, normalize_server_url "  /server/foo?x=1#top  " = Some r.
Proof.
  apply (normalize_total_without_brackets "  /server/foo?x=1#top  ");
    vm_compute; reflexivity.
Defined.

Lemma urlsplit_raises (url : string) :
  urlsplit url = None
  ↔ ∃ n : string, netloc_text url = Some n ∧ brackets_ok n = false.
Proof.
  unfold urlsplit, netloc_text.
  set (u := fold_left _ _ _).
  destruct ((0 <? find ":" u)%Z
            && str_all isascii_alpha (slice (Some 0%Z) (Some 1%Z) u)
            && str_all in_scheme_chars (slice None (Some (find ":" u)) u));
    match goal with
    | |- context [splitnetloc ?v 2] => set (rest := v)
    end;
    (destruct (String.eqb (slice None (Some 2%Z) rest) "//");
     [destruct (splitnetloc rest 2) as [n url'] eqn:En;
      rewrite (brackets_ok_if n (n, url')); cbn [fst];
      destruct (brackets_ok n) eqn:Eb; cbn [mbind option_bind]
     |cbn [mbind option_bind]]);
    repeat match goal with
      | |- context [contains_char ?c ?x] =>
          destruct (contains_char c x)
      | |- context [partition ?c ?x] =>
          destruct (partition c x) as [[? ?] ?]
      end;
    unfold checknetloc;
    repeat match goal with
      | |- context [negb (truthy ?n) || str_all isascii ?n] =>
          destruct (negb (truthy n) || str_all isascii n)
      end;
    split; try done;
    try (intros (n' & [= <-] & Hn'); congruence);
    try (intros (n' & [=] & _)); try (intros _; by exists n).
Qed.

Lemma brackets_ok_false (n : string) :
  brackets_ok n = false
  ↔ (contains_char "[" n = true ∧ contains_char "]" n = false)
    ∨ (contains_char "]" n = true ∧ contains_char "[" n = false)
    ∨ (contains_char "[" n = true ∧ contains_char "]" n = true
       ∧ check_bracketed_netloc n = false).
Proof.
  unfold brackets_ok.
  destruct (contains_char "[" n), (contains_char "]" n),
    (check_bracketed_netloc n); cbn; intuition congruence.
Qed.

(** C5, as the code has it: the normalizer is a function of its input
    alone, and it raises exactly when the text that [urlsplit] takes for
    the host part of the URL fails the bracket tests: a [[] without a
    []], a []] without a [[], or both with a bracketed host that is
    rejected.  On every other string it returns a value: on every
    string without a square bracket, and also when the brackets are in
    the path or the query, or hold an IPv6 address. *)
Theorem normalize_raises_exactly (x : string) :
  (normalize_server_url x = None
   ↔ ∃ n : string,
       netloc_text (url_to_split x) = Some n ∧ brackets_ok n = false)
  ∧ (∀ n : string,
       brackets_ok n = false
       ↔ (contains_char "[" n = true ∧ contains_char "]" n = false)
         ∨ (contains_char "]" n = true ∧ contains_char "[" n = false)
         ∨ (contains_char "[" n = true ∧ contains_char "]" n = true
            ∧ check_bracketed_netloc n = false))
  ∧ (contains_char "[" x = false → contains_char "]" x = false →
     ∃ r : string, normalize_server_url x = Some r)
  ∧ normalize_server_url "/server/a[1]" = Some "https://smithery.ai/server/a[1]"
  ∧ normalize_server_url "https://smithery.ai/server/a?y=[1]"
    = Some "https://smithery.ai/server/a"
  ∧ normalize_server_url "http://[::1]:8080/a/" = Some "http://[::1]:8080/a"
  ∧ normalize_server_url "http://[::1]x/" = None
  ∧ normalize_server_url "//]" = None.
Proof.
  split; [|split; [exact brackets_ok_false|split;
            [apply normalize_total_without_brackets|by vm_compute]]].
  unfold normalize_server_url. fold (url_to_split x).
  destruct (truthy x) eqn:Hx; cbn [negb].
  - rewrite <- urlsplit_raises.
    destruct (urlsplit (url_to_split x)); cbn [mbind option_bind]; done.
  - destruct x; [|done]. split; [done|]. by intros (n & [=] & _).
Qed.

(** The claim of C5 fails as stated: [urlsplit] raises [ValueError] on
    an unmatched bracket in the host, and the normalizer does not catch
    it. *)
Lemma normalize_raises :
  normalize_server_url "http://[" = None.
Proof. vm_compute. reflexivity. Qed.


(** * Further properties of the code *)

(** ** The normalizer *)

Lemma contains_char_app (c : ascii) (a b : string) :
  contains_char c (a +:+ b) = contains_char c a || contains_char c b.
Proof.
  unfold contains_char. induction a as [|d a IH].
  - by rewrite app_nil_l_str.
  - rewrite app_cons_str. simpl. rewrite IH. by rewrite orb_assoc.
Qed.

Lemma rstrip_by_none (q : ascii → bool) (s : string) :
  str_all (fun c => negb (q c)) s = true → rstrip_by q s = s.
Proof.
  induction s as [|c s IH]; simpl; [done|].
  intros [Hc Hs]%andb_true_iff. rewrite (IH Hs).
  destruct s; [|done]. by destruct (q c).
Qed.

Lemma scheme_char_not_delim (c : ascii) :
  in_scheme_chars c = true → negb (is_delim c) = true.
Proof. revert c. by intros [[] [] [] [] [] [] [] []]. Qed.

Lemma not_delim_chars (c : ascii) :
  negb (is_delim c) = true →
  negb (Ascii.eqb "?" c) = true ∧ negb (Ascii.eqb "#" c) = true
  ∧ negb (Ascii.eqb "/" c) = true.
Proof. revert c. by intros [[] [] [] [] [] [] [] []]. Qed.

(** X1: whenever [normalize_server_url] returns on a non-empty input,
    the result has no query and no fragment, holds no tab or line
    break, does not end with a slash, and reads
    [scheme://host] followed by an empty path or a path that starts
    with a slash, with a lower-case scheme and a non-empty host. *)
Theorem normalize_result_shape (x r : string) :
  truthy x = true → normalize_server_url x = Some r →
  contains_char "?" r = false ∧ contains_char "#" r = false
  ∧ str_all (fun c => negb (is_unsafe c)) r = true
  ∧ rstrip_by (Ascii.eqb "/") r = r
  ∧ ∃ s n p : string,
      r = s +:+ "://" +:+ n +:+ p
      ∧ truthy s = true ∧ lower s = s ∧ contains_char ":" s = false
      ∧ truthy n = true ∧ contains_char "/" n = false
      ∧ (p = EmptyString ∨ startswith "/" p = true).
Proof.
  intros Hx Hr.
  destruct (normalize_shape x r Hx Hr)
    as (s & n & p & Hs & Hn & Hp & ->).
  destruct (good_scheme_facts s Hs) as (c & s' & Es & Hc & Hcolon & Hsafe).
  pose proof Hs as (_ & Hts & Hsc & Hlow).
  destruct Hn as (Htn & Hnd & Hns & _).
  destruct Hp as (Hp1 & Hp2 & Hp3 & Hp4 & Hp5).
  assert (Hsd : str_all (fun c => negb (is_delim c)) s = true).
  { revert Hsc. apply str_all_impl, scheme_char_not_delim. }
  assert (Hno : ∀ d : ascii, is_delim d = true →
            contains_char d s = false ∧ contains_char d n = false).
  { intros d Hd. split;
      apply (str_all_no_char (fun c => negb (is_delim c))); try done;
      cbv beta; by rewrite Hd. }
  split; [|split; [|split; [|split]]].
  - rewrite !contains_char_app, Hp3.
    destruct (Hno "?"%char eq_refl) as [-> ->]. done.
  - rewrite !contains_char_app, Hp2.
    destruct (Hno "#"%char eq_refl) as [-> ->]. done.
  - by rewrite !str_all_app, Hsafe, Hns, Hp4.
  - rewrite <- !app_assoc_str.
    rewrite rstrip_by_app, Hp5.
    destruct p as [|d p]; [|done].
    rewrite rstrip_by_app.
    rewrite (rstrip_by_none _ n).
    + rewrite app_nil_r_str. by destruct n.
    + revert Hnd. apply str_all_impl. intros d Hd.
      by destruct (not_delim_chars d Hd) as (_ & _ & ?).
  - exists s, n, p. repeat split; try done.
    by destruct (Hno "/"%char eq_refl) as [_ ->].
Qed.

Lemma normalize_result_shape_witness :
  contains_char "?" "https://smithery.ai/server/a" = false
  ∧ contains_char "#" "https://smithery.ai/server/a" = false
  ∧ str_all (fun c => negb (is_unsafe c)) "https://smithery.ai/server/a" = true
  ∧ rstrip_by (Ascii.eqb "/") "https://smithery.ai/server/a"
    = "https://smithery.ai/server/a"
  ∧ ∃ s n p : string,
      "https://smithery.ai/server/a" = s +:+ "://" +:+ n +:+ p
      ∧ truthy s = true ∧ lower s = s ∧ contains_char ":" s = false
      ∧ truthy n = true ∧ contains_char "/" n = false
      ∧ (p = EmptyString ∨ startswith "/" p = true).
Proof.
  apply (normalize_result_shape " HTTPS://smithery.ai/server/a/?tab=1#top ");
    vm_compute; reflexivity.
Defined.

Lemma remove_char_app (c : ascii) (a b : string) :
  remove_char c (a +:+ b) = remove_char c a +:+ remove_char c b.
Proof.
  induction a as [|d a IH]; [by rewrite !app_nil_l_str|].
  rewrite app_cons_str. simpl. destruct (Ascii.eqb c d); [done|].
  by rewrite app_cons_str, IH.
Qed.

Lemma remove_unsafe_app (a b : string) :
  remove_unsafe (a +:+ b) = remove_unsafe a +:+ remove_unsafe b.
Proof.
  unfold remove_unsafe. cbn [fold_left unsafe_url_bytes_to_remove].
  by rewrite !remove_char_app.
Qed.

Lemma remove_unsafe_id (s : string) :
  str_all (fun c => negb (is_unsafe c)) s = true → remove_unsafe s = s.
Proof.
  intros H. destruct (str_all_safe_no_unsafe s H) as (H1 & H2 & H3).
  unfold remove_unsafe. cbn [fold_left unsafe_url_bytes_to_remove].
  by rewrite (remove_char_id _ s H1), (remove_char_id _ s H2),
    (remove_char_id _ s H3).
Qed.

Lemma remove_unsafe_safe (s : string) :
  str_all (fun c => negb (is_unsafe c)) (remove_unsafe s) = true.
Proof.
  unfold remove_unsafe. cbn [fold_left unsafe_url_bytes_to_remove].
  apply str_all_safe_intro.
  - do 2 apply contains_char_remove. apply contains_char_removed.
  - apply contains_char_remove. apply contains_char_removed.
  - apply contains_char_removed.
Qed.

Lemma partition_absent (c : ascii) (s : string) :
  contains_char c s = false → partition c s = (s, false, EmptyString).
Proof.
  unfold contains_char. induction s as [|d s IH]; simpl; [done|].
  intros [H1 H2]%orb_false_iff. by rewrite H1, (IH H2).
Qed.

(** After a scheme and two slashes, in general *)
Lemma urlsplit_scheme_slashes (s t : string) :
  good_scheme s →
  ∃ q f : string,
    urlsplit (s +:+ ":" +:+ "//" +:+ t)
    = if brackets_ok (before_delim (remove_unsafe t))
      then Some (mkSplitResult s (before_delim (remove_unsafe t))
                   (path_part (from_delim (remove_unsafe t))) q f)
      else None.
Proof.
  intros Hs.
  destruct (good_scheme_facts s Hs) as (c & s' & Es & Hc & Hcolon & Hsafe).
  destruct (alpha_char_facts c Hc) as (Hc0 & _ & _).
  set (t' := remove_unsafe t).
  set (rest := "//" +:+ t').
  set (r := s +:+ ":" +:+ rest).
  unfold urlsplit.
  assert (E1 : lstrip_by c0_control_or_space (s +:+ ":" +:+ "//" +:+ t)
               = s +:+ ":" +:+ "//" +:+ t).
  { rewrite Es, app_cons_str. by apply lstrip_by_id. }
  rewrite E1.
  change (fold_left (λ u b, remove_char b u) unsafe_url_bytes_to_remove
            (s +:+ ":" +:+ "//" +:+ t))
    with (remove_unsafe (s +:+ ":" +:+ "//" +:+ t)).
  rewrite !remove_unsafe_app, (remove_unsafe_id s Hsafe).
  change (remove_unsafe ":") with ":".
  change (remove_unsafe "//") with "//".
  fold t'. fold rest. fold r.
  assert (Efind : find ":" r = Z.of_nat (String.length s)).
  { unfold find. rewrite find_from_drop by (unfold len; lia).
    change (drop (Z.to_nat 0) r) with r. unfold r.
    change (":" +:+ rest) with (String ":" rest).
    rewrite index_of_app by done. lia. }
  rewrite Efind.
  assert (Hlen : (0 < String.length s)%nat) by (rewrite Es; simpl; lia).
  assert (E2 : slice None (Some (Z.of_nat (String.length s))) r = s).
  { rewrite slice_to by lia. rewrite Nat2Z.id. apply take_length_app. }
  assert (E3 : slice (Some 0%Z) (Some 1%Z) r = take 1 s).
  { rewrite slice_mid by lia. change (drop (Z.to_nat 0) r) with r.
    change (Z.to_nat 1 - Z.to_nat 0)%nat with 1%nat.
    unfold r. by rewrite Es, app_cons_str. }
  assert (E4 : slice (Some (Z.of_nat (String.length s) + 1)%Z) None r = rest).
  { rewrite slice_from by lia.
    replace (Z.to_nat (Z.of_nat (String.length s) + 1))
      with (String.length (s +:+ ":")) by (rewrite length_app_str; simpl; lia).
    unfold r. rewrite <- (app_assoc_str s ":" rest). apply drop_length_app. }
  rewrite E2, E3, E4.
  destruct Hs as (Ha & _ & Hsc & Hlow).
  rewrite Ha, Hsc, Hlow.
  replace (0 <? Z.of_nat (String.length s))%Z with true
    by (symmetry; apply Z.ltb_lt; lia).
  cbn [andb].
  assert (E5 : slice None (Some 2%Z) rest = "//").
  { rewrite slice_to by lia. done. }
  rewrite E5. cbn [String.eqb Ascii.eqb Bool.eqb].
  unfold rest. rewrite splitnetloc_slashes.
  rewrite (brackets_ok_if (before_delim t') (before_delim t', from_delim t')).
  destruct (brackets_ok (before_delim t')); [|by exists EmptyString, EmptyString].
  cbn [mbind option_bind].
  set (u := from_delim t'). unfold path_part.
  assert (Hck : checknetloc (before_delim t') = true).
  { unfold checknetloc.
    by destruct (negb (truthy (before_delim t'))
                 || str_all isascii (before_delim t')). }
  rewrite Hck.
  destruct (contains_char "#" u) eqn:Hf.
  - destruct (partition "#" u) as [[a1 f1] b1]. cbn [fst].
    destruct (contains_char "?" a1) eqn:Hq.
    + destruct (partition "?" a1) as [[a2 f2] b2]. cbn [fst]. by eauto.
    + rewrite (partition_absent _ _ Hq). by eauto.
  - rewrite (partition_absent _ _ Hf). cbn [fst].
    destruct (contains_char "?" u) eqn:Hq.
    + destruct (partition "?" u) as [[a2 f2] b2]. cbn [fst]. by eauto.
    + rewrite (partition_absent _ _ Hq). by eauto.
Qed.

Lemma startswith_inv (pre s : string) :
  startswith pre s = true → ∃ y : string, s = pre +:+ y.
Proof.
  revert s. induction pre as [|a pre IH]; intros s H.
  - exists s. by rewrite app_nil_l_str.
  - destruct s as [|b s]; [done|]. simpl in H.
    apply andb_true_iff in H as [Hab H].
    apply Ascii.eqb_eq in Hab as ->.
    destruct (IH s H) as [y ->]. exists y. by rewrite app_cons_str.
Qed.

Lemma path_part_cons (d : ascii) (s : string) :
  Ascii.eqb "#" d = false → Ascii.eqb "?" d = false →
  path_part (String d s) = String d (path_part s).
Proof.
  intros H1 H2. unfold path_part. cbn [partition]. rewrite H1.
  destruct (partition "#" s) as [[a f] b]. cbn [fst partition].
  rewrite H2. by destruct (partition "?" a) as [[a' f'] b'].
Qed.

Lemma normalize_relative (x : string) :
  startswith "/server/" (strip x) = true →
  ∃ p : string,
    normalize_server_url x = Some (BASE_URL +:+ p)
    ∧ p = rstrip_by (Ascii.eqb "/") (path_part (remove_unsafe (strip x)))
    ∧ startswith "/server" p = true.
Proof.
  intros Hpre.
  assert (Hx : truthy x = true) by by destruct x.
  destruct (startswith_inv _ _ Hpre) as [y Ey].
  unfold normalize_server_url. rewrite Hx, Hpre. cbn [negb].
  destruct (urlsplit_scheme_slashes "https" ("smithery.ai" +:+ strip x)
              good_scheme_https) as (q & f & E).
  change (BASE_URL +:+ strip x)
    with ("https" +:+ ":" +:+ "//" +:+ "smithery.ai" +:+ strip x).
  rewrite E. clear E.
  rewrite remove_unsafe_app. change (remove_unsafe "smithery.ai") with "smithery.ai".
  set (h := remove_unsafe (strip x)).
  assert (Eh : h = "/server/" +:+ remove_unsafe y).
  { unfold h. by rewrite Ey, remove_unsafe_app. }
  destruct (before_delim_app "smithery.ai" h) as [-> ->]; [done| |].
  { right. by rewrite Eh. }
  change (brackets_ok "smithery.ai") with true.
  cbn [mbind option_bind scheme netloc path truthy].
  set (p := rstrip_by (Ascii.eqb "/") (path_part h)).
  assert (Hp : startswith "/server" p = true).
  { unfold p. rewrite Eh.
    change ("/server/" +:+ remove_unsafe y)
      with (String "/" (String "s" (String "e" (String "r" (String "v"
             (String "e" (String "r" (String "/" (remove_unsafe y))))))))).
    rewrite !path_part_cons by done.
    change (String "/" (String "s" (String "e" (String "r" (String "v"
             (String "e" (String "r" (String "/" (path_part (remove_unsafe y))))))))))
      with ("/server/" +:+ path_part (remove_unsafe y)).
    rewrite rstrip_by_app.
    by destruct (rstrip_by (Ascii.eqb "/") (path_part (remove_unsafe y))). }
  exists p. split; [|done].
  rewrite urlunsplit_normalized by done.
  assert (Hs : startswith "/" p = true) by by destruct p as [|[[] [] [] [] [] [] [] []] ?].
  rewrite Hs, andb_false_r. done.
Qed.

Lemma lstrip_by_head (p : ascii → bool) (s : string) :
  lstrip_by p s = EmptyString
  ∨ ∃ (c : ascii) (s' : string), lstrip_by p s = String c s' ∧ p c = false.
Proof.
  induction s as [|c s IH]; [by left|]. cbn [lstrip_by].
  destruct (p c) eqn:E; [done|]. right. by exists c, s.
Qed.

Lemma strip_idem (s : string) : strip (strip s) = strip s.
Proof.
  unfold strip. destruct (lstrip_by_head isspace s) as [-> | (c & s' & -> & Hc)];
    [done|].
  rewrite rstrip_by_cons_keep by done.
  rewrite lstrip_by_id by done.
  rewrite <- (rstrip_by_cons_keep isspace c s') by done.
  apply rstrip_by_idem.
Qed.

Lemma startswith_app (pre y : string) : startswith pre (pre +:+ y) = true.
Proof.
  induction pre as [|a pre IH]; [done|]. rewrite app_cons_str.
  cbn [startswith]. by rewrite Ascii.eqb_refl, IH.
Qed.

Lemma strip_server_path (h : string) :
  startswith "/server/" h = true →
  strip h = rstrip_by isspace h
  ∧ startswith "/server/" (strip h) = true
  ∧ strip (BASE_URL +:+ h) = BASE_URL +:+ strip h.
Proof.
  intros Hh. destruct (startswith_inv _ _ Hh) as [y ->].
  assert (E1 : strip ("/server/" +:+ y) = rstrip_by isspace ("/server/" +:+ y)).
  { unfold strip.
    change ("/server/" +:+ y) with (String "/" ("server/" +:+ y)).
    by rewrite lstrip_by_id by done. }
  assert (E2 : ∃ z, rstrip_by isspace ("/server/" +:+ y) = "/server/" +:+ z).
  { rewrite rstrip_by_app.
    destruct (rstrip_by isspace y) as [|c r]; [by exists EmptyString|].
    by exists (String c r). }
  destruct E2 as [z E2]. rewrite E1, E2.
  split; [done|]. split; [apply startswith_app|].
  unfold strip.
  change (BASE_URL +:+ "/server/" +:+ y)
    with (String "h" ("ttps://smithery.ai" +:+ "/server/" +:+ y)).
  rewrite lstrip_by_id by done.
  change (String "h" ("ttps://smithery.ai" +:+ "/server/" +:+ y))
    with (BASE_URL +:+ "/server/" +:+ y).
  rewrite rstrip_by_app, E2. done.
Qed.

Lemma normalize_base_prefix (h : string) :
  startswith "/server/" h = true →
  normalize_server_url (BASE_URL +:+ h) = normalize_server_url h.
Proof.
  intros Hh. destruct (strip_server_path h Hh) as (_ & H2 & H3).
  unfold normalize_server_url.
  assert (Ht : truthy h = true) by by destruct h.
  rewrite Ht, H3, H2. cbn [negb truthy].
  change (truthy (BASE_URL +:+ h)) with true. cbn [negb].
  destruct (startswith_inv _ _ H2) as [z ->]. done.
Qed.

(** X2: a relative server path, white space around it allowed, is
    completed with the base URL: the result is [https://smithery.ai]
    followed by the path, cut before its first [#] or [?] and without
    trailing slashes, and that path starts with [/server].  The
    normalizer does not raise on such an input, and it gives the same
    result when the base URL is put before the path first, as the
    listing crawl does. *)
Theorem normalize_relative_path (x : string) :
  startswith "/server/" (strip x) = true →
  (∃ p : string,
     normalize_server_url x = Some (BASE_URL +:+ p)
     ∧ p = rstrip_by (Ascii.eqb "/") (path_part (remove_unsafe (strip x)))
     ∧ startswith "/server" p = true)
  ∧ normalize_server_url (BASE_URL +:+ strip x) = normalize_server_url x.
Proof.
  intros Hx. split; [by apply normalize_relative|].
  rewrite (normalize_base_prefix (strip x) Hx).
  unfold normalize_server_url. rewrite strip_idem.
  assert (H1 : truthy x = true) by by destruct x.
  assert (H2 : truthy (strip x) = true) by by destruct (strip x).
  by rewrite H1, H2.
Qed.

Lemma normalize_relative_path_witness :
  (∃ p : string,
     normalize_server_url "  /server/foo/?x=1#top " = Some (BASE_URL +:+ p)
     ∧ p = rstrip_by (Ascii.eqb "/")
             (path_part (remove_unsafe (strip "  /server/foo/?x=1#top ")))
     ∧ startswith "/server" p = true)
  ∧ normalize_server_url (BASE_URL +:+ strip "  /server/foo/?x=1#top ")
    = normalize_server_url "  /server/foo/?x=1#top ".
Proof.
  apply (normalize_relative_path "  /server/foo/?x=1#top ").
  vm_compute. reflexivity.
Defined.

(** ** Listing discovery *)

Lemma crawl_with_errors_urls
    (fetch : Z → Z → Z * gset string * option Z * option string)
    (max_pages : option Z) (delay_ms : Z) (fuel : nat) :
  ∀ (page : Z) (urls : gset string) (errors : list (Z * string))
    (visited : list Z),
    fst <$> crawl_sequentially_with_errors fetch fuel max_pages delay_ms page
              urls errors
    = fst <$> crawl_sequentially fetch fuel max_pages delay_ms page urls visited.
Proof.
  induction fuel as [|fuel IH]; intros page urls errors visited; [done|].
  simpl. destruct (fetch page delay_ms) as [[[pn pu] pt] pe].
  case_bool_decide; [done|].
  destruct (truthy_int max_pages && (default 0%Z max_pages <? page + 1)%Z);
    [done|].
  destruct (100 <? page + 1)%Z; [done|]. apply IH.
Qed.

Lemma foldl_pages_urls
    (fetch : Z → Z → Z * gset string * option Z * option string)
    (delay_ms : Z) (pages : list Z) :
  ∀ (urls : gset string) (errors : list (Z * string)),
    foldl (fun '(urls, errors) page_num =>
             let '(p_num, page_urls, _, err) := fetch page_num delay_ms in
             (urls ∪ page_urls, append_error errors p_num err))
      (urls, errors) pages
    = (urls ∪ ⋃ ((fun p => urls_of (fetch p delay_ms)) <$> pages),
       errors ++ errors_of_pages fetch delay_ms pages).
Proof.
  induction pages as [|p pages IH]; intros urls errors.
  - simpl. unfold errors_of_pages. simpl.
    by rewrite app_nil_r, union_empty_r_L.
  - cbn [foldl]. unfold errors_of_pages. rewrite !fmap_cons, union_list_cons.
    cbn [concat].
    destruct (fetch p delay_ms) as [[[pn pu] pt] pe]. rewrite IH.
    change (urls_of (pn, pu, pt, pe)) with pu.
    change (error_of (pn, pu, pt, pe)) with (append_error [] pn pe).
    f_equal.
    + by rewrite (assoc_L (∪)).
    + unfold errors_of_pages, append_error.
      destruct (truthy_err pe); simpl; [|done].
      by rewrite <- app_assoc.
Qed.

Lemma foldl_pages_only_urls
    (fetch : Z → Z → Z * gset string * option Z * option string)
    (delay_ms : Z) (pages : list Z) :
  ∀ urls : gset string,
    foldl (fun urls page_num =>
             let '(p_num, page_urls, _, _) := fetch page_num delay_ms in
             urls ∪ page_urls)
      urls pages
    = urls ∪ ⋃ ((fun p => urls_of (fetch p delay_ms)) <$> pages).
Proof.
  induction pages as [|p pages IH]; intros urls.
  - simpl. by rewrite union_empty_r_L.
  - cbn [foldl]. rewrite fmap_cons, union_list_cons.
    destruct (fetch p delay_ms) as [[[pn pu] pt] pe]. rewrite IH.
    change (urls_of (pn, pu, pt, pe)) with pu.
    by rewrite (assoc_L (∪)).
Qed.

Lemma union_list_perm (l l' : list (gset string)) :
  l ≡ₚ l' → ⋃ l = ⋃ l'.
Proof.
  intros H. apply set_eq. intros x. rewrite !elem_of_union_list.
  split; intros (X & HX & Hx); exists X; split; try done.
  - by rewrite <- H.
  - by rewrite H.
Qed.

(** X3: [fetch_current_server_urls_with_errors] returns the same URL
    list as [fetch_current_server_urls], for every listing, every
    completion order of the pool, every [max_pages] and whatever the
    two thread counts are. *)
Theorem discovery_same_urls
    (fetch : Z → Z → Z * gset string * option Z * option string)
    (as_completed : list Z → list Z) (max_pages : option Z)
    (delay_ms threads threads' : Z) :
  fst <$> fetch_current_server_urls_with_errors fetch as_completed max_pages
            delay_ms threads
  = fst <$> fetch_current_server_urls fetch as_completed max_pages
              delay_ms threads'.
Proof.
  unfold fetch_current_server_urls_with_errors, fetch_current_server_urls.
  remember 99%nat as fuel eqn:Hfuel.
  destruct (fetch 1%Z delay_ms) as [[[pn pu] pt] pe].
  match goal with
  | |- context [if ?c then _ else _] => destruct c
  end.
  - rewrite foldl_pages_urls, foldl_pages_only_urls. done.
  - pose proof (crawl_with_errors_urls fetch max_pages delay_ms fuel 2
                  (∅ ∪ pu) (append_error [] pn pe) [1%Z]) as H.
    destruct (crawl_sequentially_with_errors fetch fuel max_pages delay_ms 2
                (∅ ∪ pu) (append_error [] pn pe)) as [[u e]|];
      destruct (crawl_sequentially fetch fuel max_pages delay_ms 2
                  (∅ ∪ pu) [1%Z]) as [[u' v]|]; simpl in H; try done.
    injection H as ->. done.
Qed.

(** X4: when the number of pages [m > 1] is known, from [max_pages] or
    else from the indicator of page 1, the pages 2, ..., [m] are all
    requested, beyond page 100 too and whether or not a page is empty.
    The URL list is the sorted union of the pages 1 to [m] in whatever
    order the pool completes them; the error report lists the error of
    page 1, then those of the other pages in completion order. *)
Theorem discovery_known_total
    (fetch : Z → Z → Z * gset string * option Z * option string)
    (as_completed : list Z → list Z) (max_pages : option Z)
    (delay_ms threads m : Z) :
  (∀ pages : list Z, as_completed pages ≡ₚ pages) →
  max_pages = Some m
  ∨ (max_pages = None ∧ total_of (fetch 1%Z delay_ms) = Some m) →
  (1 < m)%Z →
  fetch_current_server_urls fetch as_completed max_pages delay_ms threads
  = Some (sorted (urls_of_pages fetch delay_ms 1 (m + 1)), range 1 (m + 1))
  ∧ fetch_current_server_urls_with_errors fetch as_completed max_pages
      delay_ms threads
    = Some (sorted (urls_of_pages fetch delay_ms 1 (m + 1)),
            error_of (fetch 1%Z delay_ms)
            ++ errors_of_pages fetch delay_ms (as_completed (range 2 (m + 1)))).
Proof.
  intros Hperm Hm H1.
  unfold fetch_current_server_urls_with_errors, fetch_current_server_urls.
  rewrite (urls_of_pages_cons _ _ 1) by lia.
  rewrite (range_cons 1) by lia.
  remember 99%nat as fuel eqn:Hfuel.
  unfold error_of, urls_of at 1 2. unfold total_of in Hm.
  destruct (fetch 1%Z delay_ms) as [[[pn pu] pt] pe]. cbn [fst snd] in *.
  assert (Et : match max_pages with
               | Some m0 => Some m0
               | None => if truthy_int pt then pt else None
               end = Some m).
  { destruct Hm as [-> | [-> ->]]; [done|].
    unfold truthy_int. by replace (m =? 0)%Z with false by lia. }
  rewrite Et. change (default 0%Z (Some m)) with m.
  change (truthy_int (Some m)) with (negb (m =? 0)%Z).
  replace (m =? 0)%Z with false by lia.
  replace (1 <? m)%Z with true by lia. cbn [negb andb].
  rewrite foldl_pages_urls, foldl_pages_only_urls.
  cbn [mbind option_bind]. change (1 + 1)%Z with 2%Z.
  assert (E : ⋃ ((fun p => urls_of (fetch p delay_ms))
                   <$> as_completed (range 2 (m + 1)))
              = urls_of_pages fetch delay_ms 2 (m + 1)).
  { unfold urls_of_pages. apply union_list_perm. by rewrite Hperm. }
  rewrite E, (left_id_L ∅ (∪)). done.
Qed.

(** X5: with [max_pages] at most 1 and not 0, page 2 is requested all
    the same: the pages requested are 1 and 2, and the result is the
    sorted union of their URLs. *)
Theorem discovery_small_max_pages
    (fetch : Z → Z → Z * gset string * option Z * option string)
    (as_completed : list Z → list Z) (delay_ms threads m : Z) :
  (m ≤ 1)%Z → m ≠ 0%Z →
  fetch_current_server_urls fetch as_completed (Some m) delay_ms threads
  = Some (sorted (urls_of (fetch 1%Z delay_ms) ∪ urls_of (fetch 2%Z delay_ms)),
          [1; 2]%Z).
Proof.
  intros H1 H0. unfold fetch_current_server_urls, urls_of.
  destruct (fetch 1%Z delay_ms) as [[[pn pu] pt] pe]. cbn [fst snd].
  change (default 0%Z (Some m)) with m.
  replace (1 <? m)%Z with false by lia. rewrite andb_false_r.
  cbn [crawl_sequentially].
  destruct (fetch 2%Z delay_ms) as [[[pn2 pu2] pt2] pe2]. cbn [fst snd].
  rewrite (left_id_L ∅ (∪)).
  case_bool_decide as He.
  - rewrite He, union_empty_r_L. done.
  - change (default 0%Z (Some m)) with m.
    change (truthy_int (Some m)) with (negb (m =? 0)%Z).
    replace (m =? 0)%Z with false by lia.
    replace (m <? 2 + 1)%Z with true by lia. done.
Qed.

Section ErrorsFallback.

Variable fetch : Z → Z → Z * gset string * option Z * option string.
Variables (delay_ms k : Z).
Hypothesis k_bounds : (1 ≤ k ≤ 100)%Z.
Hypothesis pages_nonempty :
  ∀ p : Z, (2 ≤ p ≤ k)%Z → urls_of (fetch p delay_ms) ≠ ∅.
Hypothesis next_page_empty :
  (k < 100)%Z → urls_of (fetch (k + 1) delay_ms) = ∅.

Lemma crawl_with_errors_spec (d : nat) :
  ∀ (fuel : nat) (page : Z) (urls : gset string) (errors : list (Z * string)),
    d = Z.to_nat (k + 1 - page) →
    (2 ≤ page ≤ k + 1)%Z → (page ≤ 100)%Z →
    (Z.to_nat (101 - page) ≤ fuel)%nat →
    crawl_sequentially_with_errors fetch fuel None delay_ms page urls errors
    = Some (urls ∪ urls_of_pages fetch delay_ms page (k + 1),
            errors ++ errors_of_pages fetch delay_ms (range page (k + 1))
            ++ (if (k =? 100)%Z then [(101%Z, "safety limit reached")] else [])).
Proof.
  induction d as [|d IH]; intros fuel page urls errors Hd Hp H100 Hfuel.
  - assert (page = k + 1)%Z as -> by lia.
    destruct fuel as [|fuel]; [lia|]. simpl.
    pose proof (next_page_empty ltac:(lia)) as He.
    destruct (fetch (k + 1)%Z delay_ms) as [[[pn pu] pt] pe]. simpl in He.
    rewrite bool_decide_true by done.
    rewrite urls_of_pages_nil, range_nil by lia.
    replace (k =? 100)%Z with false by lia.
    unfold errors_of_pages. simpl.
    by rewrite union_empty_r_L, app_nil_r.
  - destruct fuel as [|fuel]; [lia|]. simpl.
    pose proof (pages_nonempty page ltac:(lia)) as Hne.
    rewrite (urls_of_pages_cons _ _ page) by lia.
    rewrite (range_cons page) by lia.
    unfold errors_of_pages. rewrite fmap_cons. cbn [concat].
    fold (errors_of_pages fetch delay_ms (range (page + 1) (k + 1))).
    destruct (fetch page delay_ms) as [[[pn pu] pt] pe] eqn:Ef.
    change (urls_of (pn, pu, pt, pe)) with pu in *.
    change (error_of (pn, pu, pt, pe)) with (append_error [] pn pe).
    rewrite bool_decide_false by done. simpl.
    assert (Eapp : ∀ rest : list (Z * string),
              append_error errors pn pe ++ rest
              = errors ++ append_error [] pn pe ++ rest).
    { intros rest. unfold append_error. destruct (truthy_err pe); [|done].
      by rewrite <- app_assoc. }
    destruct (100 <? page + 1)%Z eqn:E100.
    + apply Z.ltb_lt in E100. assert (page = 100)%Z as -> by lia.
      assert (k = 100)%Z as -> by lia.
      rewrite urls_of_pages_nil, range_nil by lia.
      unfold errors_of_pages. simpl.
      rewrite union_empty_r_L, app_nil_r. f_equal. f_equal. apply Eapp.
    + apply Z.ltb_ge in E100.
      rewrite (IH fuel (page + 1)%Z) by lia.
      f_equal. f_equal; [by rewrite (assoc_L (∪))|].
      rewrite Eapp. by rewrite <- !app_assoc.
Qed.

End ErrorsFallback.

(** X6: in the sequential crawl of
    [fetch_current_server_urls_with_errors], with [k] the last page
    before the stop, the report holds the errors of the pages 1 to [k]
    in page order, followed by the entry for page 101 when the crawl
    ran into the limit of 100 pages.  The error of the page without
    URLs that ended the crawl is not reported. *)
Theorem discovery_errors_fallback
    (fetch : Z → Z → Z * gset string * option Z * option string)
    (as_completed : list Z → list Z) (delay_ms threads k : Z) :
  (1 ≤ k ≤ 100)%Z →
  truthy_int (total_of (fetch 1%Z delay_ms)) = false →
  (∀ p : Z, (2 ≤ p ≤ k)%Z → urls_of (fetch p delay_ms) ≠ ∅) →
  ((k < 100)%Z → urls_of (fetch (k + 1)%Z delay_ms) = ∅) →
  fetch_current_server_urls_with_errors fetch as_completed None delay_ms threads
  = Some (sorted (urls_of_pages fetch delay_ms 1 (k + 1)),
          errors_of_pages fetch delay_ms (range 1 (k + 1))
          ++ (if (k =? 100)%Z then [(101%Z, "safety limit reached")] else [])).
Proof.
  intros Hk Ht Hne He. unfold fetch_current_server_urls_with_errors.
  rewrite (urls_of_pages_cons _ _ 1) by lia.
  rewrite (range_cons 1) by lia.
  unfold errors_of_pages. rewrite fmap_cons. cbn [concat].
  fold (errors_of_pages fetch delay_ms (range (1 + 1) (k + 1))).
  remember 99%nat as fuel eqn:Hfuel.
  destruct (fetch 1%Z delay_ms) as [[[pn pu] pt] pe] eqn:Ef.
  unfold total_of in Ht. simpl in Ht. rewrite Ht.
  change (urls_of (pn, pu, pt, pe)) with pu in *.
  change (error_of (pn, pu, pt, pe)) with (append_error [] pn pe).
  cbn [truthy_int andb].
  rewrite (crawl_with_errors_spec fetch delay_ms k Hk Hne He
             (Z.to_nat (k + 1 - 2)) fuel 2) by lia.
  cbn [mbind option_bind]. rewrite (left_id_L ∅ (∪)).
  change (1 + 1)%Z with 2%Z. by rewrite <- app_assoc.
Qed.

Lemma discovery_known_total_witness :
  fetch_current_server_urls example_listing reverse (Some 3%Z) 1500 4
  = Some (sorted (urls_of_pages example_listing 1500 1 (3 + 1)),
          range 1 (3 + 1))
  ∧ fetch_current_server_urls_with_errors example_listing reverse (Some 3%Z)
      1500 4
    = Some (sorted (urls_of_pages example_listing 1500 1 (3 + 1)),
            error_of (example_listing 1%Z 1500%Z)
            ++ errors_of_pages example_listing 1500
                 (reverse (range 2 (3 + 1)))).
Proof.
  apply (discovery_known_total example_listing reverse (Some 3%Z) 1500 4 3).
  - intros pages. apply reverse_Permutation.
  - left. reflexivity.
  - lia.
Defined.

Lemma discovery_small_max_pages_witness :
  fetch_current_server_urls example_listing (fun pages => pages) (Some 1%Z)
    1500 1
  = Some (sorted (urls_of (example_listing 1%Z 1500%Z)
                  ∪ urls_of (example_listing 2%Z 1500%Z)),
          [1; 2]%Z).
Proof.
  apply (discovery_small_max_pages example_listing (fun pages => pages)
           1500 1 1); lia.
Defined.

Lemma discovery_errors_fallback_witness :
  fetch_current_server_urls_with_errors example_failing_listing
    (fun pages => pages) None 1500 1
  = Some (sorted (urls_of_pages example_failing_listing 1500 1 (1 + 1)),
          errors_of_pages example_failing_listing 1500 (range 1 (1 + 1))
          ++ (if (1 =? 100)%Z then [(101%Z, "safety limit reached")] else [])).
Proof.
  apply (discovery_errors_fallback example_failing_listing
           (fun pages => pages) 1500 1 1).
  - lia.
  - reflexivity.
  - intros p Hp. lia.
  - intros _. reflexivity.
Defined.

Example discovery_errors_fallback_example :
  fetch_current_server_urls_with_errors example_failing_listing
    (fun pages => pages) None 1500 1
  = Some (["https://smithery.ai/server/a"], []).
Proof. vm_compute. reflexivity. Qed.

(** ** The audit report *)

Lemma size_list_to_set_le (l : list string) :
  size (list_to_set l : gset string) ≤ length l.
Proof.
  induction l as [|x l IH]; cbn [list_to_set length].
  - by rewrite size_empty.
  - rewrite size_union_alt, size_singleton.
    assert (Hsub : (list_to_set l ∖ {[x]} : gset string) ⊆ list_to_set l)
      by (intros y [Hy _]%elem_of_difference; exact Hy).
    apply subseteq_size in Hsub. lia.
Qed.

Lemma size_image_le (g : string → string) (X Y : gset string) :
  (∀ y : string, y ∈ Y → ∃ x : string, x ∈ X ∧ y = g x) →
  size Y ≤ size X.
Proof.
  intros H.
  assert (HY : Y ⊆ list_to_set (g <$> elements X)).
  { intros y Hy. destruct (H y Hy) as (x & Hx & ->).
    apply elem_of_list_to_set, list_elem_of_fmap. exists x.
    split; [done|]. by apply elem_of_elements. }
  apply subseteq_size in HY.
  pose proof (size_list_to_set_le (g <$> elements X)) as Hle.
  rewrite length_fmap in Hle.
  change (length (elements X)) with (size X) in Hle. lia.
Qed.

Lemma length_sorted (s : gset string) : length (sorted s) = size s.
Proof.
  unfold sorted. by rewrite merge_sort_Permutation.
Qed.

Lemma add_normalized_some (urls : list string) (acc s : gset string) :
  add_normalized urls acc = Some s →
  ∀ u : string, u ∈ s ↔ u ∈ acc ∨ in_normalized urls u.
Proof.
  intros Hs.
  destruct (add_normalized_spec urls acc) as (s' & Hs' & Hspec).
  - intros x Hx Hn.
    by rewrite (add_normalized_raises urls acc x Hx Hn) in Hs.
  - rewrite Hs in Hs'. by injection Hs' as <-.
Qed.

(** X7: in every report that [build_audit_report] returns,
    [missing_count] is the length of [missing_urls], which has no
    duplicate, and it is at most [current_count]; the two other counts
    are at most the lengths of the two inputs, and the error list is
    passed through. *)
Theorem audit_report_counts (A B : list string) (errs : list (Z * string))
    (r : AuditReport) :
  build_audit_report A B errs = Some r →
  missing_count r = length (missing_urls r)
  ∧ missing_count r ≤ current_count r
  ∧ current_count r ≤ length B
  ∧ scraped_count r ≤ length A
  ∧ NoDup (missing_urls r)
  ∧ errors r = errs.
Proof.
  unfold build_audit_report, find_missing_servers. intros H.
  destruct (add_normalized A ∅) as [ss|] eqn:Ea; [|done].
  destruct (add_normalized B ∅) as [cs|] eqn:Eb; [|done].
  cbn [mbind option_bind] in H. injection H as <-.
  cbn [missing_count missing_urls current_count scraped_count errors].
  split; [done|]. split; [|split; [|split; [|split]]].
  - rewrite length_sorted.
    transitivity (size cs).
    { apply subseteq_size. intros y [Hy _]%elem_of_difference. exact Hy. }
    apply (size_image_le (fun x => default EmptyString (normalize_server_url x))).
    intros y Hy.
    apply (add_normalized_some _ _ _ Eb) in Hy as [Hy | (x & Hx & Hn & _)];
      [by apply not_elem_of_empty in Hy|].
    exists x. split; [by apply elem_of_list_to_set|]. by rewrite Hn.
  - apply size_list_to_set_le.
  - apply size_list_to_set_le.
  - unfold sorted. rewrite merge_sort_Permutation. apply NoDup_elements.
  - done.
Qed.

Lemma audit_report_counts_witness :
  missing_count example_report = length (missing_urls example_report)
  ∧ missing_count example_report ≤ current_count example_report
  ∧ current_count example_report ≤ length example_current
  ∧ scraped_count example_report ≤ length example_scraped
  ∧ NoDup (missing_urls example_report)
  ∧ errors example_report = [].
Proof.
  apply (audit_report_counts example_scraped example_current [] example_report).
  vm_compute. reflexivity.
Defined.

(** ** Normal form of a record *)

Lemma normalize_tools_omap (tools : list pyval) :
  normalize_tools tools [] = omap normalize_tool tools.
Proof. by rewrite normalize_tools_app. Qed.

Lemma normalize_tool_idem (l : list pyval) :
  omap normalize_tool (omap normalize_tool l) = omap normalize_tool l.
Proof.
  induction l as [|tool l IH]; [done|].
  destruct tool as [| | | | |t]; try exact IH.
  cbn [omap list_omap normalize_tool]. f_equal. exact IH.
Qed.

Lemma normalize_server_fixed (server : dict) :
  normalize_server (normalize_server server) = normalize_server server.
Proof.
  destruct (normalize_server_shape server) as (ts & E & Hts).
  rewrite E.
  generalize (Dict.get server "server_name" (PStr "")),
    (Dict.get server "server_url" (PStr "")),
    (Dict.get server "connection_url" (PStr "")),
    (Dict.get server "homepage" (PStr "")),
    (Dict.get server "source_code" (PStr "")),
    (Dict.get server "authentication_method" (PStr "")),
    (Dict.get server "description" (PStr "")).
  intros v1 v2 v3 v4 v5 v6 v7.
  match goal with
  | |- normalize_server ?r = _ =>
      destruct (normalize_server_shape r) as (ts' & E' & Hts')
  end.
  rewrite E'.
  change (Dict.get (_ :: _) "tools" (PList [])) with (PList ts) in Hts'.
  assert (Ets : ts' = ts).
  { rewrite Hts', normalize_tools_omap, Hts, normalize_tools_omap.
    apply normalize_tool_idem. }
  rewrite Ets. reflexivity.
Qed.

(** X8: [normalize_server] is idempotent: a record in normal form is
    left as it is.  So the normalization that [save_to_json] applies to
    every record changes nothing in records that were normalized when
    they were scraped. *)
Theorem normalize_server_idempotent (server : dict) (records : list dict) :
  normalize_server (normalize_server server) = normalize_server server
  ∧ map normalize_server (map normalize_server records)
    = map normalize_server records.
Proof.
  split; [apply normalize_server_fixed|].
  rewrite map_map. apply map_ext. intros r. apply normalize_server_fixed.
Qed.

(** ** Scraping one server, with retries *)

Lemma tools_of_normalize (server : dict) :
  ∃ ts : list pyval,
    tools_of (normalize_server server) = ts
    ∧ Dict.get (normalize_server server) "tools" (PList []) = PList ts
    ∧ Dict.get (normalize_server server) "total_tools" (PInt 0)
      = PInt (Z.of_nat (length ts)).
Proof.
  destruct (normalize_server_shape server) as (ts & E & _).
  exists ts. unfold tools_of. rewrite E. done.
Qed.

Lemma update_stats_normalize (st : Stats) (server : dict) :
  update_stats st (normalize_server server)
  = Some (count_record st (normalize_server server)).
Proof.
  destruct (tools_of_normalize server) as (ts & Ht & Hg & Hn).
  unfold update_stats, count_record. rewrite Hg, Hn, Ht.
  cbn [py_len mbind option_bind]. rewrite outcome_of_int, Z.eqb_refl.
  cbn [andb mbind option_bind].
  destruct (0 <? Z.of_nat (length ts))%Z; f_equal; f_equal; lia.
Qed.

Section Retry.

Variable scrape_server_page : nat → string → option dict.
Variable url : string.

Lemma world_eq (c c' : nat) (j : list dict) (s s' : list Z) :
  c = c' → s = s' → mkWorld c j s = mkWorld c' j s'.
Proof. by intros -> ->. Qed.

Lemma attempt_once_cases (self : SmitheryScraper) (w : World) :
  attempt_once scrape_server_page self w url
  = match scrape_server_page (calls w) url with
    | None => inl (self, called w)
    | Some server_data =>
        if truthy_dict server_data then
          let r := normalize_server server_data in
          let self' := with_stats self (count_record (stats self) r) in
          inr (self', save_server_incrementally self' r (called w), r)
        else inr (self, called w, server_data)
    end.
Proof.
  unfold attempt_once, call_scrape_server_page.
  destruct (scrape_server_page (calls w) url) as [d|]; [|done].
  destruct (truthy_dict d); [|done].
  by rewrite update_stats_normalize.
Qed.

Lemma truthy_normalize (server : dict) :
  truthy_dict (normalize_server server) = true.
Proof. by destruct (normalize_server_shape server) as (ts & -> & _). Qed.

Lemma retry_attempts_exhausted (d : nat) :
  ∀ (a m : Z) (self : SmitheryScraper) (w : World),
    d = Z.to_nat (m - a) → (0 ≤ a)%Z →
    (∀ n : nat, (calls w ≤ n < calls w + d)%nat →
                scrape_server_page n url = None) →
    retry_attempts scrape_server_page (range a m) m url self w
    = (if (a <? m)%Z then with_stats self (count_failed (stats self)) else self,
       mkWorld (calls w + d) (jsonl_records w)
         (sleeps w ++ ((fun attempt => ((attempt + 1) * 2)%Z)
                         <$> range a (m - 1))),
       None).
Proof.
  induction d as [|d IH]; intros a m self w Hd Ha Hnone.
  - rewrite range_nil by lia. rewrite (range_nil a (m - 1)) by lia.
    replace (a <? m)%Z with false by lia.
    cbn [retry_attempts fmap list_fmap]. rewrite app_nil_r, Nat.add_0_r.
    by destruct w.
  - rewrite (range_cons a m) by lia. cbn [retry_attempts].
    rewrite attempt_once_cases, (Hnone (calls w)) by lia.
    replace (a <? m)%Z with true by lia.
    destruct (a <? m - 1)%Z eqn:Elast.
    + apply Z.ltb_lt in Elast.
      rewrite (IH (a + 1)%Z m)
        by (unfold called; cbn [calls]; try lia; intros n Hn; apply Hnone; lia).
      replace (a + 1 <? m)%Z with true by lia.
      rewrite (range_cons a (m - 1)) by lia.
      unfold called. cbn [calls jsonl_records sleeps fmap list_fmap].
      rewrite <- app_assoc. do 2 f_equal. apply world_eq; [lia|done].
    + apply Z.ltb_ge in Elast. assert (d = 0)%nat as -> by lia.
      rewrite (range_nil a (m - 1)) by lia.
      cbn [fmap list_fmap]. rewrite app_nil_r.
      unfold called. do 2 f_equal. apply world_eq; [lia|done].
Qed.

Lemma retry_attempts_success (k : nat) :
  ∀ (a m : Z) (self : SmitheryScraper) (w : World) (server_data : dict),
    (0 ≤ a)%Z → (a + Z.of_nat k < m)%Z →
    (∀ n : nat, (calls w ≤ n < calls w + k)%nat →
                scrape_server_page n url = None) →
    scrape_server_page (calls w + k)%nat url = Some server_data →
    truthy_dict server_data = true →
    let r := normalize_server server_data in
    let self' := with_stats self (count_record (stats self) r) in
    retry_attempts scrape_server_page (range a m) m url self w
    = (self',
       mkWorld (calls w + k + 1)
         (jsonl_records w ++ if incremental_save self then [r] else [])
         (sleeps w ++ ((fun attempt => ((attempt + 1) * 2)%Z)
                         <$> range a (a + Z.of_nat k))),
       Some r).
Proof.
  induction k as [|k IH]; intros a m self w d Ha Hm Hnone Hsome Ht r self'.
  - rewrite (range_cons a m) by lia. cbn [retry_attempts].
    rewrite attempt_once_cases. rewrite Nat.add_0_r in Hsome.
    rewrite Hsome, Ht. cbv beta iota zeta. fold r. fold self'.
    rewrite (range_nil a (a + Z.of_nat 0)) by lia. cbn [fmap list_fmap].
    unfold save_server_incrementally, called.
    cbn [incremental_save with_stats calls jsonl_records sleeps].
    change (incremental_save self') with (incremental_save self).
    destruct (incremental_save self); cbn [negb]; rewrite ?app_nil_r;
      do 2 f_equal; apply world_eq; first [lia | done].
  - rewrite (range_cons a m) by lia. cbn [retry_attempts].
    rewrite attempt_once_cases, (Hnone (calls w)) by lia.
    replace (a <? m - 1)%Z with true by lia.
    rewrite (IH (a + 1)%Z m _ _ d); unfold called;
      cbn [calls jsonl_records sleeps]; try lia; try done.
    + fold r. fold self'.
      rewrite (range_cons a (a + Z.of_nat (S k))) by lia.
      cbn [fmap list_fmap]. rewrite <- app_assoc.
      replace (a + 1 + Z.of_nat k)%Z with (a + Z.of_nat (S k))%Z by lia.
      do 2 f_equal. apply world_eq; [lia|done].
    + intros n Hn. apply Hnone. lia.
    + by replace (S (calls w) + k)%nat with (calls w + S k)%nat by lia.
Qed.

Lemma retry_attempts_accounting (attempts : list Z) (m : Z) :
  ∀ (self : SmitheryScraper) (w : World),
    let '(self', w', r) :=
      retry_attempts scrape_server_page attempts m url self w in
    servers_data self' = servers_data self
    ∧ incremental_save self' = incremental_save self
    ∧ (calls w ≤ calls w' ≤ calls w + length attempts)%nat
    ∧ match r with
      | Some server_data =>
          if truthy_dict server_data
          then normalize_server server_data = server_data
               ∧ stats self' = count_record (stats self) server_data
               ∧ jsonl_records w'
                 = jsonl_records w
                   ++ (if incremental_save self then [server_data] else [])
          else stats self' = stats self
               ∧ jsonl_records w' = jsonl_records w
      | None =>
          jsonl_records w' = jsonl_records w
          ∧ (stats self' = stats self
             ∨ stats self' = count_failed (stats self))
      end.
Proof.
  induction attempts as [|a attempts IH]; intros self w.
  - cbn [retry_attempts length]. repeat split; try done; try lia. by left.
  - cbn [retry_attempts length]. rewrite attempt_once_cases.
    destruct (scrape_server_page (calls w) url) as [d|].
    + destruct (truthy_dict d) eqn:Ht.
      * cbv beta iota zeta. rewrite truthy_normalize.
        unfold save_server_incrementally, called.
        cbn [with_stats servers_data incremental_save stats].
        split; [done|]. split; [done|]. split.
        { destruct (incremental_save self); cbn [negb calls]; lia. }
        split; [apply normalize_server_fixed|]. split; [done|].
        destruct (incremental_save self); cbn [negb jsonl_records];
          [done|by rewrite app_nil_r].
      * cbv beta iota zeta. rewrite Ht. unfold called.
        cbn [calls jsonl_records].
        split; [done|]. split; [done|]. split; [lia|]. done.
    + cbv beta iota zeta. destruct (a <? m - 1)%Z.
      * specialize (IH self (mkWorld (calls (called w))
                               (jsonl_records (called w))
                               (sleeps (called w) ++ [((a + 1) * 2)%Z]))).
        destruct (retry_attempts _ _ _ _ _ _) as [[self' w'] r].
        unfold called in IH. cbn [calls jsonl_records] in IH.
        destruct IH as (H1 & H2 & H3 & H4).
        split; [done|]. split; [done|]. split; [lia|]. done.
      * unfold called. cbn [with_stats servers_data incremental_save stats
                              calls jsonl_records].
        split; [done|]. split; [done|]. split; [lia|].
        split; [done|]. by right.
Qed.

End Retry.

(** X9: when every attempt raises, [scrape_single_server_with_browser]
    returns [None] after [max_retries] calls of [scrape_server_page];
    it waits 2, 4, ..., [2 * (max_retries - 1)] seconds between them,
    appends nothing to the JSONL file and counts the server once, as
    scraped and failed.  With [max_retries] at most 0 it makes no call
    and counts nothing. *)
Theorem retry_exhausted (scrape_server_page : nat → string → option dict)
    (self : SmitheryScraper) (w : World) (server_url : string)
    (max_retries : Z) :
  (∀ n : nat, (calls w ≤ n < calls w + Z.to_nat max_retries)%nat →
              scrape_server_page n server_url = None) →
  scrape_single_server_with_browser scrape_server_page self w server_url
    max_retries
  = (if (0 <? max_retries)%Z
     then with_stats self (count_failed (stats self)) else self,
     mkWorld (calls w + Z.to_nat max_retries) (jsonl_records w)
       (sleeps w ++ backoff (max_retries - 1)),
     None).
Proof.
  intros Hnone. unfold scrape_single_server_with_browser, backoff.
  apply retry_attempts_exhausted; [f_equal; lia|lia|exact Hnone].
Qed.

Lemma retry_exhausted_witness :
  scrape_single_server_with_browser failing_page (new_scraper true) new_world
    "https://smithery.ai/server/a" 3
  = (if (0 <? 3)%Z
     then with_stats (new_scraper true)
            (count_failed (stats (new_scraper true)))
     else new_scraper true,
     mkWorld (calls new_world + Z.to_nat 3) (jsonl_records new_world)
       (sleeps new_world ++ backoff (3 - 1)),
     None).
Proof.
  apply (retry_exhausted failing_page (new_scraper true) new_world
           "https://smithery.ai/server/a" 3).
  intros n Hn. reflexivity.
Defined.

Example retry_exhausted_example :
  scrape_single_server_with_browser failing_page (new_scraper true) new_world
    "https://smithery.ai/server/a" 3
  = (mkScraper [] true (mkStats 0 1 0 0 1 0), mkWorld 3 [] [2; 4]%Z, None).
Proof. vm_compute. reflexivity. Qed.

(** X10: when the first [k] attempts raise and the next one, still
    within [max_retries], returns a record that is not empty, the
    function returns that record in normal form after waiting 2, 4,
    ..., [2 * k] seconds.  The record is counted once, as a success
    when it has a tool and as a failure when it has none, and it is
    appended to the JSONL file when incremental saving is on. *)
Theorem retry_first_success (scrape_server_page : nat → string → option dict)
    (self : SmitheryScraper) (w : World) (server_url : string)
    (max_retries : Z) (k : nat) (server_data : dict) :
  (Z.of_nat k < max_retries)%Z →
  (∀ n : nat, (calls w ≤ n < calls w + k)%nat →
              scrape_server_page n server_url = None) →
  scrape_server_page (calls w + k)%nat server_url = Some server_data →
  truthy_dict server_data = true →
  scrape_single_server_with_browser scrape_server_page self w server_url
    max_retries
  = (with_stats self
       (count_record (stats self) (normalize_server server_data)),
     mkWorld (calls w + k + 1)
       (jsonl_records w
        ++ if incremental_save self then [normalize_server server_data]
           else [])
       (sleeps w ++ backoff (Z.of_nat k)),
     Some (normalize_server server_data)).
Proof.
  intros Hk Hnone Hsome Ht.
  unfold scrape_single_server_with_browser, backoff.
  by rewrite (retry_attempts_success scrape_server_page server_url k 0
                max_retries self w server_data) by (try done; lia).
Qed.

Lemma retry_first_success_witness :
  scrape_single_server_with_browser example_page (new_scraper true) new_world
    "https://smithery.ai/server/a" 3
  = (with_stats (new_scraper true)
       (count_record (stats (new_scraper true))
          (normalize_server (default [] (example_page 2 "https://smithery.ai/server/a")))),
     mkWorld (calls new_world + 2 + 1)
       (jsonl_records new_world
        ++ if incremental_save (new_scraper true)
           then [normalize_server
                   (default [] (example_page 2 "https://smithery.ai/server/a"))]
           else [])
       (sleeps new_world ++ backoff (Z.of_nat 2)),
     Some (normalize_server
             (default [] (example_page 2 "https://smithery.ai/server/a")))).
Proof.
  apply (retry_first_success example_page (new_scraper true) new_world
           "https://smithery.ai/server/a" 3 2).
  - lia.
  - intros n Hn. unfold example_page.
    replace (n <? 2)%nat with true; [done|].
    symmetry. apply Nat.ltb_lt. cbn [calls new_world] in Hn. lia.
  - reflexivity.
  - reflexivity.
Defined.

(** X11: whatever the server page does, a call of
    [scrape_single_server_with_browser] leaves the records in memory
    alone and makes at most [max_retries] calls of
    [scrape_server_page].  A record that it returns is in normal form,
    was counted once and, with incremental saving, was appended once to
    the JSONL file; when it returns [None] or an empty record the file
    is unchanged, and the server was counted as failed or not at all. *)
Theorem retry_accounting (scrape_server_page : nat → string → option dict)
    (self : SmitheryScraper) (w : World) (server_url : string)
    (max_retries : Z) :
  let '(self', w', r) :=
    scrape_single_server_with_browser scrape_server_page self w server_url
      max_retries in
  servers_data self' = servers_data self
  ∧ incremental_save self' = incremental_save self
  ∧ (calls w ≤ calls w' ≤ calls w + Z.to_nat max_retries)%nat
  ∧ match r with
    | Some server_data =>
        if truthy_dict server_data
        then normalize_server server_data = server_data
             ∧ stats self' = count_record (stats self) server_data
             ∧ jsonl_records w'
               = jsonl_records w
                 ++ (if incremental_save self then [server_data] else [])
        else stats self' = stats self
             ∧ jsonl_records w' = jsonl_records w
    | None =>
        jsonl_records w' = jsonl_records w
        ∧ (stats self' = stats self
           ∨ stats self' = count_failed (stats self))
    end.
Proof.
  unfold scrape_single_server_with_browser.
  pose proof (retry_attempts_accounting scrape_server_page server_url
                (range 0 max_retries) max_retries self w) as H.
  destruct (retry_attempts _ _ _ _ _ _) as [[self' w'] r].
  unfold range in H. rewrite length_map, length_seq, Z.sub_0_r in H.
  exact H.
Qed.

(** ** Collecting the server URLs *)

Lemma split_on_head (c : ascii) (s : string) :
  ∃ (h : string) (t : list string),
    split_on c s = h :: t ∧ contains_char c h = false
    ∧ ∀ pre : string,
        contains_char c pre = false → startswith pre s = true →
        startswith pre h = true.
Proof.
  induction s as [|d s (h & t & E & Hh & Hpre)].
  - exists EmptyString, []. repeat split; try done.
  - cbn [split_on]. destruct (Ascii.eqb c d) eqn:Ecd.
    + exists EmptyString, (split_on c s). repeat split; try done.
      intros [|a pre]; [done|]. unfold contains_char. cbn [str_any startswith].
      intros [Hca _]%orb_false_iff [Had _]%andb_true_iff.
      apply Ascii.eqb_eq in Had as ->. congruence.
    + rewrite E. exists (String d h), t. repeat split; try done.
      * unfold contains_char in *. cbn [str_any]. by rewrite Ecd, Hh.
      * intros [|a pre]; [done|]. unfold contains_char. cbn [str_any startswith].
        intros [_ Hc]%orb_false_iff [Had Hs]%andb_true_iff.
        rewrite Had. by apply Hpre.
Qed.

Lemma page_server_urls_collected (server_links : list (option string)) :
  ∀ acc : gset string,
    (∀ u, u ∈ acc → collected_url u = true) →
    ∀ u, u ∈ page_server_urls server_links acc → collected_url u = true.
Proof.
  induction server_links as [|href links IH]; intros acc Hacc; [done|].
  cbn [page_server_urls]. apply IH.
  destruct href as [href|]; [|done].
  destruct (truthy href && startswith "/server/" href
            && negb (String.eqb href "/servers")) eqn:Hc; [|done].
  apply andb_true_iff in Hc as [[_ Hs]%andb_true_iff _].
  intros u [Hu | ->%elem_of_singleton]%elem_of_union; [by apply Hacc|].
  destruct (split_on_head "?" href) as (h & t & -> & Hh & Hpre).
  specialize (Hpre "/server/" eq_refl Hs).
  destruct (startswith_inv _ _ Hpre) as [y ->].
  unfold collected_url.
  change (base_url +:+ "/server/" +:+ y)
    with ("https://smithery.ai/server/" +:+ y).
  apply andb_true_iff. split.
  - clear. by vm_compute.
  - rewrite contains_char_app in Hh. apply orb_false_iff in Hh as [_ Hy].
    by rewrite contains_char_app, Hy.
Qed.

Lemma list_slice_to_length {A} (l : list A) (m : Z) :
  (0 < m ≤ Z.of_nat (length l))%Z → length (list_slice_to l m) = Z.to_nat m.
Proof.
  intros Hm. unfold list_slice_to.
  replace (m <? 0)%Z with false by lia.
  rewrite length_take. lia.
Qed.

Lemma Forall_list_slice_to {A} (P : A → Prop) (l : list A) (m : Z) :
  Forall P l → Forall P (list_slice_to l m).
Proof. intros H. unfold list_slice_to. by apply Forall_take. Qed.

Section Collect.

Variable listing : Z → option (list (option string)).
Variable scrape_single_page : bool.
Variable max_servers : option Z.

Lemma collect_urls_gen (fuel : nat) :
  ∀ (page_num : Z) (all_server_urls : list string) (visited : list Z),
    (1 ≤ fuel)%nat →
    scrape_single_page = true ∨ (Z.to_nat (101 - page_num) ≤ fuel)%nat →
    Forall (fun u => collected_url u = true) all_server_urls →
    (∀ m : Z, max_servers = Some m → (0 < m)%Z →
              (Z.of_nat (length all_server_urls) < m)%Z) →
    ∃ (urls : list string) (k : nat),
      collect_urls listing fuel page_num scrape_single_page max_servers
        all_server_urls visited
      = Some (urls, visited ++ range page_num (page_num + Z.of_nat k))
      ∧ (1 ≤ k)%nat
      ∧ (scrape_single_page = true → k = 1%nat)
      ∧ (k = 1%nat ∨ (page_num + Z.of_nat k ≤ 101)%Z)
      ∧ Forall (fun u => collected_url u = true) urls
      ∧ (∀ m : Z, max_servers = Some m → (0 < m)%Z →
                  (Z.of_nat (length urls) ≤ m)%Z).
Proof.
  induction fuel as [|fuel IH]; intros page_num all visited Hf Hfuel Hall Hlen;
    [lia|].
  assert (Hone : range page_num (page_num + Z.of_nat 1) = [page_num]).
  { rewrite range_cons, range_nil by lia. done. }
  assert (Hstop : ∀ urls : list string,
            Forall (fun u => collected_url u = true) urls →
            (∀ m : Z, max_servers = Some m → (0 < m)%Z →
                      (Z.of_nat (length urls) ≤ m)%Z) →
            ∃ (urls' : list string) (k : nat),
              Some (urls, visited ++ [page_num])
              = Some (urls', visited ++ range page_num (page_num + Z.of_nat k))
              ∧ (1 ≤ k)%nat
              ∧ (scrape_single_page = true → k = 1%nat)
              ∧ (k = 1%nat ∨ (page_num + Z.of_nat k ≤ 101)%Z)
              ∧ Forall (fun u => collected_url u = true) urls'
              ∧ (∀ m : Z, max_servers = Some m → (0 < m)%Z →
                          (Z.of_nat (length urls') ≤ m)%Z)).
  { intros urls H1 H2. exists urls, 1%nat. rewrite Hone.
    repeat split; try done. by left. }
  cbn [collect_urls].
  destruct (listing page_num) as [[|link links]|].
  - apply Hstop; [done|]. intros m Hm Hpos. specialize (Hlen m Hm Hpos). lia.
  - set (all' := all ++ sorted (page_server_urls (link :: links) ∅)).
    assert (Hall' : Forall (fun u => collected_url u = true) all').
    { unfold all'. apply Forall_app. split; [done|].
      apply Forall_forall. intros u Hu. apply elem_of_sorted in Hu.
      revert u Hu. apply page_server_urls_collected.
      intros u Hu. by apply not_elem_of_empty in Hu. }
    destruct (truthy_int max_servers
              && (default 0%Z max_servers <=? Z.of_nat (length all'))%Z)
      eqn:Hmax.
    + apply Hstop; [by apply Forall_list_slice_to|].
      intros m Hm Hpos. rewrite Hm in Hmax |- *.
      change (default 0%Z (Some m)) with m in *.
      apply andb_true_iff in Hmax as [_ Hle%Z.leb_le].
      rewrite list_slice_to_length by lia. lia.
    + assert (Hlen' : ∀ m : Z, max_servers = Some m → (0 < m)%Z →
                (Z.of_nat (length all') < m)%Z).
      { intros m Hm Hpos. rewrite Hm in Hmax.
        change (default 0%Z (Some m)) with m in Hmax.
        change (truthy_int (Some m)) with (negb (m =? 0)%Z) in Hmax.
        replace (m =? 0)%Z with false in Hmax by lia.
        cbn [negb andb] in Hmax. apply Z.leb_gt in Hmax. lia. }
      destruct scrape_single_page eqn:Hsingle.
      * apply Hstop; [done|]. intros m Hm Hpos.
        specialize (Hlen' m Hm Hpos). lia.
      * destruct (100 <? page_num + 1)%Z eqn:H100.
        -- apply Hstop; [done|]. intros m Hm Hpos.
           specialize (Hlen' m Hm Hpos). lia.
        -- apply Z.ltb_ge in H100.
           destruct Hfuel as [Hfuel|Hfuel]; [done|].
           destruct (IH (page_num + 1)%Z all' (visited ++ [page_num]))
             as (urls & k & E & Hk & Hs & Hk' & Hu & Hm);
             [lia|right; lia|done|done|].
           exists urls, (S k). rewrite E.
           rewrite (range_cons page_num (page_num + Z.of_nat (S k))) by lia.
           replace (page_num + 1 + Z.of_nat k)%Z
             with (page_num + Z.of_nat (S k))%Z by lia.
           rewrite <- app_assoc.
           repeat split; try done; lia.
  - apply Hstop; [done|]. intros m Hm Hpos. specialize (Hlen m Hm Hpos). lia.
Qed.

End Collect.

(** ** The accounting of a run *)





Section Run.

Variable scrape_server_page : nat → string → option dict.



End Run.

(** X12: the collection loop of [scrape_all_servers] always ends.  It
    requests the listing pages one after the other, at most 100 of
    them, and only the page [max_pages] when that is given.  Every URL
    it collects reads [https://smithery.ai/server/...] without a query,
    and with a positive [max_servers] it collects at most that many. *)
Theorem collect_urls_spec (listing : Z → option (list (option string)))
    (max_pages max_servers : option Z) :
  let page_num := if truthy_int max_pages then default 0%Z max_pages else 1%Z in
  ∃ (urls : list string) (k : nat),
    collect_urls listing 100 page_num (truthy_int max_pages) max_servers [] []
    = Some (urls, range page_num (page_num + Z.of_nat k))
    ∧ (1 ≤ k ≤ 100)%nat
    ∧ (truthy_int max_pages = true → k = 1%nat)
    ∧ Forall (fun u => collected_url u = true) urls
    ∧ ∀ m : Z, max_servers = Some m → (0 < m)%Z →
               (Z.of_nat (length urls) ≤ m)%Z.
Proof.
  intros page_num.
  destruct (collect_urls_gen listing (truthy_int max_pages) max_servers 100
              page_num [] [])
    as (urls & k & E & Hk & Hs & Hk' & Hu & Hm).
  - lia.
  - unfold page_num. destruct (truthy_int max_pages); [by left|right; lia].
  - done.
  - intros m _ Hpos. cbn [length]. lia.
  - exists urls, k. rewrite E. cbn [app]. repeat split; try done.
    destruct Hk' as [-> | Hk']; [lia|].
    unfold page_num in Hk'. destruct (truthy_int max_pages); [|lia].
    rewrite Hs by done. lia.
Qed.

(** ** The pool of workers *)







Section Pool.

Variable scrape_server_page : nat → string → option dict.
Variable urls : list string.
Variable max_workers : Z.
Variable incremental : bool.
Variable total : Z.





















End Pool.




Section Phase.

Variable scrape_server_page : nat → string → option dict.
Variable as_completed : list nat → list nat.
Variable schedule : list nat.
Variable incremental : bool.
Hypothesis as_completed_perm : ∀ futures, as_completed futures ≡ₚ futures.




End Phase.



(** A task that takes its steps without another task in between does
    what [scrape_single_server_with_browser] does. *)
Section Alone.

Variable scrape_server_page : nat → string → option dict.
Variable max_retries : Z.
Variable url : string.

Lemma steps_returned (k : nat) (r : option dict) (self : SmitheryScraper)
    (w : World) :
  Nat.iter k (run_step scrape_server_page max_retries url)
    (Returned r, self, w)
  = (Returned r, self, w).
Proof.
  induction k as [|k IH]; [done|].
  rewrite Nat.iter_succ_r. cbn [run_step fst snd task_step]. exact IH.
Qed.

Lemma steps_retry (attempts : list Z) :
  ∀ (k : nat) (self : SmitheryScraper) (w : World),
    (3 * length attempts + 1 ≤ k)%nat →
    Nat.iter k (run_step scrape_server_page max_retries url)
      (Trying attempts, self, w)
    = let '(self', w', r) :=
        retry_attempts scrape_server_page attempts max_retries url self w in
      (Returned r, self', w').
Proof.
  induction attempts as [|attempt attempts IH]; intros k self w Hk.
  - destruct k as [|k]; [cbn in Hk; lia|].
    rewrite Nat.iter_succ_r. cbn [run_step fst snd task_step retry_attempts].
    apply steps_returned.
  - cbn [length] in Hk.
    destruct k as [|[|[|k]]]; try lia.
    rewrite Nat.iter_succ_r. cbn [run_step fst snd task_step retry_attempts].
    unfold attempt_once, Scraper.call_scrape_server_page.
    destruct (scrape_server_page (calls w) url) as [d|].
    + destruct (truthy_dict d).
      * rewrite Nat.iter_succ_r. cbn [run_step fst snd task_step].
        destruct (update_stats (stats self) (normalize_server d)) as [st|].
        -- rewrite Nat.iter_succ_r. cbn [run_step fst snd task_step].
           apply steps_returned.
        -- rewrite Nat.iter_succ_r. cbn [run_step fst snd task_step].
           destruct (attempt <? max_retries - 1)%Z.
           ++ rewrite IH by lia. done.
           ++ apply steps_returned.
      * apply steps_returned.
    + rewrite Nat.iter_succ_r. cbn [run_step fst snd task_step].
      destruct (attempt <? max_retries - 1)%Z.
      * rewrite IH by lia. done.
      * apply steps_returned.
Qed.

Lemma task_alone (self : SmitheryScraper) (w : World) :
  Nat.iter (steps_left max_retries Queued)
    (run_step scrape_server_page max_retries url) (Queued, self, w)
  = let '(self', w', r) :=
      scrape_single_server_with_browser scrape_server_page self w url
        max_retries in
    (Returned r, self', w').
Proof.
  cbn [steps_left]. rewrite Nat.add_comm. cbn [Nat.add].
  rewrite Nat.iter_succ_r. cbn [run_step fst snd task_step].
  by rewrite steps_retry by lia.
Qed.

End Alone.


(** In pool mode the file and the memory may hold the records in
    different orders: the second task writes its record while the first
    one is at work, and [as_completed] hands back the first task
    first. *)
Example pool_orders_differ :
  ∃ (self' : SmitheryScraper) (w' : World),
    scrape_all_servers two_pages two_links (fun futures => futures)
      [0; 1; 1; 1; 1]%nat (new_scraper true) new_world None None 2
    = Some (self', w', [1; 2]%Z)
    ∧ record_url <$> servers_data self'
      = [PStr "https://smithery.ai/server/a";
         PStr "https://smithery.ai/server/b"]
    ∧ record_url <$> jsonl_records w'
      = [PStr "https://smithery.ai/server/b";
         PStr "https://smithery.ai/server/a"]
    ∧ stats self' = mkStats 2 2 2 0 0 2.
Proof. eexists _, _. split; [vm_compute; reflexivity|]. by vm_compute. Qed.

(** ** Loading a URL list *)



Section LoadUrls.

Variable py_str : pyval → string.

Lemma collect_items_omap (data : list pyval) :
  ∀ urls : list string,
    Rescrape.collect_items py_str data urls
    = urls ++ omap (item_url py_str) data.
Proof.
  induction data as [|item data IH]; intros urls.
  - cbn. by rewrite app_nil_r.
  - cbn [Rescrape.collect_items omap list_omap]. rewrite IH.
    unfold item_url at 2.
    destruct item as [| | |s|l|d]; try done.
    + destruct (truthy (strip s)); [|done]. by rewrite <- app_assoc.
    + cbv zeta.
      destruct (truthy_val (Dict.get d "server_url" PNone)); [|done].
      by rewrite <- app_assoc.
Qed.

Lemma item_url_stripped (item : pyval) (u : string) :
  item_url py_str item = Some u → strip u = u.
Proof.
  unfold item_url. destruct item as [| | |s|l|d]; try done.
  - destruct (truthy (strip s)); [|done]. intros [= <-]. apply strip_idem.
  - cbv zeta. destruct (truthy_val _); [|done]. intros [= <-]. apply strip_idem.
Qed.

Lemma drop_seen_spec (urls : list string) :
  ∀ (seen : gset string) (uniq : list string),
    NoDup uniq → (∀ u, u ∈ uniq → u ∈ seen) →
    ∃ kept : list string,
      Rescrape.drop_seen urls seen uniq = uniq ++ kept
      ∧ NoDup (uniq ++ kept)
      ∧ sublist kept urls
      ∧ ∀ u, u ∈ kept ↔ u ∈ urls ∧ u ∉ seen.
Proof.
  induction urls as [|url urls IH]; intros seen uniq Hnd Hsub.
  - exists []. cbn [Rescrape.drop_seen]. rewrite app_nil_r.
    split; [done|]. split; [done|]. split; [done|].
    intros u. split.
    + intros Hu. by apply elem_of_nil in Hu.
    + intros [Hu _]. by apply elem_of_nil in Hu.
  - cbn [Rescrape.drop_seen]. case_bool_decide as Hseen.
    + destruct (IH seen uniq Hnd Hsub) as (kept & E & Hnd' & Hsl & Hel).
      exists kept. split; [done|]. split; [done|].
      split; [by apply sublist_cons|].
      intros u. split.
      * intros Hu. apply Hel in Hu as [Hu Hn]. split; [by right|done].
      * intros [Hu Hn]. apply Hel. split; [|done].
        apply elem_of_cons in Hu as [-> | Hu]; done.
    + destruct (IH (seen ∪ {[url]}) (uniq ++ [url]))
        as (kept & E & Hnd' & Hsl & Hel).
      * apply NoDup_app. split; [done|]. split; [|apply NoDup_singleton].
        intros u Hu ->%list_elem_of_singleton. by apply Hseen, Hsub.
      * intros u [Hu | ->%list_elem_of_singleton]%elem_of_app.
        -- apply elem_of_union. left. by apply Hsub.
        -- apply elem_of_union. right. by apply elem_of_singleton.
      * exists (url :: kept). rewrite E, <- app_assoc. cbn [app].
        rewrite <- app_assoc in Hnd'. cbn [app] in Hnd'.
        split; [done|]. split; [done|]. split; [by apply sublist_skip|].
        intros u. split.
        -- intros [-> | Hu]%elem_of_cons.
           ++ split; [by left|done].
           ++ apply Hel in Hu as [Hu Hn]. split; [by right|].
              intros Hs. apply Hn. apply elem_of_union. by left.
        -- intros [Hu Hn]. apply elem_of_cons in Hu as [-> | Hu]; [by left|].
           destruct (decide (u = url)) as [-> | Hne]; [by left|].
           right. apply Hel. split; [done|].
           intros [Hs | Hs%elem_of_singleton]%elem_of_union; done.
Qed.

End LoadUrls.

Lemma first_occurrences_subset (l : list string) (x : string) :
  x ∈ first_occurrences l → x ∈ l.
Proof.
  induction l as [|y l IH]; cbn [first_occurrences]; [done|].
  intros [->|[_ H]%list_elem_of_filter]%elem_of_cons;
    apply elem_of_cons; auto.
Qed.

Lemma filter_first_occurrences (P : string → Prop) `{!∀ x, Decision (P x)}
    (l : list string) :
  filter P (first_occurrences l) = first_occurrences (filter P l).
Proof.
  induction l as [|x l IH]; [done|].
  cbn [first_occurrences]. rewrite !filter_cons.
  destruct (decide (P x)) as [Hx|Hx].
  - cbn [first_occurrences]. f_equal. rewrite <- IH.
    rewrite !list_filter_filter. apply list_filter_iff. tauto.
  - rewrite list_filter_filter_l; [exact IH|].
    intros y Hy ->. done.
Qed.

Lemma filter_all {A} (P : A → Prop) `{!∀ x, Decision (P x)} (l : list A) :
  (∀ x, P x) → filter P l = l.
Proof.
  intros Hall. induction l as [|x l IH]; [done|].
  rewrite filter_cons, decide_True by done. by rewrite IH.
Qed.

Lemma drop_seen_first (urls : list string) (seen : gset string)
    (uniq : list string) :
  Rescrape.drop_seen urls seen uniq
  = uniq ++ first_occurrences (filter (fun u => u ∉ seen) urls).
Proof.
  revert seen uniq. induction urls as [|url urls IH]; intros seen uniq.
  - cbn. by rewrite app_nil_r.
  - cbn [Rescrape.drop_seen]. rewrite filter_cons.
    case_bool_decide as Hin.
    + rewrite decide_False by tauto. apply IH.
    + rewrite decide_True by done. rewrite IH, <- app_assoc.
      cbn [app first_occurrences]. do 2 f_equal.
      rewrite filter_first_occurrences, list_filter_filter.
      f_equal. apply list_filter_iff. intros y.
      rewrite not_elem_of_union, not_elem_of_singleton. tauto.
Qed.

(** X14: on a JSON list, [load_urls] returns the URLs of its items in
    their order of first occurrence: the stripped strings that are not
    blank and the stripped [server_url] of the objects that have a true
    one; other items are skipped.  The result is the list of these URLs
    with every repetition after the first one removed; so it has no
    duplicate, holds the same URLs as the items, keeps their order, and
    no URL in it has white space around it. *)
Theorem load_urls_spec (py_str : pyval → string) (items : list pyval) :
  ∃ urls : list string,
    Rescrape.load_urls py_str (PList items) = Some urls
    ∧ urls = first_occurrences (omap (item_url py_str) items)
    ∧ NoDup urls
    ∧ sublist urls (omap (item_url py_str) items)
    ∧ (∀ u : string, u ∈ urls ↔ u ∈ omap (item_url py_str) items)
    ∧ Forall (fun u => strip u = u) urls.
Proof.
  unfold Rescrape.load_urls. rewrite collect_items_omap. cbn [app].
  destruct (drop_seen_spec (omap (item_url py_str) items) ∅ [])
    as (kept & E & Hnd & Hsl & Hel).
  - apply NoDup_nil_2.
  - intros u Hu. by apply elem_of_nil in Hu.
  - cbn [app] in *. exists kept. rewrite E.
    split; [done|]. split.
    { rewrite <- E, drop_seen_first. cbn [app]. f_equal.
      apply filter_all. intros u. apply not_elem_of_empty. }
    split; [done|]. split; [done|]. split.
    + intros u. split.
      * intros Hu. by apply Hel in Hu as [Hu _].
      * intros Hu. apply Hel. split; [done|]. apply not_elem_of_empty.
    + apply Forall_forall. intros u Hu. apply Hel in Hu as [Hu _].
      apply list_elem_of_omap in Hu as (item & _ & Hi).
      by apply (item_url_stripped py_str item).
Qed.

Example load_urls_example :
  Rescrape.load_urls (fun _ => EmptyString) example_url_list
  = Some ["https://smithery.ai/server/a"; "https://smithery.ai/server/b"].
Proof. vm_compute. reflexivity. Qed.

(** ** The two re-scrape tools *)

(** X15: for the same numbers of tools found and expected,
    [rescrape_server] of [rescrape_problematic_servers.py] and
    [classify] of [rescrape_missing_servers.py] give the same status,
    except when no tool is expected and none is found: the former
    counts that a success, the latter a failure. *)
Theorem problematic_status_vs_classify (server_data : dict) (T : list pyval)
    (e : Z) :
  Dict.get server_data "tools" (PList []) = PList T →
  Dict.get server_data "total_tools" (PInt 0) = PInt e →
  let actual_tools := Z.of_nat (length T) in
  Rescrape.classify server_data
  = Some (if (actual_tools =? 0)%Z && (e =? 0)%Z then FAILED
          else Problematic.status actual_tools (PInt e))
  ∧ ((actual_tools =? 0)%Z && (e =? 0)%Z = true →
     Problematic.status actual_tools (PInt e) = SUCCESS).
Proof.
  intros HT He actual_tools. unfold Rescrape.classify, Problematic.status.
  rewrite HT, He. cbn [py_len mbind option_bind int_eq].
  fold actual_tools. rewrite outcome_of_int.
  assert (0 ≤ actual_tools)%Z by (unfold actual_tools; lia).
  destruct (actual_tools =? e)%Z eqn:E1, (actual_tools =? 0)%Z eqn:E2,
    (e =? 0)%Z eqn:E3, (0 <? e)%Z eqn:E4, (0 <? actual_tools)%Z eqn:E5;
    cbn [andb]; split; try done; lia.
Qed.

Lemma problematic_status_vs_classify_witness :
  Rescrape.classify example_empty_record
  = Some (if (Z.of_nat (length (@nil pyval)) =? 0)%Z && (0 =? 0)%Z then FAILED
          else Problematic.status (Z.of_nat (length (@nil pyval))) (PInt 0))
  ∧ ((Z.of_nat (length (@nil pyval)) =? 0)%Z && (0 =? 0)%Z = true →
     Problematic.status (Z.of_nat (length (@nil pyval))) (PInt 0) = SUCCESS).
Proof.
  apply (problematic_status_vs_classify example_empty_record [] 0);
    reflexivity.
Defined.

Lemma classify_normalized (server : dict) :
  normalize_server server = server →
  Rescrape.classify server
  = Some (if (0 <? Z.of_nat (length (tools_of server)))%Z then SUCCESS
          else FAILED).
Proof.
  intros <-. destruct (tools_of_normalize server) as (ts & Ht & Hg & Hn).
  unfold Rescrape.classify. rewrite Hg, Hn, Ht.
  cbn [py_len mbind option_bind]. rewrite outcome_of_int, Z.eqb_refl.
  cbn [andb]. by destruct (0 <? Z.of_nat (length ts))%Z.
Qed.

(** X16: [classify] never answers PARTIAL on a record that
    [scrape_single_server_with_browser] returns: the record comes back
    normalized, its [total_tools] being the number of its tools, so
    the status is SUCCESS when it has a tool and FAILED when it has
    none. *)
Theorem rescrape_never_partial
    (scrape_server_page : nat → string → option dict)
    (self : SmitheryScraper) (w : World) (server_url : string)
    (max_retries : Z) :
  match (scrape_single_server_with_browser scrape_server_page self w
           server_url max_retries).2 with
  | Some server_data =>
      if truthy_dict server_data
      then Rescrape.classify server_data
           = Some (if (0 <? Z.of_nat (length (tools_of server_data)))%Z
                   then SUCCESS else FAILED)
      else True
  | None => True
  end.
Proof.
  unfold scrape_single_server_with_browser.
  pose proof (retry_attempts_accounting scrape_server_page server_url
                (range 0 max_retries) max_retries self w) as H.
  destruct (retry_attempts _ _ _ _ _ _) as [[self' w'] [d|]]; [|done].
  cbn [snd]. destruct H as (_ & _ & _ & H).
  destruct (truthy_dict d); [|done]. destruct H as (Hn & _).
  by apply classify_normalized.
Qed.

(** ** The fallback parser of tools *)

Lemma description_lines_suffix (lines : list string) :
  ∀ desc_lines : list string,
    (description_lines lines desc_lines).2 `suffix_of` lines.
Proof.
  induction lines as [|d lines IH]; intros desc; cbn [description_lines].
  - done.
  - destruct (negb (truthy (strip d))); [by apply suffix_cons_r|].
    destruct (ends_description (strip d)); [done|]. by apply suffix_cons_r.
Qed.

Lemma tools_loop_name (l : string) (rest : list string) (tools : list pyval) :
  truthy (strip l) = true →
  strip l ∉ ["Connect"; "Details"; "Company"; "Capabilities"] →
  strip l ∉ ["Resources"; "Prompts"] →
  tools_loop (l :: rest) tools
  = tools_loop (description_lines rest []).2
      (tools ++ [fallback_tool (strip l)
                   (strip (join " " (description_lines rest []).1))]).
Proof.
  intros Ht H1 H2. cbn [tools_loop]. rewrite Ht. cbn [negb].
  rewrite !bool_decide_false by done.
  match goal with
  | |- ?f rest [] = _ =>
      assert (Hgen : ∀ (lines desc : list string),
                f lines desc
                = tools_loop (description_lines lines desc).2
                    (tools ++ [fallback_tool (strip l)
                                 (strip (join " "
                                           (description_lines lines desc).1))]))
  end.
  { induction lines as [|d lines IH]; intros desc.
    - reflexivity.
    - cbn [description_lines]. unfold ends_description.
      destruct (negb (truthy (strip d))) eqn:Hb.
      + by rewrite <- IH.
      + destruct (bool_decide _ || _ || _) eqn:He.
        * reflexivity.
        * by rewrite <- IH. }
  apply Hgen.
Qed.

Lemma tools_loop_blank (l : string) (rest : list string) (tools : list pyval) :
  truthy (strip l) = false →
  tools_loop (l :: rest) tools = tools_loop rest tools.
Proof. intros H. cbn [tools_loop]. by rewrite H. Qed.

Lemma tools_loop_stop (l : string) (rest : list string) (tools : list pyval) :
  truthy (strip l) = true →
  strip l ∈ ["Connect"; "Details"; "Company"; "Capabilities"] →
  tools_loop (l :: rest) tools = tools.
Proof.
  intros Ht H. cbn [tools_loop]. rewrite Ht. cbn [negb].
  by rewrite bool_decide_true.
Qed.

Lemma tools_loop_label (l : string) (rest : list string) (tools : list pyval) :
  truthy (strip l) = true →
  strip l ∉ ["Connect"; "Details"; "Company"; "Capabilities"] →
  strip l ∈ ["Resources"; "Prompts"] →
  tools_loop (l :: rest) tools
  = match rest with
    | n :: rest' =>
        if isdigit n then tools_loop rest' tools else tools_loop rest tools
    | [] => tools
    end.
Proof.
  intros Ht H1 H2. cbn [tools_loop]. rewrite Ht. cbn [negb].
  rewrite bool_decide_false, bool_decide_true by done. by destruct rest.
Qed.

Lemma sublist_fmap_suffix (f : string → string) (k l m : list string) :
  sublist k (f <$> l) → l `suffix_of` m → sublist k (f <$> m).
Proof.
  intros Hk [p ->]. rewrite fmap_app. by apply sublist_inserts_l.
Qed.

Lemma tools_loop_spec (n : nat) :
  ∀ (lines : list string) (tools : list pyval),
    length lines ≤ n →
    ∃ found : list (string * string),
      tools_loop lines tools
      = tools ++ ((fun nd => fallback_tool nd.1 nd.2) <$> found)
      ∧ Forall (fun nd => fallback_name nd.1 ∧ strip nd.2 = nd.2) found
      ∧ sublist (found.*1) (strip <$> lines).
Proof.
  induction n as [|n IH]; intros lines tools Hn.
  - destruct lines; [|cbn in Hn; lia]. exists []. cbn.
    by rewrite app_nil_r.
  - destruct lines as [|l rest].
    { exists []. cbn. by rewrite app_nil_r. }
    cbn [length] in Hn. rewrite fmap_cons.
    destruct (truthy (strip l)) eqn:Ht.
    2:{ rewrite tools_loop_blank by done.
        destruct (IH rest tools) as (found & E & Hf & Hs); [lia|].
        exists found. split; [done|]. split; [done|]. by apply sublist_cons. }
    destruct (decide (strip l ∈ ["Connect"; "Details"; "Company";
                                 "Capabilities"])) as [H1|H1].
    { rewrite tools_loop_stop by done. exists []. cbn.
      rewrite app_nil_r. split; [done|]. split; [done|]. apply sublist_nil_l. }
    destruct (decide (strip l ∈ ["Resources"; "Prompts"])) as [H2|H2].
    { rewrite tools_loop_label by done.
      destruct rest as [|d rest'].
      - exists []. cbn. rewrite app_nil_r.
        split; [done|]. split; [done|]. apply sublist_nil_l.
      - destruct (isdigit d).
        + destruct (IH rest' tools) as (found & E & Hf & Hs);
            [cbn [length] in Hn; lia|].
          exists found. split; [done|]. split; [done|].
          rewrite fmap_cons. by do 2 apply sublist_cons.
        + destruct (IH (d :: rest') tools) as (found & E & Hf & Hs); [lia|].
          exists found. split; [done|]. split; [done|]. by apply sublist_cons. }
    rewrite tools_loop_name by done.
    pose proof (description_lines_suffix rest []) as Hsuf.
    destruct (description_lines rest []) as [desc remaining]. cbn [fst snd] in *.
    destruct (IH remaining
                (tools ++ [fallback_tool (strip l) (strip (join " " desc))]))
      as (found & E & Hf & Hs).
    { apply suffix_length in Hsuf. lia. }
    exists ((strip l, strip (join " " desc)) :: found).
    rewrite E, <- app_assoc. split; [done|]. split.
    + apply Forall_cons. split; [|done]. cbn [fst snd].
      split; [|apply strip_idem].
      split; [done|]. split; [apply strip_idem|].
      intros Hin. rewrite !elem_of_cons in Hin.
      rewrite !not_elem_of_cons in H1. rewrite !not_elem_of_cons in H2.
      destruct H1 as (? & ? & ? & ? & _), H2 as (? & ? & _).
      rewrite elem_of_nil in Hin. destruct_or!; done.
    + rewrite fmap_cons. cbn [fst]. apply sublist_skip.
      by apply (sublist_fmap_suffix strip _ remaining).
Qed.

Lemma after_tools_header_spec (lines rest : list string) :
  after_tools_header lines = Some rest →
  rest `suffix_of` lines ∧ "Tools" ∈ lines.
Proof.
  induction lines as [|l lines IH]; [done|]. cbn [after_tools_header].
  destruct (String.eqb_spec l "Tools") as [-> | Hne].
  - intros [= ->]. split; [by apply suffix_cons_r|]. by left.
  - intros H. destruct (IH H) as [H1 H2].
    split; [by apply suffix_cons_r|by right].
Qed.

Lemma after_tools_header_none (lines : list string) :
  after_tools_header lines = None ↔ "Tools" ∉ lines.
Proof.
  induction lines as [|l lines IH]; cbn [after_tools_header].
  - split; [|done]. intros _ H. by apply elem_of_nil in H.
  - destruct (String.eqb_spec l "Tools") as [-> | Hne].
    + split; [done|]. intros H. destruct H. by left.
    + rewrite IH. rewrite not_elem_of_cons. split; [done|]. by intros [_ ?].
Qed.

Lemma skip_counts_suffix (lines : list string) :
  skip_counts lines `suffix_of` lines.
Proof.
  induction lines as [|l lines IH]; [done|]. cbn [skip_counts].
  destruct (isdigit l || contains_char "/" l); [|done].
  by apply suffix_cons_r.
Qed.

(** X17: the fallback parser returns no tool when the page text has no
    line that reads [Tools].  Otherwise every tool it returns has the
    empty schema [{"type": "object", "properties": {}}], a stripped
    description and, as its name, a stripped line of the text that is
    not blank and is none of the section labels; the names follow the
    order of the lines, each line giving at most one tool. *)
Theorem parse_tools_from_text_spec (body_text : string) :
  ∃ found : list (string * string),
    parse_tools_from_text body_text
    = (fun nd => fallback_tool nd.1 nd.2) <$> found
    ∧ Forall (fun nd => fallback_name nd.1 ∧ strip nd.2 = nd.2) found
    ∧ sublist (found.*1) (strip <$> split_on "010" body_text)
    ∧ ("Tools" ∉ strip <$> split_on "010" body_text → found = []).
Proof.
  unfold parse_tools_from_text.
  set (lines := strip <$> split_on "010" body_text).
  destruct (after_tools_header lines) as [rest|] eqn:Hh.
  - destruct (after_tools_header_spec _ _ Hh) as [Hsuf Hin].
    destruct (tools_loop_spec (length (skip_counts rest)) (skip_counts rest) [])
      as (found & E & Hf & Hs); [done|].
    exists found. rewrite E. split; [done|]. split; [done|]. split; [|done].
    assert (Hidem : strip <$> lines = lines).
    { unfold lines. rewrite <- list_fmap_compose. apply list_fmap_ext.
      intros i x _. apply strip_idem. }
    rewrite <- Hidem.
    apply (sublist_fmap_suffix strip _ (skip_counts rest)); [done|].
    etrans; [apply skip_counts_suffix|done].
  - exists []. split; [done|]. split; [done|]. split; [apply sublist_nil_l|done].
Qed.

Example parse_tools_from_text_example :
  parse_tools_from_text example_tools_text
  = [fallback_tool "fetch" "retrieves the content of a page as markdown text";
     fallback_tool "Search" ""].
Proof. vm_compute. reflexivity. Qed.

(** ** One tool, after its element was clicked *)

Lemma parse_parameters_ok (text : string) (start_pos : Z) :
  (∀ (name : string) (v : pyval),
     (name, v) ∈ (parse_parameters_from_text text start_pos).1 → entry_ok v)
  ∧ (∀ name : string,
       name ∈ (parse_parameters_from_text text start_pos).2 →
       name ∈ Dict.keys (parse_parameters_from_text text start_pos).1).
Proof.
  unfold parse_parameters_from_text. cbn [fst snd].
  set (lines := split_on "010" (slice (Some start_pos) None text)).
  set (st0 := mkParseState [] [] None None [] 0).
  assert (Hok : state_ok (save_parameter (scan_lines lines st0))).
  { apply save_parameter_ok, scan_lines_ok.
    repeat split; simpl; intros; try done; by apply elem_of_nil in H. }
  destruct Hok as (Hp & Hr & _). by split.
Qed.

Lemma description_scan_short (tool_name : string) (lines : list string) :
  ∀ (found_tool : bool) (desc_lines : list string),
    length desc_lines < 3 →
    Forall (fun l => (30 < len l)%Z ∧ strip l = l) desc_lines →
    length (description_scan lines tool_name found_tool desc_lines) ≤ 3
    ∧ Forall (fun l => (30 < len l)%Z ∧ strip l = l)
        (description_scan lines tool_name found_tool desc_lines).
Proof.
  induction lines as [|line lines IH]; intros found desc Hlen Hall;
    cbn [description_scan].
  - split; [lia|done].
  - destruct (contains tool_name (strip line)); [by apply IH|].
    destruct found; [|by apply IH].
    case_bool_decide; [split; [lia|done]|].
    set (desc' := if truthy (strip line) && (30 <? len (strip line))%Z
                  then desc ++ [strip line] else desc).
    assert (Hd : length desc' ≤ 3
                 ∧ Forall (fun l => (30 < len l)%Z ∧ strip l = l) desc').
    { unfold desc'.
      destruct (truthy (strip line) && (30 <? len (strip line))%Z) eqn:E;
        [|split; [lia|done]].
      apply andb_true_iff in E as [_ E%Z.ltb_lt].
      rewrite length_app. cbn [length]. split; [lia|].
      apply Forall_app. split; [done|]. apply Forall_singleton.
      split; [done|apply strip_idem]. }
    destruct Hd as [Hd1 Hd2].
    destruct (3 <=? length desc')%nat eqn:E3; [done|].
    apply Nat.leb_gt in E3. by apply IH.
Qed.

(** X18: a tool that [extract_tool_with_params] returns carries the
    name it was asked for, a stripped description made of at most three
    lines of more than 30 characters each, and a schema of type
    [object] whose properties each hold a type among the six type
    tokens and a description.  The schema has a [required] entry only
    when a parameter is required, and every name listed there is one
    of the properties.  The tool is in the normal form of
    [normalize_server], and without the word [Parameters] in the page
    text it has no property. *)
Theorem extract_tool_schema (body_text tool_name : string) :
  ∃ (desc_lines : list string) (parameters : dict) (required : list string),
    extract_tool_with_params body_text tool_name
    = [("name", PStr tool_name);
       ("description", PStr (strip (join " " desc_lines)));
       ("inputSchema",
        PDict ([("type", PStr "object"); ("properties", PDict parameters)]
               ++ match required with
                  | [] => []
                  | _ :: _ => [("required", PList (PStr <$> required))]
                  end))]
    ∧ length desc_lines ≤ 3
    ∧ Forall (fun l => (30 < len l)%Z ∧ strip l = l) desc_lines
    ∧ (∀ (name : string) (v : pyval), (name, v) ∈ parameters → entry_ok v)
    ∧ (∀ name : string, name ∈ required → name ∈ Dict.keys parameters)
    ∧ (contains "Parameters" body_text = false
       → parameters = [] ∧ required = [])
    ∧ normalize_tool (PDict (extract_tool_with_params body_text tool_name))
      = Some (PDict (extract_tool_with_params body_text tool_name)).
Proof.
  unfold extract_tool_with_params.
  destruct (description_scan_short tool_name (split_on "010" body_text)
              false []) as [Hl Hf]; [cbn; lia|done|].
  set (desc_lines := description_scan _ _ _ _) in *.
  destruct (contains "Parameters" body_text) eqn:Hc.
  - set (start := (find_sub "Parameters" body_text + len "Parameters")%Z).
    destruct (parse_parameters_ok body_text start) as [Hp Hr].
    destruct (parse_parameters_from_text body_text start)
      as [parameters required].
    cbn [fst snd] in *.
    exists desc_lines, parameters, required.
    split; [by destruct required|].
    split; [done|]. split; [done|]. split; [done|]. split; [done|].
    split; [done|]. by destruct required.
  - exists desc_lines, [], []. split; [done|].
    split; [done|]. split; [done|].
    split; [by intros name v H; apply elem_of_nil in H|].
    split; [by intros name H; apply elem_of_nil in H|]. done.
Qed.

Example extract_tool_example :
  extract_tool_with_params example_tool_text "search_web"
  = [("name", PStr "search_web");
     ("description",
      PStr "Searches the web and returns the ten best results");
     ("inputSchema",
      PDict [("type", PStr "object");
             ("properties",
              PDict [("query",
                      PDict [("type", PStr "string");
                             ("description", PStr "The text to look for")])]);
             ("required", PList [PStr "query"])])].
Proof. vm_compute. reflexivity. Qed.

(** ** Reading the prior snapshot *)

Lemma normalize_nonempty (x r : string) :
  truthy x = true → normalize_server_url x = Some r → truthy r = true.
Proof.
  intros Hx Hr.
  destruct (normalize_shape x r Hx Hr) as (s & n & p & Hs & _ & _ & ->).
  by destruct (good_scheme_facts s Hs) as (c & s' & -> & _).
Qed.

Lemma load_entries_spec (data : list pyval) :
  ∀ acc : gset string,
    (∀ raw : pyval, Some raw ∈ entry_url <$> data →
       ∃ s : string, raw = PStr s ∧ normalize_server_url s ≠ None) →
    ∃ urls : gset string,
      Snapshot.load_entries data acc = Some urls
      ∧ ∀ u : string,
          u ∈ urls
          ↔ u ∈ acc
            ∨ ∃ s : string,
                Some (PStr s) ∈ entry_url <$> data
                ∧ normalize_server_url s = Some u.
Proof.
  induction data as [|entry data IH]; intros acc Hok.
  - exists acc. split; [done|]. intros u. split; [by left|].
    intros [Hu | (s & Hs & _)]; [done|]. by apply elem_of_nil in Hs.
  - assert (Hok' : ∀ raw : pyval, Some raw ∈ entry_url <$> data →
              ∃ s : string, raw = PStr s ∧ normalize_server_url s ≠ None).
    { intros raw Hraw. apply Hok. rewrite fmap_cons. by right. }
    assert (Hskip : entry_url entry = None →
              ∃ urls : gset string,
                Snapshot.load_entries data acc = Some urls
                ∧ ∀ u : string,
                    u ∈ urls
                    ↔ u ∈ acc
                      ∨ ∃ s : string,
                          Some (PStr s) ∈ entry_url <$> (entry :: data)
                          ∧ normalize_server_url s = Some u).
    { intros Hnone. destruct (IH acc Hok') as (urls & E & Hu).
      exists urls. split; [done|]. intros u. rewrite Hu, fmap_cons, Hnone.
      split; (intros [H | (s & Hs & Hn)]; [by left|right]); exists s;
        (split; [|done]).
      - by right.
      - by apply elem_of_cons in Hs as [Hs | Hs]. }
    cbn [Snapshot.load_entries].
    destruct entry as [| | | | |d]; try (by apply Hskip).
    cbv zeta. destruct (truthy_val (Dict.get d "server_url" PNone)) eqn:Ht;
      cbn [negb]; [|apply Hskip; cbn; by rewrite Ht].
    assert (Eu : entry_url (PDict d) = Some (Dict.get d "server_url" PNone))
      by (cbn; by rewrite Ht).
    destruct (Hok (Dict.get d "server_url" PNone)) as (s & Es & Hn).
    { rewrite fmap_cons, Eu. by left. }
    rewrite Es in *. cbn [Snapshot.normalize_value truthy_val] in *.
    destruct (normalize_server_url s) as [r|] eqn:Er; [|done].
    cbn [mbind option_bind]. rewrite (normalize_nonempty s r Ht Er).
    destruct (IH (acc ∪ {[r]}) Hok') as (urls & E & Hu).
    exists urls. split; [done|]. intros u. rewrite Hu, fmap_cons, Eu.
    rewrite elem_of_union, elem_of_singleton. split.
    + intros [[H | ->] | (s' & Hs & Hn')].
      * by left.
      * right. exists s. split; [by left|done].
      * right. exists s'. split; [by right|done].
    + intros [H | (s' & Hs & Hn')]; [by left; left|].
      apply elem_of_cons in Hs as [[= ->] | Hs].
      * left. right. congruence.
      * right. by exists s'.
Qed.

Lemma load_entries_raises (data : list pyval) (raw : pyval) :
  ∀ acc : gset string,
    Some raw ∈ entry_url <$> data →
    Snapshot.normalize_value raw = None →
    Snapshot.load_entries data acc = None.
Proof.
  induction data as [|entry data IH]; intros acc Hin Hn.
  - by apply elem_of_nil in Hin.
  - rewrite fmap_cons in Hin. cbn [Snapshot.load_entries].
    apply elem_of_cons in Hin as [Hin | Hin].
    + destruct entry as [| | | | |d]; try done. cbn in Hin.
      destruct (truthy_val (Dict.get d "server_url" PNone)); [|done].
      injection Hin as ->. cbn [negb]. by rewrite Hn.
    + destruct entry as [| | | | |d]; try (by apply IH).
      cbv zeta. destruct (negb _); [by apply IH|].
      destruct (Snapshot.normalize_value (Dict.get d "server_url" PNone));
        cbn [mbind option_bind]; [|reflexivity].
      by apply IH.
Qed.

(** X19: [load_scraped_server_urls] skips the entries that are no
    object and those whose [server_url] is absent or false.  When every
    other [server_url] is a string that the normalizer accepts, it
    returns the set of their normal forms, which never holds the empty
    string; a single [server_url] that is true and not a string, or
    that the normalizer rejects, makes the whole call raise. *)
Theorem load_scraped_server_urls_spec (entries : list pyval) :
  ((∀ raw : pyval, Some raw ∈ entry_url <$> entries →
      ∃ s : string, raw = PStr s ∧ normalize_server_url s ≠ None) →
   ∃ urls : gset string,
     Snapshot.load_scraped_server_urls (PList entries) = Some urls
     ∧ (EmptyString ∉ urls)
     ∧ ∀ u : string,
         u ∈ urls
         ↔ ∃ s : string,
             Some (PStr s) ∈ entry_url <$> entries
             ∧ normalize_server_url s = Some u)
  ∧ (∀ raw : pyval,
       Some raw ∈ entry_url <$> entries →
       Snapshot.normalize_value raw = None →
       Snapshot.load_scraped_server_urls (PList entries) = None).
Proof.
  split.
  - intros Hok. destruct (load_entries_spec entries ∅ Hok) as (urls & E & Hu).
    exists urls. split; [done|].
    assert (Hu' : ∀ u : string,
              u ∈ urls
              ↔ ∃ s : string,
                  Some (PStr s) ∈ entry_url <$> entries
                  ∧ normalize_server_url s = Some u).
    { intros u. rewrite Hu. split; [|by right].
      intros [H | H]; [by apply not_elem_of_empty in H|done]. }
    split; [|done]. intros He. apply Hu' in He as (s & Hs & Hn).
    assert (Ht : truthy s = true).
    { apply list_elem_of_fmap in Hs as (entry & Heq & _).
      destruct entry as [| | | | |d]; try done. cbn in Heq.
      destruct (truthy_val (Dict.get d "server_url" PNone)) eqn:Ht; [|done].
      injection Heq as Heq. by rewrite <- Heq in Ht. }
    by pose proof (normalize_nonempty s _ Ht Hn).
  - intros raw Hin Hn. by apply (load_entries_raises entries raw).
Qed.

Example load_scraped_server_urls_example :
  Snapshot.load_scraped_server_urls example_snapshot
  = Some {["https://smithery.ai/server/a"]}.
Proof. vm_compute. reflexivity. Qed.

(** ** The page indicator *)

Lemma take_while_app (p : ascii → bool) (a b : string) :
  str_all p a = true → not_starting p b = true →
  take_while p (a +:+ b) = a.
Proof.
  intros Ha Hb. induction a as [|c a IH].
  - rewrite app_nil_l_str. destruct b as [|d b]; [done|].
    cbn in *. by destruct (p d).
  - rewrite app_cons_str. cbn in *.
    apply andb_true_iff in Ha as [-> Ha]. by rewrite IH.
Qed.

Lemma lstrip_by_app (p : ascii → bool) (a b : string) :
  str_all p a = true → lstrip_by p (a +:+ b) = lstrip_by p b.
Proof.
  intros Ha. induction a as [|c a IH]; [by rewrite app_nil_l_str|].
  rewrite app_cons_str. cbn in *.
  apply andb_true_iff in Ha as [-> Ha]. by apply IH.
Qed.

Lemma lstrip_by_not_starting (p : ascii → bool) (s : string) :
  not_starting p s = true → lstrip_by p s = s.
Proof. destruct s as [|c s]; [done|]. cbn. by destruct (p c). Qed.

Lemma not_starting_app (p q : ascii → bool) (w b : string) :
  (∀ c, q c = true → p c = false) →
  str_all q w = true → not_starting p b = true →
  not_starting p (w +:+ b) = true.
Proof.
  intros Hpq Hw Hb. destruct w as [|c w]; [by rewrite app_nil_l_str|].
  rewrite app_cons_str. cbn in *. apply andb_true_iff in Hw as [Hc _].
  by rewrite (Hpq c Hc).
Qed.

Lemma space_not_digit (c : ascii) : isspace c = true → isascii_digit c = false.
Proof. revert c. by intros [[] [] [] [] [] [] [] []]. Qed.

Lemma digit_not_space (c : ascii) : isascii_digit c = true → isspace c = false.
Proof. revert c. by intros [[] [] [] [] [] [] [] []]. Qed.

Lemma match_indicator_hit (g1 w1 w2 g2 post : string) :
  truthy g1 = true → str_all isascii_digit g1 = true →
  str_all isspace w1 = true → str_all isspace w2 = true →
  truthy g2 = true → str_all isascii_digit g2 = true →
  not_starting isascii_digit post = true →
  match_indicator (g1 +:+ w1 +:+ "/" +:+ w2 +:+ g2 +:+ post) = Some (g1, g2).
Proof.
  intros Ht1 Hg1 Hw1 Hw2 Ht2 Hg2 Hpost. unfold match_indicator.
  rewrite (take_while_app isascii_digit g1).
  2: done.
  2:{ apply (not_starting_app _ isspace); [apply space_not_digit|done|done]. }
  rewrite Ht1, drop_length_app, (lstrip_by_app isspace w1) by done.
  change ("/" +:+ w2 +:+ g2 +:+ post) with (String "/" (w2 +:+ g2 +:+ post)).
  rewrite lstrip_by_id by done.
  rewrite (lstrip_by_app isspace w2) by done.
  rewrite (lstrip_by_not_starting isspace (g2 +:+ post)).
  2:{ destruct g2 as [|c g2]; [done|]. rewrite app_cons_str. cbn in *.
      apply andb_true_iff in Hg2 as [Hc _]. by rewrite (digit_not_space c Hc). }
  by rewrite (take_while_app isascii_digit g2), Ht2.
Qed.

Lemma search_indicator_hit (s : string) (m : string * string) :
  match_indicator s = Some m → search_indicator s = Some m.
Proof. intros H. destruct s; cbn [search_indicator]; by rewrite H. Qed.

Lemma search_indicator_skip (pre s : string) :
  str_all (fun c => negb (isascii_digit c)) pre = true →
  search_indicator (pre +:+ s) = search_indicator s.
Proof.
  intros Hpre. induction pre as [|c pre IH]; [by rewrite app_nil_l_str|].
  rewrite app_cons_str. cbn in Hpre.
  apply andb_true_iff in Hpre as [Hc Hpre].
  cbn [search_indicator]. unfold match_indicator at 1.
  cbn [take_while]. apply negb_true_iff in Hc. rewrite Hc. cbn [truthy].
  by apply IH.
Qed.

Lemma take_while_prefix (p : ascii → bool) (s : string) :
  ∃ r : string, s = take_while p s +:+ r.
Proof.
  induction s as [|c s [r IH]]; [by exists EmptyString|]. cbn [take_while].
  destruct (p c).
  - exists r. rewrite app_cons_str. by rewrite <- IH.
  - by exists (String c s).
Qed.

Lemma lstrip_by_suffix (p : ascii → bool) (s : string) :
  ∃ w : string, s = w +:+ lstrip_by p s.
Proof.
  induction s as [|c s [w IH]]; [by exists EmptyString|]. cbn [lstrip_by].
  destruct (p c).
  - exists (String c w). rewrite app_cons_str. by rewrite <- IH.
  - by exists EmptyString.
Qed.

Lemma match_indicator_slash (s : string) (m : string * string) :
  match_indicator s = Some m → contains_char "/" s = true.
Proof.
  unfold match_indicator.
  destruct (take_while_prefix isascii_digit s) as [r Hr].
  set (g1 := take_while isascii_digit s) in *.
  destruct (truthy g1); [|done].
  rewrite Hr at 1. rewrite drop_length_app.
  destruct (lstrip_by_suffix isspace r) as [w Hw].
  destruct (lstrip_by isspace r) as [|c t] eqn:E; [done|].
  destruct (Ascii.eqb_spec c "/") as [-> | Hne].
  - intros _. rewrite Hr, Hw, !contains_char_app.
    cbn. by rewrite !orb_true_r.
  - by destruct c as [[] [] [] [] [] [] [] []].
Qed.

Lemma search_indicator_slash (s : string) :
  contains_char "/" s = false → search_indicator s = None.
Proof.
  induction s as [|c s IH]; intros Hs.
  - done.
  - cbn [search_indicator].
    destruct (match_indicator (String c s)) as [m|] eqn:E.
    + apply match_indicator_slash in E. congruence.
    + apply IH. unfold contains_char in *. cbn in Hs.
      by apply orb_false_iff in Hs as [_ Hs].
Qed.

(** X20: [parse_page_indicator] finds the indicator [current / total]
    behind any text that holds no digit, with any white space around
    the slash, and returns the two numbers; the text that follows must
    not start with a digit, and each number has at most 4300 digits
    (beyond that [int] raises).  On a text without a slash it returns
    [None]. *)
Theorem parse_page_indicator_spec (pre g1 w1 w2 g2 post text : string) :
  str_all (fun c => negb (isascii_digit c)) pre = true →
  truthy g1 = true → str_all isascii_digit g1 = true →
  str_all isspace w1 = true → str_all isspace w2 = true →
  truthy g2 = true → str_all isascii_digit g2 = true →
  not_starting isascii_digit post = true →
  (String.length g1 ≤ 4300)%nat → (String.length g2 ≤ 4300)%nat →
  parse_page_indicator (pre +:+ g1 +:+ w1 +:+ "/" +:+ w2 +:+ g2 +:+ post)
  = inr (Some (Z.of_N (int_of 10 g1), Z.of_N (int_of 10 g2)))
  ∧ (contains_char "/" text = false → parse_page_indicator text = inr None).
Proof.
  intros Hpre Ht1 Hg1 Hw1 Hw2 Ht2 Hg2 Hpost Hl1 Hl2. split.
  - unfold parse_page_indicator.
    rewrite search_indicator_skip by done.
    rewrite (search_indicator_hit _ (g1, g2))
      by by apply match_indicator_hit.
    unfold py_int.
    replace (4300 <? String.length g1)%nat with false
      by (symmetry; apply Nat.ltb_ge; lia).
    replace (4300 <? String.length g2)%nat with false
      by (symmetry; apply Nat.ltb_ge; lia).
    done.
  - intros Hs. unfold parse_page_indicator.
    by rewrite search_indicator_slash.
Qed.

Lemma parse_page_indicator_spec_witness :
  parse_page_indicator
    ("Page " +:+ "1" +:+ " " +:+ "/" +:+ " " +:+ "48" +:+ " of results")
  = inr (Some (Z.of_N (int_of 10 "1"), Z.of_N (int_of 10 "48")))
  ∧ (contains_char "/" "no indicator" = false →
     parse_page_indicator "no indicator" = inr None).
Proof.
  apply (parse_page_indicator_spec "Page " "1" " " " " "48" " of results"
           "no indicator"); try reflexivity; cbn; lia.
Defined.

Example parse_page_indicator_example :
  parse_page_indicator "Showing 1 / 48" = inr (Some (1, 48)%Z).
Proof. vm_compute. reflexivity. Qed.

(** ** One listing page *)

Lemma cut_query_server (href : string) :
  startswith "/server/" href = true →
  startswith "/server/" (cut_query href) = true.
Proof.
  intros Hs. unfold cut_query.
  destruct (split_on_head "?" href) as (h & t & -> & _ & Hpre).
  by apply Hpre.
Qed.

Lemma normalize_listed (href : string) :
  startswith "/server/" href = true →
  ∃ p : string,
    normalize_server_url (BASE_URL +:+ cut_query href) = Some (BASE_URL +:+ p)
    ∧ normalize_server_url (cut_query href) = Some (BASE_URL +:+ p)
    ∧ startswith "/server" p = true.
Proof.
  intros Hs. apply cut_query_server in Hs.
  destruct (strip_server_path _ Hs) as (_ & H2 & _).
  destruct (normalize_relative _ H2) as (p & Hn & _ & Hp).
  exists p. by rewrite normalize_base_prefix.
Qed.

Section FetchPage.

Variable render : Z → Z → page_load.
Variable normalize_error : string → string.

Lemma add_links_spec (hrefs : list (option string)) :
  ∀ acc : gset string,
    ∃ urls : gset string,
      add_links normalize_error hrefs acc = (urls, None)
      ∧ ∀ u : string,
          u ∈ urls
          ↔ u ∈ acc
            ∨ ∃ href : string,
                Some href ∈ hrefs ∧ startswith "/server/" href = true
                ∧ normalize_server_url (cut_query href) = Some u.
Proof.
  induction hrefs as [|href hrefs IH]; intros acc.
  - exists acc. split; [done|]. intros u. split; [by left|].
    intros [H | (h & Hh & _)]; [done|]. by apply elem_of_nil in Hh.
  - assert (Hskip : (∀ h, href = Some h → startswith "/server/" h = false) →
              ∃ urls : gset string,
                add_links normalize_error hrefs acc = (urls, None)
                ∧ ∀ u : string,
                    u ∈ urls
                    ↔ u ∈ acc
                      ∨ ∃ h : string,
                          Some h ∈ href :: hrefs
                          ∧ startswith "/server/" h = true
                          ∧ normalize_server_url (cut_query h) = Some u).
    { intros Hno. destruct (IH acc) as (urls & E & Hu).
      exists urls. split; [done|]. intros u. rewrite Hu.
      split; (intros [H | (h & Hh & Hs & Hn)]; [by left|right]); exists h.
      - split; [by right|done].
      - apply elem_of_cons in Hh as [Hh | Hh]; [|done].
        symmetry in Hh. rewrite (Hno h Hh) in Hs. done. }
    cbn [add_links]. destruct href as [href|]; [|by apply Hskip].
    destruct (truthy href) eqn:Ht; cbn [negb].
    2:{ apply Hskip. intros h [= <-]. by destruct href. }
    destruct (startswith "/server/" href) eqn:Hs; cbn [negb orb].
    2:{ apply Hskip. by intros h [= <-]. }
    destruct (String.eqb_spec href "/servers") as [-> | Hne]; [done|].
    fold (cut_query href).
    destruct (normalize_listed href Hs) as (p & Hn1 & Hn2 & Hp).
    rewrite Hn1. change (truthy (BASE_URL +:+ p)) with true. cbv iota.
    destruct (IH (acc ∪ {[BASE_URL +:+ p]})) as (urls & E & Hu).
    exists urls. split; [done|]. intros u. rewrite Hu.
    rewrite elem_of_union, elem_of_singleton. split.
    + intros [[H | ->] | (h & Hh & Hs' & Hn)].
      * by left.
      * right. exists href. split; [by left|done].
      * right. exists h. split; [by right|done].
    + intros [H | (h & Hh & Hs' & Hn)]; [by left; left|].
      apply elem_of_cons in Hh as [[= ->] | Hh].
      * left. right. congruence.
      * right. by exists h.
Qed.

Lemma fetch_page_urls_listed (page_num delay_ms : Z) (u : string) :
  u ∈ urls_of (_fetch_page_urls render normalize_error page_num delay_ms) →
  startswith "https://smithery.ai/server" u = true.
Proof.
  unfold _fetch_page_urls.
  destruct (render page_num delay_ms) as [error|body_text hrefs failure].
  { intros Hu. by apply not_elem_of_empty in Hu. }
  destruct (parse_page_indicator body_text) as [error|page_info].
  { intros Hu. by apply not_elem_of_empty in Hu. }
  destruct (add_links_spec hrefs ∅) as (urls & E & Hu). rewrite E.
  intros Hin. apply Hu in Hin as [Hin | (href & _ & Hs & Hn)];
    [by apply not_elem_of_empty in Hin|].
  destruct (normalize_listed href Hs) as (p & _ & Hn2 & Hp).
  rewrite Hn2 in Hn. injection Hn as <-.
  destruct (startswith_inv _ _ Hp) as [y ->].
  apply (startswith_app "https://smithery.ai/server" y).
Qed.

(** X21: [_fetch_page_urls] returns the page number it was given.  A
    link counts when its [href] starts with [/server/]; the [href] is
    cut before its first [?] and normalized, which never raises on such
    a link: when the page loads and its indicator can be read, the URL
    set holds exactly the normal forms of these links, each starting
    with [https://smithery.ai/server], the total is the one of the
    indicator, and the error is that of the browser alone.  When the
    page does not load, or the indicator has a number of more than 4300
    digits, the URL set is empty and the error is reported. *)
Theorem fetch_page_urls_spec (page_num delay_ms : Z) :
  let r := _fetch_page_urls render normalize_error page_num delay_ms in
  r.1.1.1 = page_num
  ∧ (∀ u : string, u ∈ urls_of r →
       startswith "https://smithery.ai/server" u = true)
  ∧ match render page_num delay_ms with
    | LoadFailed error => r = (page_num, ∅, None, Some error)
    | Loaded body_text hrefs failure =>
        match parse_page_indicator body_text with
        | inl error => r = (page_num, ∅, None, Some error)
        | inr page_info =>
            total_of r = snd <$> page_info
            ∧ r.2 = failure
            ∧ ∀ u : string,
                u ∈ urls_of r
                ↔ ∃ href : string,
                    Some href ∈ hrefs ∧ startswith "/server/" href = true
                    ∧ normalize_server_url (cut_query href) = Some u
        end
    end.
Proof.
  intros r. split; [|split; [apply fetch_page_urls_listed|]];
    unfold r, _fetch_page_urls;
    destruct (render page_num delay_ms) as [error|body_text hrefs failure];
    try done;
    destruct (parse_page_indicator body_text) as [error|page_info];
    try done;
    destruct (add_links_spec hrefs ∅) as (urls & E & Hu); rewrite E;
    [done|].
  split; [done|]. split; [done|].
  intros u. cbn. rewrite Hu. split; [|by right].
  intros [H | H]; [by apply not_elem_of_empty in H|done].
Qed.

End FetchPage.

Example fetch_page_urls_example :
  _fetch_page_urls example_render (fun _ => EmptyString) 1 1500
  = (1%Z,
     {["https://smithery.ai/server/a"]} ∪ {["https://smithery.ai/server/b"]},
     Some 48%Z, None).
Proof. vm_compute. reflexivity. Qed.

(** ** The crawl over the pages that the browser gives *)

Lemma crawl_sequentially_sound
    (fetch : Z → Z → Z * gset string * option Z * option string)
    (max_pages : option Z) (delay_ms : Z) (fuel : nat) :
  ∀ (page : Z) (urls : gset string) (visited : list Z)
    (r : gset string) (v : list Z),
    crawl_sequentially fetch fuel max_pages delay_ms page urls visited
    = Some (r, v) →
    ∀ u : string,
      u ∈ r → u ∈ urls ∨ ∃ p : Z, u ∈ urls_of (fetch p delay_ms).
Proof.
  induction fuel as [|fuel IH]; intros page urls visited r v; [done|].
  cbn [crawl_sequentially]. destruct (fetch page delay_ms) as [[[pn pu] pt] pe] eqn:Ef.
  assert (Hpu : ∀ u, u ∈ urls ∪ pu →
            u ∈ urls ∨ ∃ p : Z, u ∈ urls_of (fetch p delay_ms)).
  { intros u [H | H]%elem_of_union; [by left|].
    right. exists page. by rewrite Ef. }
  case_bool_decide as Hempty; [intros [= <- _] u Hu; by left|].
  destruct (truthy_int max_pages && (default 0%Z max_pages <? page + 1)%Z);
    [intros [= <- _]; exact Hpu|].
  destruct (100 <? page + 1)%Z; [intros [= <- _]; exact Hpu|].
  intros Hc u Hu.
  destruct (IH _ _ _ _ _ Hc u Hu) as [H | H]; [by apply Hpu|by right].
Qed.

Lemma fetch_current_server_urls_sound
    (fetch : Z → Z → Z * gset string * option Z * option string)
    (as_completed : list Z → list Z) (max_pages : option Z)
    (delay_ms threads : Z) (l : list string) (v : list Z) :
  fetch_current_server_urls fetch as_completed max_pages delay_ms threads
  = Some (l, v) →
  ∀ u : string, u ∈ l → ∃ p : Z, u ∈ urls_of (fetch p delay_ms).
Proof.
  unfold fetch_current_server_urls.
  remember 99%nat as fuel eqn:Hfuel.
  destruct (fetch 1%Z delay_ms) as [[[pn pu] pt] pe] eqn:Ef.
  assert (H1 : ∀ u, u ∈ (∅ ∪ pu : gset string) →
            ∃ p : Z, u ∈ urls_of (fetch p delay_ms)).
  { intros u [H | H]%elem_of_union; [by apply not_elem_of_empty in H|].
    exists 1%Z. by rewrite Ef. }
  match goal with
  | |- context [if ?c then _ else _] => destruct c
  end.
  - rewrite foldl_pages_only_urls. cbn [mbind option_bind].
    intros [= <- _] u Hu. apply elem_of_sorted in Hu.
    apply elem_of_union in Hu as [Hu | Hu]; [by apply H1|].
    apply elem_of_union_list in Hu as (X & HX & Hu).
    apply list_elem_of_fmap in HX as (p & -> & _). by exists p.
  - destruct (crawl_sequentially fetch fuel max_pages delay_ms 2 (∅ ∪ pu) [1%Z])
      as [[r v']|] eqn:Hc; [|done].
    cbn [mbind option_bind]. intros [= <- _] u Hu. apply elem_of_sorted in Hu.
    destruct (crawl_sequentially_sound _ _ _ _ _ _ _ _ _ Hc u Hu) as [H | H];
      [by apply H1|done].
Qed.

(** X22: whatever the browser does and whatever [max_pages] and the
    completion order are, the discovery built on [_fetch_page_urls]
    ends and returns a list in strictly ascending order, every URL of
    which starts with [https://smithery.ai/server]. *)
Theorem discovery_urls_shape (render : Z → Z → page_load)
    (normalize_error : string → string) (as_completed : list Z → list Z)
    (max_pages : option Z) (delay_ms threads : Z) :
  ∃ (l : list string) (v : list Z),
    fetch_current_server_urls (_fetch_page_urls render normalize_error)
      as_completed max_pages delay_ms threads = Some (l, v)
    ∧ ascending l
    ∧ Forall (fun u => startswith "https://smithery.ai/server" u = true) l.
Proof.
  destruct (fetch_current_server_urls_returns
              (_fetch_page_urls render normalize_error) as_completed
              max_pages delay_ms threads) as [[l v] E].
  exists l, v. split; [done|]. split.
  - unfold fetch_current_server_urls in E.
    destruct (_fetch_page_urls render normalize_error 1 delay_ms)
      as [[[pn pu] pt] pe].
    match type of E with
    | (?c ≫= _) = _ => destruct c as [[r v']|]; [|done]
    end.
    cbn [mbind option_bind] in E. injection E as <- _.
    apply sorted_ascending.
  - apply Forall_forall. intros u Hu.
    destruct (fetch_current_server_urls_sound _ _ _ _ _ _ _ E u Hu) as [p Hp].
    by apply (fetch_page_urls_listed render normalize_error p delay_ms).
Qed.

(** ** When the final write fails *)



